(** * uproot: RNTuple reader and TTree writer

    A shallow embedding of [src/uproot/models/RNTuple.py] (the RNTuple
    envelope reader and page decoder) and of
    [src/uproot/writing/_cascadetree.py] (the TTree writer), together
    with the properties of these two modules stated in the specification.

    Conventions.
    - Python integers are [Z]; NumPy fixed-width integers are [Z] with the
      wrap-around written out ([wrap_signed], [wrap_unsigned]); a Python
      [float] is a binary64 of [SpecFloat].
    - Bytes are [Byte.byte]; a chunk of a file is a list of bytes with the
      absolute offset of its first byte.
    - A Python exception is a value of [exn]; code that may raise returns
      [result].  Methods that mutate [self] are functions in the state and
      error monad [M], whose state survives an exception, as the
      attributes of a Python object do. *)

From Stdlib Require Import ZArith List String SpecFloat Lia Bool.
From stdpp Require Import base list strings.
Import ListNotations.
Local Open Scope Z_scope.

#[local] Set Warnings "-register-all".

(** ** Exceptions and results *)

Inductive exn : Type :=
  | AssertionError
  | ValueError
  | TypeError
  | KeyError
  | IndexError
  | AttributeError
  | UnboundLocalError
  | OverflowError
  | OutOfChunk        (* a read outside the bytes of the chunk *)
  | DecompressError.

Inductive result (A : Type) : Type :=
  | Ok (a : A)
  | Raise (e : exn).
Arguments Ok {A} a.
Arguments Raise {A} e.

Definition rbind {A B} (r : result A) (k : A -> result B) : result B :=
  match r with
  | Ok a => k a
  | Raise e => Raise e
  end.

Declare Scope res_scope.
Delimit Scope res_scope with res.
Notation "'let!' p ':=' c 'in' k" := (rbind c (fun p => k))
  (at level 10, p pattern, c at level 200, k at level 200, only parsing)
  : res_scope.

(** ** Bytes and fixed-width integers *)

Definition byte_of_Z (z : Z) : Byte.byte :=
  match Byte.of_N (Z.to_N (z mod 256)) with
  | Some b => b
  | None => Byte.x00
  end.

Definition Z_of_byte (b : Byte.byte) : Z := Z.of_N (Byte.to_N b).

Definition bytes_of (zs : list Z) : list Byte.byte := map byte_of_Z zs.

(** The value of a two's complement pattern of [bits] bits. *)
Definition wrap_unsigned (bits : Z) (z : Z) : Z := z mod 2 ^ bits.

Definition wrap_signed (bits : Z) (z : Z) : Z :=
  (z + 2 ^ (bits - 1)) mod 2 ^ bits - 2 ^ (bits - 1).

(** [struct] formats with the [<] prefix: little-endian. *)
Fixpoint le_decode (bs : list Byte.byte) : Z :=
  match bs with
  | [] => 0
  | b :: bs' => Z_of_byte b + 256 * le_decode bs'
  end.

Fixpoint le_encode (n : nat) (z : Z) : list Byte.byte :=
  match n with
  | O => []
  | S n' => byte_of_Z z :: le_encode n' (z / 256)
  end.

(** [struct] formats with the [>] prefix and NumPy [>] dtypes: big-endian. *)
Definition be_decode (bs : list Byte.byte) : Z := le_decode (rev bs).
Definition be_encode (n : nat) (z : Z) : list Byte.byte := rev (le_encode n z).

(** ** Chunks and cursors

    Modelled from the spec: [uproot.source.chunk.Chunk] and
    [uproot.source.cursor.Cursor] are not part of the two modules; section
    4.1 of the specification describes them.  A chunk is an immutable byte
    window with a known absolute file offset; a cursor is an absolute
    index that advances as fields are consumed; reads never span chunks. *)

Record Chunk : Type := mkChunk {
  chunk_start : Z;
  raw_data : list Byte.byte
}.

(** A reader is a method [read(self, chunk, cursor, context)]: it consumes
    bytes at the cursor and leaves the cursor advanced.  The cursor object
    is mutated in place in the source; here the new index is returned. *)
Definition Reader (A : Type) : Type := Chunk -> Z -> result (A * Z).

Definition chunk_get (chunk : Chunk) (start stop : Z) : result (list Byte.byte) :=
  let lo := start - chunk_start chunk in
  let hi := stop - chunk_start chunk in
  if (0 <=? lo) && (lo <=? hi) && (hi <=? Z.of_nat (length (raw_data chunk)))
  then Ok (firstn (Z.to_nat (hi - lo)) (skipn (Z.to_nat lo) (raw_data chunk)))
  else Raise OutOfChunk.

(** [cursor.field] / [cursor.fields] for a run of [n] bytes. *)
Definition cursor_bytes (n : Z) : Reader (list Byte.byte) :=
  fun chunk cursor =>
    (let! bs := chunk_get chunk cursor (cursor + n) in
     Ok (bs, cursor + n))%res.

Definition field_u16 : Reader Z := fun chunk cursor =>
  (let! (bs, c) := cursor_bytes 2 chunk cursor in Ok (le_decode bs, c))%res.

Definition field_u32 : Reader Z := fun chunk cursor =>
  (let! (bs, c) := cursor_bytes 4 chunk cursor in Ok (le_decode bs, c))%res.

Definition field_u64 : Reader Z := fun chunk cursor =>
  (let! (bs, c) := cursor_bytes 8 chunk cursor in Ok (le_decode bs, c))%res.

Definition field_i32 : Reader Z := fun chunk cursor =>
  (let! (bs, c) := cursor_bytes 4 chunk cursor in
   Ok (wrap_signed 32 (le_decode bs), c))%res.

(** Modelled from the spec: [cursor.rntuple_string] is a method of the
    absent cursor class; the specification gives a length-prefixed (u32)
    string. *)
Definition rntuple_string : Reader (list Byte.byte) := fun chunk cursor =>
  (let! (len, c) := field_u32 chunk cursor in cursor_bytes len chunk c)%res.

(** ** Frames *)

(** [_rntuple_frame_header = struct.Struct("<ii")] *)
Definition _rntuple_frame_header : Reader (Z * Z) := fun chunk cursor =>
  (let! (num_bytes, c) := field_i32 chunk cursor in
   let! (num_items, c') := field_i32 chunk c in
   Ok ((num_bytes, num_items), c'))%res.

(** [[payload.read(chunk, local_cursor, context) for _ in range(n)]] *)
Fixpoint read_items {A} (payload : Reader A) (n : nat) : Reader (list A) :=
  fun chunk local_cursor =>
    match n with
    | O => Ok ([], local_cursor)
    | S n' =>
        (let! (x, c) := payload chunk local_cursor in
         let! (xs, c') := read_items payload n' chunk c in
         Ok (x :: xs, c'))%res
    end.

(** [RecordFrameReader.read] *)
Definition RecordFrameReader {A} (payload : Reader A) : Reader A :=
  fun chunk cursor =>
    (let! (num_bytes, local_cursor) := field_u32 chunk cursor in
     let! (out, _) := payload chunk local_cursor in
     Ok (out, cursor + num_bytes))%res.

(** [ListFrameReader.read] *)
Definition ListFrameReader {A} (payload : Reader A) : Reader (list A) :=
  fun chunk cursor =>
    (let! (hdr, local_cursor) := _rntuple_frame_header chunk cursor in
     let '(num_bytes, num_items) := hdr in
     if num_bytes <? 0 then
       let! (items, _) := read_items payload (Z.to_nat num_items) chunk local_cursor in
       Ok (items, cursor + - num_bytes)
     else Raise AssertionError)%res.

(** ** Page decoding primitives *)

(** [from_zigzag(n) = n >> 1 ^ -(n & 1)]: in Python the shift binds
    tighter than the exclusive or, and [>>] on a signed integer is the
    arithmetic shift. *)
Definition from_zigzag (n : Z) : Z :=
  Z.lxor (Z.shiftr n 1) (- (Z.land n 1)).

(** [_split_switch_bits(content)], for one element of the array:
    [numpy.bitwise_and(content, numpy.int64(0x00000000000FFFFF))] and
    [(content >> 44).astype("int8") - 1], the latter computed in int8. *)
Definition _split_switch_bits (content : Z) : Z * Z :=
  let kindex := Z.land content 0x00000000000FFFFF in
  let tags := wrap_signed 8 (wrap_signed 8 (Z.shiftr content 44) - 1) in
  (kindex, tags).

(** ** NumPy arrays of the page decoder *)

Inductive np_dtype : Type :=
  | uint8 | uint16 | uint32 | uint64
  | int8 | int16 | int32 | int64
  | float16 | float32 | float64
  | bool_.

(** The entries of [rntuple_col_num_to_dtype_dict]: a NumPy dtype name or
    the string ["bit"]. *)
Inductive dtype_str : Type :=
  | bit
  | np (d : np_dtype).

Inductive dtype_kind : Type := KUnsigned | KSigned | KFloat | KBool.

Definition kind_of (d : np_dtype) : dtype_kind :=
  match d with
  | uint8 | uint16 | uint32 | uint64 => KUnsigned
  | int8 | int16 | int32 | int64 => KSigned
  | float16 | float32 | float64 => KFloat
  | bool_ => KBool
  end.

Definition itemsize (d : np_dtype) : Z :=
  match d with
  | uint8 | int8 | bool_ => 1
  | uint16 | int16 | float16 => 2
  | uint32 | int32 | float32 => 4
  | uint64 | int64 | float64 => 8
  end.

(** An array is its dtype and its elements.  An integer element is its
    value; an element of a float array is kept as its bit pattern. *)
Record ndarray : Type := mkArray {
  nd_dtype : np_dtype;
  nd_data : list Z
}.

(** ** Collaborators outside the two modules

    The constants of [uproot.const] and the function
    [uproot.compression.decompress] are used by the reader but defined
    elsewhere; they are parameters of the development. *)
Class Uproot : Type := {
  (** [uproot.const.rntuple_col_num_to_dtype_dict] *)
  rntuple_col_num_to_dtype_dict : Z -> option dtype_str;
  (** [uproot.const.rntuple_col_num_to_size_dict] *)
  rntuple_col_num_to_size_dict : Z -> option Z;
  (** [uproot.const.rntuple_col_type_to_num_dict["index32"]] *)
  index32 : Z;
  (** [uproot.const.rntuple_col_type_to_num_dict["switch"]] *)
  switch : Z;
  (** [uproot.compression.decompress(chunk, cursor, context, nbytes, uncomp)] *)
  decompress : Chunk -> Z -> Z -> Z -> result Chunk;
  (** NumPy's conversion of an integer value to a float of the given
      dtype, as a bit pattern. *)
  float_of_int : np_dtype -> Z -> Z
}.

(** [zlib.crc32]: the CRC-32 of ISO 3309, polynomial [0xEDB88320]
    (reflected), initial value and final exclusive or [0xFFFFFFFF]. *)
Fixpoint crc32_bits (n : nat) (c : Z) : Z :=
  match n with
  | O => c
  | S n' =>
      crc32_bits n'
        (if Z.odd c then Z.lxor (Z.shiftr c 1) 0xEDB88320 else Z.shiftr c 1)
  end.

Definition crc32_update (c : Z) (b : Byte.byte) : Z :=
  crc32_bits 8 (Z.lxor c (Z_of_byte b)).

Definition crc32 (data : list Byte.byte) : Z :=
  Z.lxor (fold_left crc32_update data 0xFFFFFFFF) 0xFFFFFFFF.

(** Python's [l[i]] on a list: a negative index counts from the end, an
    index out of range raises [IndexError]. *)
Definition py_index {A} (l : list A) (i : Z) : result A :=
  let n := Z.of_nat (length l) in
  let j := if i <? 0 then i + n else i in
  if (0 <=? j) && (j <? n) then
    match l !! Z.to_nat j with
    | Some x => Ok x
    | None => Raise IndexError
    end
  else Raise IndexError.

(** Python's [l[a:b]] for [0 <= a]. *)
Definition slice {A} (l : list A) (a b : Z) : list A :=
  firstn (Z.to_nat (b - a)) (skipn (Z.to_nat a) l).

(** Python's [l[:-4]]. *)
Definition drop_last4 {A} (l : list A) : list A :=
  firstn (length l - 4)%nat l.

(** ** Decoded records ([MetaData] objects) *)

Record Locator : Type := mkLocator {
  loc_num_bytes : Z;
  loc_offset : Z
}.

Record EnvLink : Type := mkEnvLink {
  env_uncomp_size : Z;
  link_locator : Locator
}.

Record FieldRecord : Type := mkFieldRecord {
  field_version : Z;
  fr_type_version : Z;
  parent_field_id : Z;
  struct_role : Z;
  fr_flags : Z;
  repetition : Z;
  field_name : list Byte.byte;
  fr_type_name : list Byte.byte;
  type_alias : list Byte.byte;
  field_desc : list Byte.byte
}.

Record ColumnRecord : Type := mkColumnRecord {
  cr_type : Z;
  cr_nbits : Z;
  cr_field_id : Z;
  cr_flags : Z
}.

Record AliasColumn : Type := mkAliasColumn {
  physical_id : Z;
  ac_field_id : Z
}.

Record ExtraTypeInfo : Type := mkExtraTypeInfo {
  type_ver_from : Z;
  type_ver_to : Z;
  content_id : Z;
  eti_type_name : list Byte.byte
}.

Record ClusterSummary : Type := mkClusterSummary {
  num_first_entry : Z;
  cs_num_entries : Z
}.

Record ClusterGroupRecord : Type := mkClusterGroupRecord {
  num_clusters : Z;
  page_list_link : EnvLink
}.

Record PageDescription : Type := mkPageDescription {
  num_elements : Z;
  pd_locator : Locator
}.

Record Header : Type := mkHeader {
  h_env_header : Z * Z;
  h_feature_flag : Z;
  rc_tag : Z;
  h_name : list Byte.byte;
  ntuple_description : list Byte.byte;
  writer_identifier : list Byte.byte;
  h_field_records : list FieldRecord;
  h_column_records : list ColumnRecord;
  h_alias_columns : list AliasColumn;
  h_extra_type_infos : list ExtraTypeInfo;
  h_crc32 : Z
}.

Record SchemaExtension : Type := mkSchemaExtension {
  ext_size : Z;
  ext_field_records : list FieldRecord;
  ext_column_records : list ColumnRecord;
  ext_alias_records : list AliasColumn;
  ext_extra_type_info : list ExtraTypeInfo
}.

Record Footer : Type := mkFooter {
  f_env_header : Z * Z;
  f_feature_flag : Z;
  header_crc32 : Z;
  extension_links : SchemaExtension;
  col_group_records : list ClusterSummary;
  cluster_summaries : list ClusterSummary;
  cluster_group_records : list ClusterGroupRecord;
  meta_block_links : list EnvLink;
  f_crc32 : Z
}.

(** A [PageLink] envelope.  When the top-most list is empty,
    [PageLink.read] returns before [pagelinklist] and [crc32] are set. *)
Record PageLinkData : Type := mkPageLinkData {
  pl_env_header : Z * Z;
  pagelinklist : option (list (list (list PageDescription)));
  pl_crc32 : option Z
}.

(** ** Payload readers *)

(** Modelled from the spec: [uproot.const._rntuple_frame_format] is not in
    the module; the envelope header is [u16 env_version, u16 min_version]. *)
Definition _envelop_header : Reader (Z * Z) := fun chunk cursor =>
  (let! (env_version, c) := field_u16 chunk cursor in
   let! (min_version, c') := field_u16 chunk c in
   Ok ((env_version, min_version), c'))%res.

(** [_rntuple_locator_format = struct.Struct("<iQ")] *)
Definition LocatorReader : Reader Locator := fun chunk cursor =>
  (let! (nb, c) := field_i32 chunk cursor in
   let! (off, c') := field_u64 chunk c in
   Ok (mkLocator nb off, c'))%res.

Definition EnvLinkReader : Reader EnvLink := fun chunk cursor =>
  (let! (sz, c) := field_u32 chunk cursor in
   let! (loc, c') := LocatorReader chunk c in
   Ok (mkEnvLink sz loc, c'))%res.

Definition PageDescriptionReader : Reader PageDescription := fun chunk cursor =>
  (let! (n, c) := field_u32 chunk cursor in
   let! (loc, c') := LocatorReader chunk c in
   Ok (mkPageDescription n loc, c'))%res.

(** [PageLinkInner.read]: a list frame of page descriptions. *)
Definition PageLinkInner : Reader (list PageDescription) := fun chunk cursor =>
  (let! (hdr, local_cursor) := _rntuple_frame_header chunk cursor in
   let '(num_bytes, num_pages) := hdr in
   if num_bytes <? 0 then
     let! (pages, _) :=
       read_items PageDescriptionReader (Z.to_nat num_pages) chunk local_cursor in
     Ok (pages, cursor + - num_bytes)
   else Raise AssertionError)%res.

(** [FieldRecordReader.read]; the fixed part is
    [struct.Struct("<IIIHH")], the repetition a native [Q]. *)
Definition FieldRecordReader : Reader FieldRecord := fun chunk cursor =>
  (let! (fv, c1) := field_u32 chunk cursor in
   let! (tv, c2) := field_u32 chunk c1 in
   let! (parent, c3) := field_u32 chunk c2 in
   let! (role, c4) := field_u16 chunk c3 in
   let! (flags, c5) := field_u16 chunk c4 in
   let! (rep, c6) :=
     (if flags =? 0x0001 then field_u64 chunk c5 else Ok (0, c5)) in
   let! (s1, c7) := rntuple_string chunk c6 in
   let! (s2, c8) := rntuple_string chunk c7 in
   let! (s3, c9) := rntuple_string chunk c8 in
   let! (s4, c10) := rntuple_string chunk c9 in
   Ok (mkFieldRecord fv tv parent role flags rep s1 s2 s3 s4, c10))%res.

(** [_rntuple_column_record_format = struct.Struct("<HHII")] *)
Definition ColumnRecordReader : Reader ColumnRecord := fun chunk cursor =>
  (let! (ty, c1) := field_u16 chunk cursor in
   let! (nbits, c2) := field_u16 chunk c1 in
   let! (fid, c3) := field_u32 chunk c2 in
   let! (flags, c4) := field_u32 chunk c3 in
   Ok (mkColumnRecord ty nbits fid flags, c4))%res.

Definition AliasColumnReader : Reader AliasColumn := fun chunk cursor =>
  (let! (p, c1) := field_u32 chunk cursor in
   let! (f, c2) := field_u32 chunk c1 in
   Ok (mkAliasColumn p f, c2))%res.

Definition ExtraTypeInfoReader : Reader ExtraTypeInfo := fun chunk cursor =>
  (let! (a, c1) := field_u32 chunk cursor in
   let! (b, c2) := field_u32 chunk c1 in
   let! (i, c3) := field_u32 chunk c2 in
   let! (s, c4) := rntuple_string chunk c3 in
   Ok (mkExtraTypeInfo a b i s, c4))%res.

(** [ColumnGroupRecordReader.read] uses [self._cluster_summary_format],
    an attribute that no code sets: reading a column group record raises
    [AttributeError]. *)
Definition ColumnGroupRecordReader : Reader ClusterSummary :=
  fun _ _ => Raise AttributeError.

Definition ClusterSummaryReader : Reader ClusterSummary := fun chunk cursor =>
  (let! (a, c1) := field_u64 chunk cursor in
   let! (b, c2) := field_u64 chunk c1 in
   Ok (mkClusterSummary a b, c2))%res.

Definition ClusterGroupRecordReader : Reader ClusterGroupRecord :=
  fun chunk cursor =>
    (let! (n, c1) := field_u32 chunk cursor in
     let! (l, c2) := EnvLinkReader chunk c1 in
     Ok (mkClusterGroupRecord n l, c2))%res.

(** [HeaderReader.read] *)
Definition HeaderReader : Reader Header := fun chunk cursor =>
  (let! (env, c1) := _envelop_header chunk cursor in
   let! (flag, c2) := field_u64 chunk c1 in
   let! (tag, c3) := field_u32 chunk c2 in
   let! (name, c4) := rntuple_string chunk c3 in
   let! (desc, c5) := rntuple_string chunk c4 in
   let! (writer, c6) := rntuple_string chunk c5 in
   let! (frs, c7) := ListFrameReader (RecordFrameReader FieldRecordReader) chunk c6 in
   let! (crs, c8) := ListFrameReader (RecordFrameReader ColumnRecordReader) chunk c7 in
   let! (acs, c9) := ListFrameReader (RecordFrameReader AliasColumnReader) chunk c8 in
   let! (etis, c10) := ListFrameReader (RecordFrameReader ExtraTypeInfoReader) chunk c9 in
   let! (crc, c11) := field_u32 chunk c10 in
   Ok (mkHeader env flag tag name desc writer frs crs acs etis crc, c11))%res.

(** [RNTupleSchemaExtension.read] *)
Definition RNTupleSchemaExtension : Reader SchemaExtension := fun chunk cursor =>
  (let! (sz, c1) := field_u32 chunk cursor in
   let! (frs, c2) := ListFrameReader (RecordFrameReader FieldRecordReader) chunk c1 in
   let! (crs, c3) := ListFrameReader (RecordFrameReader ColumnRecordReader) chunk c2 in
   let! (acs, c4) := ListFrameReader (RecordFrameReader AliasColumnReader) chunk c3 in
   let! (etis, c5) := ListFrameReader (RecordFrameReader ExtraTypeInfoReader) chunk c4 in
   Ok (mkSchemaExtension sz frs crs acs etis, c5))%res.

(** [FooterReader.read] *)
Definition FooterReader : Reader Footer := fun chunk cursor =>
  (let! (env, c1) := _envelop_header chunk cursor in
   let! (flag, c2) := field_u64 chunk c1 in
   let! (hcrc, c3) := field_u32 chunk c2 in
   let! (ext, c4) := RNTupleSchemaExtension chunk c3 in
   let! (cgs, c5) := ListFrameReader (RecordFrameReader ColumnGroupRecordReader) chunk c4 in
   let! (css, c6) := ListFrameReader (RecordFrameReader ClusterSummaryReader) chunk c5 in
   let! (cgrs, c7) := ListFrameReader (RecordFrameReader ClusterGroupRecordReader) chunk c6 in
   let! (mbl, c8) := ListFrameReader EnvLinkReader chunk c7 in
   let! (crc, c9) := field_u32 chunk c8 in
   Ok (mkFooter env flag hcrc ext cgs css cgrs mbl crc, c9))%res.

(** [PageLink.read] *)
Definition PageLink : Reader PageLinkData := fun chunk cursor =>
  (let! (env, c1) := _envelop_header chunk cursor in
   let local_cursor := c1 in
   let! (hdr, c2) := _rntuple_frame_header chunk c1 in
   let '(num_bytes, num_items) := hdr in
   if num_items =? 0 then Ok (mkPageLinkData env None None, c2)
   else
     let! (pll, _) :=
       ListFrameReader (ListFrameReader PageLinkInner) chunk local_cursor in
     let c3 := c2 + (- num_bytes - 8) in
     let! (crc, c4) := field_u32 chunk c3 in
     if crc32 (drop_last4 (raw_data chunk)) =? crc
     then Ok (mkPageLinkData env (Some pll) (Some crc), c4)
     else Raise AssertionError)%res.

(** ** The model object

    [Model_ROOT_3a3a_Experimental_3a3a_RNTuple] after [read_members]: the
    anchor, the file it reads from, and the lazily filled caches. *)

Record Members : Type := mkMembers {
  fSeekHeader : Z;
  fNBytesHeader : Z;
  fLenHeader : Z;
  fSeekFooter : Z;
  fNBytesFooter : Z;
  fLenFooter : Z
}.

(** The value of [self._page_list_envelopes]: the empty list set by
    [read_members], or the result of a [PageLink().read]. *)
Inductive PageListCache : Type :=
  | EmptyList
  | Envelope (p : PageLinkData).

Record Model : Type := mkModel {
  _members : Members;
  file_data : list Byte.byte;
  _header_chunk_ready : bool;
  _header_chunk : option Chunk;
  _header_cursor : option Z;
  _footer_chunk_ready : bool;
  _footer_chunk : option Chunk;
  _footer_cursor : option Z;
  _header : option Header;
  _footer : option Footer;
  _page_list_envelopes : PageListCache
}.

(** State and error monad of the methods of an object with attributes
    [S]: the state is kept when an exception is raised. *)
Definition StateM (S A : Type) : Type := S -> result A * S.

Definition ret {S A} (a : A) : StateM S A := fun s => (Ok a, s).
Definition raise {S A} (e : exn) : StateM S A := fun s => (Raise e, s).
Definition mbind' {S A B} (m : StateM S A) (k : A -> StateM S B) : StateM S B :=
  fun s =>
    match m s with
    | (Ok a, s') => k a s'
    | (Raise e, s') => (Raise e, s')
    end.
Definition lift {S A} (r : result A) : StateM S A := fun s => (r, s).
Definition get_self {S} : StateM S S := fun s => (Ok s, s).
Definition put_self {S} (s : S) : StateM S unit := fun _ => (Ok tt, s).
Definition attr {S A} (o : option A) : StateM S A :=
  match o with
  | Some a => ret a
  | None => raise AttributeError
  end.

(** The methods of the RNTuple model object. *)
Definition M (A : Type) : Type := StateM Model A.

Declare Scope M_scope.
Delimit Scope M_scope with M.
Notation "'let!' p ':=' c 'in' k" := (mbind' c (fun p => k))
  (at level 10, p pattern, c at level 200, k at level 200, only parsing)
  : M_scope.

Definition set_header_chunk (ch : Chunk) (cur : Z) (s : Model) : Model :=
  mkModel (_members s) (file_data s) true (Some ch) (Some cur)
    (_footer_chunk_ready s) (_footer_chunk s) (_footer_cursor s)
    (_header s) (_footer s) (_page_list_envelopes s).

Definition set_footer_chunk (ch : Chunk) (cur : Z) (s : Model) : Model :=
  mkModel (_members s) (file_data s)
    (_header_chunk_ready s) (_header_chunk s) (_header_cursor s)
    true (Some ch) (Some cur)
    (_header s) (_footer s) (_page_list_envelopes s).

Definition set_header (h : Header) (s : Model) : Model :=
  mkModel (_members s) (file_data s)
    (_header_chunk_ready s) (_header_chunk s) (_header_cursor s)
    (_footer_chunk_ready s) (_footer_chunk s) (_footer_cursor s)
    (Some h) (_footer s) (_page_list_envelopes s).

Definition set_footer (f : Footer) (s : Model) : Model :=
  mkModel (_members s) (file_data s)
    (_header_chunk_ready s) (_header_chunk s) (_header_cursor s)
    (_footer_chunk_ready s) (_footer_chunk s) (_footer_cursor s)
    (_header s) (Some f) (_page_list_envelopes s).

Definition set_page_list_envelopes (p : PageLinkData) (s : Model) : Model :=
  mkModel (_members s) (file_data s)
    (_header_chunk_ready s) (_header_chunk s) (_header_cursor s)
    (_footer_chunk_ready s) (_footer_chunk s) (_footer_cursor s)
    (_header s) (_footer s) (Envelope p).

(** Modelled from the spec: [self.file.source.chunk(start, stop)] belongs
    to the byte-range source, which returns an immutable byte slice. *)
Definition source_chunk (data : list Byte.byte) (start stop : Z) : Chunk :=
  mkChunk start (slice data start stop).

Section RNTuple.
Context {U : Uproot}.
Local Open Scope M_scope.

(** [_prepare_header_chunk] *)
Definition _prepare_header_chunk : M unit :=
  let! s := get_self in
  let seek := fSeekHeader (_members s) in
  let nbytes := fNBytesHeader (_members s) in
  let compressed_header_chunk := source_chunk (file_data s) seek (seek + nbytes) in
  if fNBytesHeader (_members s) =? fLenHeader (_members s) then
    put_self (set_header_chunk compressed_header_chunk seek s)
  else
    let! ch := lift (decompress compressed_header_chunk seek
                       (fNBytesHeader (_members s)) (fLenHeader (_members s))) in
    put_self (set_header_chunk ch 0 s).

(** [_prepare_footer_chunk] *)
Definition _prepare_footer_chunk : M unit :=
  let! s := get_self in
  let seek := fSeekFooter (_members s) in
  let nbytes := fNBytesFooter (_members s) in
  let compressed_footer_chunk := source_chunk (file_data s) seek (seek + nbytes) in
  if fNBytesFooter (_members s) =? fLenFooter (_members s) then
    put_self (set_footer_chunk compressed_footer_chunk seek s)
  else
    let! ch := lift (decompress compressed_footer_chunk seek
                       (fNBytesFooter (_members s)) (fLenFooter (_members s))) in
    put_self (set_footer_chunk ch 0 s).

(** The [header] property.  The decoded header is stored in
    [self._header] before its checksum is asserted. *)
Definition header : M Header :=
  let! s := get_self in
  match _header s with
  | Some h => ret h
  | None =>
      let! _ := (if _header_chunk_ready s then ret tt else _prepare_header_chunk) in
      let! s1 := get_self in
      let! cursor := attr (_header_cursor s1) in
      let! chunk := attr (_header_chunk s1) in
      let! (h, _) := lift (HeaderReader chunk cursor) in
      let! _ := put_self (set_header h s1) in
      if h_crc32 h =? crc32 (drop_last4 (raw_data chunk))
      then ret h
      else raise AssertionError
  end.

(** The [column_records] property. *)
Definition column_records : M (list ColumnRecord) :=
  let! h := header in ret (h_column_records h).

(** The [footer] property. *)
Definition footer : M Footer :=
  let! s := get_self in
  match _footer s with
  | Some f => ret f
  | None =>
      let! _ := (if _footer_chunk_ready s then ret tt else _prepare_footer_chunk) in
      let! s1 := get_self in
      let! cursor := attr (_footer_cursor s1) in
      let! chunk := attr (_footer_chunk s1) in
      let! (f, _) := lift (FooterReader chunk cursor) in
      let! h := header in
      if header_crc32 f =? h_crc32 h then
        if f_crc32 f =? crc32 (drop_last4 (raw_data chunk)) then
          let! s2 := get_self in
          let! _ := put_self (set_footer f s2) in
          ret f
        else raise AssertionError
      else raise AssertionError
  end.

(** [read_locator] *)
Definition read_locator (loc : Locator) (uncomp_size : Z) : M (Chunk * Z) :=
  let! s := get_self in
  let cursor := loc_offset loc in
  let chunk := source_chunk (file_data s) (loc_offset loc)
                 (loc_offset loc + loc_num_bytes loc) in
  if loc_num_bytes loc <? uncomp_size then
    let! decomp_chunk :=
      lift (decompress chunk cursor (loc_num_bytes loc) uncomp_size) in
    ret (decomp_chunk, 0)
  else ret (chunk, cursor).

(** The loop of [page_list_envelopes]: every iteration assigns
    [self._page_list_envelopes]. *)
Fixpoint page_list_loop (records : list ClusterGroupRecord) : M unit :=
  match records with
  | [] => ret tt
  | record :: rest =>
      let link := page_list_link record in
      let loc := link_locator link in
      let! (decomp_chunk, cursor) := read_locator loc (env_uncomp_size link) in
      let! (p, _) := lift (PageLink decomp_chunk cursor) in
      let! s := get_self in
      let! _ := put_self (set_page_list_envelopes p s) in
      page_list_loop rest
  end.

(** The [page_list_envelopes] property.  The guard
    [not self._page_list_envelopes] holds for the empty list only: a
    [MetaData] object is true. *)
Definition page_list_envelopes : M PageListCache :=
  let! s := get_self in
  let! _ :=
    (match _page_list_envelopes s with
     | EmptyList =>
         let! f := footer in
         page_list_loop (cluster_group_records f)
     | Envelope _ => ret tt
     end) in
  let! s' := get_self in
  ret (_page_list_envelopes s').

End RNTuple.

(** ** The page decoder *)

#[global] Instance np_dtype_eq_dec : EqDecision np_dtype.
Proof. solve_decision. Defined.

Definition bits_of (d : np_dtype) : Z := 8 * itemsize d.

(** The value of one element from its little-endian bytes. *)
Definition decode_elem (d : np_dtype) (bs : list Byte.byte) : Z :=
  match kind_of d with
  | KSigned => wrap_signed (bits_of d) (le_decode bs)
  | _ => le_decode bs
  end.

(** [n] consecutive groups of [k] bytes. *)
Fixpoint groups (k n : nat) (bs : list Byte.byte) : list (list Byte.byte) :=
  match n with
  | O => []
  | S n' => firstn k bs :: groups k n' (skipn k bs)
  end.

(** [bytes.view(dtype)] *)
Definition view (d : np_dtype) (bs : list Byte.byte) : list Z :=
  let k := Z.to_nat (itemsize d) in
  map (decode_elem d) (groups k (length bs / k)%nat bs).

(** The three branches of the un-splitting code, for lane count [w]:
    [res[j::w] = content[len(res) * j // w : len(res) * (j + 1) // w]],
    so that byte [j] of element [i] is byte [i] of lane [j]. *)
Definition unsplit (w : nat) (content : list Byte.byte) : list Byte.byte :=
  let n := (length content / w)%nat in
  flat_map
    (fun i => map (fun j => nth (n * j + i)%nat content Byte.x00) (seq 0 w))
    (seq 0 n).

(** [numpy.unpackbits(bytes).reshape(-1, 8)[:, ::-1].reshape(-1)]: the
    bits of every byte, least significant first. *)
Definition unpackbits_lsb (bs : list Byte.byte) : list Z :=
  flat_map
    (fun b => map (fun i => Z.land (Z.shiftr (Z_of_byte b) (Z.of_nat i)) 1)
                  (seq 0 8))
    bs.

Definition uint_of_nbits (nbits : Z) : option np_dtype :=
  if nbits =? 16 then Some uint16
  else if nbits =? 32 then Some uint32
  else if nbits =? 64 then Some uint64
  else None.

Section PageDecoder.
Context {U : Uproot}.

(** The conversion done by the assignment [destination[:] = content]. *)
Definition cast (src dst : np_dtype) (v : Z) : Z :=
  if decide (src = dst) then v
  else match kind_of dst with
       | KUnsigned => wrap_unsigned (bits_of dst) v
       | KSigned => wrap_signed (bits_of dst) v
       | KFloat => float_of_int dst v
       | KBool => if v =? 0 then 0 else 1
       end.

(** [destination[:] = content[:num_elements]] for a destination of
    [num_elements] elements: equal lengths, or one element broadcast. *)
Definition assign_into (num_elements : Z) (src dst : np_dtype) (content : list Z)
  : result (list Z) :=
  let taken := firstn (Z.to_nat num_elements) content in
  if Z.of_nat (length taken) =? num_elements then Ok (map (cast src dst) taken)
  else match taken with
       | [x] => Ok (repeat (cast src dst x) (Z.to_nat num_elements))
       | _ => Raise ValueError
       end.

Local Open Scope M_scope.

(** [read_pagedesc(destination, desc, dtype_str, dtype, nbits, split)];
    [num_elements] is [len(destination)], the result is what the call
    leaves in [destination].  With [split] and a width other than 16, 32
    or 64 the name [res] is not bound; lanes that do not divide the bytes
    of the page evenly make the slice assignments fail. *)
Definition read_pagedesc (num_elements : Z) (desc : PageDescription)
    (dtype_s : dtype_str) (dtype : np_dtype) (nbits : Z) (split : bool)
  : M (list Z) :=
  let loc := pd_locator desc in
  let isbit := match dtype_s with bit => true | np _ => false end in
  let len_divider := if isbit then 8 else 1 in
  let num_elements_toread := (num_elements + len_divider - 1) / len_divider in
  let uncomp_size := num_elements_toread * itemsize dtype in
  let! (decomp_chunk, cursor) := read_locator loc uncomp_size in
  let! raw := lift (chunk_get decomp_chunk cursor (cursor + uncomp_size)) in
  let! (bytes, content_dtype) :=
    (if split then
       match uint_of_nbits nbits with
       | Some u =>
           let w := Z.to_nat (itemsize u) in
           if (length raw mod w =? 0)%nat
           then ret (unsplit w raw, u)
           else raise ValueError
       | None => raise UnboundLocalError
       end
     else ret (raw, dtype)) in
  if isbit then
    lift (assign_into num_elements uint8 dtype (unpackbits_lsb bytes))
  else
    lift (assign_into num_elements content_dtype dtype (view content_dtype bytes)).

(** The loop over [pagelist] in [read_col_page]: page after page fills
    [res[tracker:tracker_end]]. *)
Fixpoint read_pages (pagelist : list PageDescription)
    (dtype_s : dtype_str) (dtype : np_dtype) (nbits : Z) (split : bool)
  : M (list Z) :=
  match pagelist with
  | [] => ret []
  | page_desc :: rest =>
      let n_elements := num_elements page_desc in
      let! filled := read_pagedesc n_elements page_desc dtype_s dtype nbits split in
      let! more := read_pages rest dtype_s dtype nbits split in
      ret (filled ++ more)
  end.

(** [from_zigzag(res)] on an array: element by element, in the arithmetic
    of the array's dtype. *)
Definition np_from_zigzag (res : ndarray) : result ndarray :=
  match kind_of (nd_dtype res) with
  | KSigned =>
      Ok (mkArray (nd_dtype res)
            (map (fun n => wrap_signed (bits_of (nd_dtype res)) (from_zigzag n))
                 (nd_data res)))
  | KUnsigned =>
      Ok (mkArray (nd_dtype res)
            (map (fun n => wrap_unsigned (bits_of (nd_dtype res)) (from_zigzag n))
                 (nd_data res)))
  | KBool => Ok (mkArray int64 (map from_zigzag (nd_data res)))
  | KFloat => Raise TypeError
  end.

(** [numpy.cumsum(res)]: the running sums, as a new array. *)
Fixpoint running_sum (acc : Z) (l : list Z) : list Z :=
  match l with
  | [] => []
  | x :: l' => (acc + x) :: running_sum (acc + x) l'
  end.

Definition np_cumsum (res : ndarray) : ndarray :=
  mkArray (nd_dtype res)
    (map (match kind_of (nd_dtype res) with
          | KSigned => wrap_signed 64
          | KUnsigned => wrap_unsigned 64
          | _ => fun z => z
          end)
         (running_sum 0 (nd_data res))).

Definition pagelinklist_of (c : PageListCache)
  : result (list (list (list PageDescription))) :=
  match c with
  | EmptyList => Raise AttributeError
  | Envelope p =>
      match pagelinklist p with
      | Some l => Ok l
      | None => Raise KeyError
      end
  end.

Definition lookup_table {A} (t : Z -> option A) (k : Z) : result A :=
  match t k with
  | Some a => Ok a
  | None => Raise KeyError
  end.

(** [read_col_page(ncol, cluster_i)] *)
Definition read_col_page (ncol cluster_i : Z) : M ndarray :=
  let! ple := page_list_envelopes in
  let! pll := lift (pagelinklist_of ple) in
  let! linklist := lift (py_index pll cluster_i) in
  let! pagelist := lift (py_index linklist ncol) in
  let! crs := column_records in
  let! cr := lift (py_index crs ncol) in
  let dtype_byte := cr_type cr in
  let! dtype_s := lift (lookup_table rntuple_col_num_to_dtype_dict dtype_byte) in
  let dtype := match dtype_s with bit => bool_ | np d => d end in
  match pagelist with
  | [] => ret (mkArray dtype [])
  | _ =>
      let split := ((14 <=? dtype_byte) && (dtype_byte <=? 21))
                   || ((26 <=? dtype_byte) && (dtype_byte <=? 28)) in
      let! nbits := lift (lookup_table rntuple_col_num_to_size_dict dtype_byte) in
      let! filled := read_pages pagelist dtype_s dtype nbits split in
      let res := mkArray dtype filled in
      let res :=
        if dtype_byte <=? index32
        then mkArray dtype (0 :: nd_data res)
        else res in
      let zigzag := (26 <=? dtype_byte) && (dtype_byte <=? 28) in
      let delta := (14 <=? dtype_byte) && (dtype_byte <=? 15) in
      if zigzag then lift (np_from_zigzag res)
      else if delta then
        let _ := np_cumsum res in
        ret res
      else ret res
  end.

End PageDecoder.

(** * The TTree writer ([uproot/writing/_cascadetree.py]) *)

Module cascadetree.

Local Open Scope Z_scope.

(** ** Branch data *)

Inductive branch_kind : Type := kind_normal | kind_counter.

(** A number given as [resize_factor]: an [int], or a [float], which is
    a binary64 of IEEE 754 ([spec_float] at precision 53 and maximal
    exponent 1024). *)
Inductive py_number : Type :=
  | PyInt (z : Z)
  | PyFloat (x : spec_float).

(** A dict made by [_branch_np].  [counter] is the counter branch of a
    jagged branch, kept by its name. *)
Record Branch : Type := mkBranch {
  fName : string;
  kind : branch_kind;
  counter : option string;
  dtype : np_dtype;
  shape : list Z;
  fEntryOffsetLen : Z;
  fTotBytes : Z;
  fZipBytes : Z;
  fBasketBytes : list Z;
  fBasketEntry : list Z;
  fBasketSeek : list Z;
  tleaf_maximum_value : Z
}.

(** An element of [self._branch_data]: a dict of kind ["record"], which
    has the keys [kind], [name] and [keys] only, or a branch. *)
Inductive datum : Type :=
  | record_datum (name : string) (keys : list string)
  | branch_datum (b : Branch).

(** ** Arrays given to [extend] *)

(** [Flat row_shape rows]: an array NumPy converts, one list of values per
    entry.  [Jagged offsets item_shape content]: an Awkward list-offset
    array over regular content.  [RecordArray fields]: a mapping from
    field names to arrays, for a record branch. *)
Inductive branch_array : Type :=
  | Flat (row_shape : list Z) (rows : list (list Z))
  | Jagged (offsets : list Z) (item_shape : list Z) (content : list (list Z))
  | RecordArray (fields : list (string * branch_array)).

(** A big-endian NumPy array handed to the basket writers. *)
Record be_array : Type := mkBeArray {
  ba_dtype : np_dtype;
  ba_shape : list Z;
  ba_values : list Z
}.

(** ** Collaborators *)

(** What reaches the sink and the other collaborators, in order.  The
    bytes of the tree record ([write_anew]) and of the metadata patches
    ([write_updates]) are not modelled. *)
Inductive event : Type :=
  | SinkWrite (location : Z) (data : list Byte.byte)
  | SetFileLength (n : Z)
  | Flush
  | TreeRecordAnew
  | MoveTree
  | Release
  | TreeUpdates.

(** The struct formats, the string serialization, the free-space
    collaborator and the clock are defined outside the module. *)
Class Writing : Type := {
  (** [uproot.reading._key_format_big]: [pack] of fNbytes, fVersion,
      fObjlen, fDatime, fKeylen, fCycle, fSeekKey, fSeekPdir, and [size] *)
  key_format_big_pack : Z -> Z -> Z -> Z -> Z -> Z -> Z -> Z -> list Byte.byte;
  key_format_big_size : Z;
  (** [uproot.models.TBasket._tbasket_format2]: [pack] of fVersion,
      fBufferSize, fNevBufSize, fNevBuf, fLast, and [size] *)
  tbasket_format2_pack : Z -> Z -> Z -> Z -> Z -> list Byte.byte;
  tbasket_format2_size : Z;
  (** [uproot.serialization.string] *)
  serialization_string : string -> list Byte.byte;
  (** [uproot._util.datetime_to_code(datetime.datetime.now())] *)
  datime_now : Z;
  (** [self._freesegments] *)
  FreeSegments : Type;
  allocate : FreeSegments -> Z -> Z * FreeSegments;
  fileheader_end : FreeSegments -> Z;
  (** the effect on the free segments of rewriting the tree record and
      releasing its old region *)
  relocate : FreeSegments -> FreeSegments
}.

Section Writer.
Context {W : Writing}.

(** ** The tree *)

Record Tree : Type := mkTree {
  _name : string;
  _counter_name : string -> string;
  _field_name : string -> string -> string;
  _branch_data : list datum;
  _branch_lookup : list (string * nat);
  _basket_capacity : Z;
  _resize_factor : py_number;
  _num_entries : Z;
  _num_baskets : Z;
  metadata_fTotBytes : Z;
  metadata_fZipBytes : Z;
  directory_key_location : Z;
  _freesegments : FreeSegments;
  sink : list event
}.

Definition T (A : Type) : Type := StateM Tree A.

Definition set_capacity (c : Z) (t : Tree) : Tree :=
  mkTree (_name t) (_counter_name t) (_field_name t) (_branch_data t)
    (_branch_lookup t) c (_resize_factor t) (_num_entries t) (_num_baskets t)
    (metadata_fTotBytes t) (metadata_fZipBytes t) (directory_key_location t)
    (_freesegments t) (sink t).

Definition set_branch_data (d : list datum) (t : Tree) : Tree :=
  mkTree (_name t) (_counter_name t) (_field_name t) d
    (_branch_lookup t) (_basket_capacity t) (_resize_factor t)
    (_num_entries t) (_num_baskets t)
    (metadata_fTotBytes t) (metadata_fZipBytes t) (directory_key_location t)
    (_freesegments t) (sink t).

Definition set_freesegments (f : FreeSegments) (t : Tree) : Tree :=
  mkTree (_name t) (_counter_name t) (_field_name t) (_branch_data t)
    (_branch_lookup t) (_basket_capacity t) (_resize_factor t)
    (_num_entries t) (_num_baskets t)
    (metadata_fTotBytes t) (metadata_fZipBytes t) (directory_key_location t)
    f (sink t).

Definition emit (e : event) (t : Tree) : Tree :=
  mkTree (_name t) (_counter_name t) (_field_name t) (_branch_data t)
    (_branch_lookup t) (_basket_capacity t) (_resize_factor t)
    (_num_entries t) (_num_baskets t)
    (metadata_fTotBytes t) (metadata_fZipBytes t) (directory_key_location t)
    (_freesegments t) (sink t ++ [e]).

Definition set_counters (ne nb tot zip : Z) (t : Tree) : Tree :=
  mkTree (_name t) (_counter_name t) (_field_name t) (_branch_data t)
    (_branch_lookup t) (_basket_capacity t) (_resize_factor t) ne nb
    tot zip (directory_key_location t) (_freesegments t) (sink t).

Definition modify (f : Tree -> Tree) : T unit := fun t => (Ok tt, f t).

Definition set_tables (bytes entry seek : list Z) (b : Branch) : Branch :=
  mkBranch (fName b) (kind b) (counter b) (dtype b) (shape b)
    (fEntryOffsetLen b) (fTotBytes b) (fZipBytes b) bytes entry seek
    (tleaf_maximum_value b).

Definition set_maximum (m : Z) (b : Branch) : Branch :=
  mkBranch (fName b) (kind b) (counter b) (dtype b) (shape b)
    (fEntryOffsetLen b) (fTotBytes b) (fZipBytes b)
    (fBasketBytes b) (fBasketEntry b) (fBasketSeek b) m.

Definition set_fEntryOffsetLen (n : Z) (b : Branch) : Branch :=
  mkBranch (fName b) (kind b) (counter b) (dtype b) (shape b)
    n (fTotBytes b) (fZipBytes b)
    (fBasketBytes b) (fBasketEntry b) (fBasketSeek b) (tleaf_maximum_value b).

Definition add_bytes (tot zip : Z) (b : Branch) : Branch :=
  mkBranch (fName b) (kind b) (counter b) (dtype b) (shape b)
    (fEntryOffsetLen b) (fTotBytes b + tot) (fZipBytes b + zip)
    (fBasketBytes b) (fBasketEntry b) (fBasketSeek b) (tleaf_maximum_value b).

(** ** Growing the basket tables *)

(** The conversion of an [int] to a [float] for a product with a
    [float]: to the nearest binary64, and [OverflowError] when that is
    not finite. *)
Definition int_to_float (z : Z) : result spec_float :=
  match binary_normalize 53 1024 z 0 false with
  | S754_infinity _ => Raise OverflowError
  | f => Ok f
  end.

(** [math.ceil(x)] for a [float]: the least [int] not below [x]; an
    infinity raises [OverflowError] and a NaN [ValueError]. *)
Definition math_ceil (x : spec_float) : result Z :=
  match x with
  | S754_zero _ => Ok 0
  | S754_infinity _ => Raise OverflowError
  | S754_nan => Raise ValueError
  | S754_finite s m e =>
      let n := if s then Z.neg m else Z.pos m in
      Ok (if 0 <=? e then n * 2 ^ e else - ((- n) / 2 ^ (- e)))
  end.

(** [int(math.ceil(capacity * resize_factor))]: the product with an
    [int] is exact, the product with a [float] is the binary64 product
    of the capacity as a [float]. *)
Definition ceil_product (capacity : Z) (resize_factor : py_number) : result Z :=
  match resize_factor with
  | PyInt r => Ok (capacity * r)
  | PyFloat r =>
      (let! c := int_to_float capacity in
       math_ceil (SFmul 53 1024 c r))%res
  end.

(** [max(capacity + 1, int(math.ceil(capacity * resize_factor)))] *)
Definition grown_capacity (capacity : Z) (resize_factor : py_number)
  : result Z :=
  (let! n := ceil_product capacity resize_factor in
   Ok (Z.max (capacity + 1) n))%res.

(** [numpy.zeros(n, ...)] *)
Definition zeros (n : Z) : list Z := repeat 0 (Z.to_nat n).

(** [new[: len(old)] = old] *)
Definition copy_prefix (new old : list Z) : result (list Z) :=
  if (length old <=? length new)%nat
  then Ok (old ++ skipn (length old) new)
  else Raise ValueError.

(** [a[i] = x] on a NumPy array, for [0 <= i]. *)
Definition np_set (a : list Z) (i : Z) (x : Z) : result (list Z) :=
  if (0 <=? i) && (i <? Z.of_nat (length a))
  then Ok (<[Z.to_nat i := x]> a)
  else Raise IndexError.

Definition np_get (a : list Z) (i : Z) : result Z :=
  if (0 <=? i) && (i <? Z.of_nat (length a))
  then match a !! Z.to_nat i with Some x => Ok x | None => Raise IndexError end
  else Raise IndexError.

(** The body of the loop [for datum in self._branch_data] of the capacity
    growth: the dict as the body leaves it, and the exception if one is
    raised.  A dict of kind ["record"] has no key ["fBasketBytes"]. *)
Definition resize_datum (capacity num_entries : Z) (d : datum)
  : datum * option exn :=
  match d with
  | record_datum _ _ => (d, Some KeyError)
  | branch_datum b =>
      let z := zeros capacity in
      match copy_prefix z (fBasketBytes b) with
      | Raise e => (branch_datum (set_tables z z z b), Some e)
      | Ok bytes =>
          match copy_prefix z (fBasketEntry b) with
          | Raise e => (branch_datum (set_tables bytes z z b), Some e)
          | Ok entry =>
              match copy_prefix z (fBasketSeek b) with
              | Raise e => (branch_datum (set_tables bytes entry z b), Some e)
              | Ok seek =>
                  match np_set entry (Z.of_nat (length (fBasketEntry b)))
                               num_entries with
                  | Raise e =>
                      (branch_datum (set_tables bytes entry seek b), Some e)
                  | Ok entry' =>
                      (branch_datum (set_tables bytes entry' seek b), None)
                  end
              end
          end
      end
  end.

Fixpoint resize_all (capacity num_entries : Z) (data : list datum)
  : list datum * option exn :=
  match data with
  | [] => ([], None)
  | d :: rest =>
      match resize_datum capacity num_entries d with
      | (d', Some e) => (d' :: rest, Some e)
      | (d', None) =>
          let '(rest', e) := resize_all capacity num_entries rest in
          (d' :: rest', e)
      end
  end.

Local Open Scope M_scope.

(** The first statement of [extend]: the capacity check and the growth. *)
Definition expand_capacity : T unit :=
  let! t := get_self in
  if _num_baskets t >=? _basket_capacity t - 1 then
    let! capacity :=
      lift (grown_capacity (_basket_capacity t) (_resize_factor t)) in
    let! _ := modify (set_capacity capacity) in
    let '(data, e) := resize_all capacity (_num_entries t) (_branch_data t) in
    let! _ := modify (set_branch_data data) in
    match e with
    | Some e => raise e
    | None =>
        let! _ := modify (emit TreeRecordAnew) in
        let! _ := modify (emit MoveTree) in
        let! _ := modify (fun t => set_freesegments (relocate (_freesegments t)) t) in
        let! _ := modify (emit Release) in
        let! t' := get_self in
        let! _ := modify (emit (SetFileLength (fileheader_end (_freesegments t')))) in
        modify (emit Flush)
    end
  else ret tt.

(** ** Dictionaries in insertion order *)

Fixpoint dict_set {V} (k : string) (v : V) (d : list (string * V))
  : list (string * V) :=
  match d with
  | [] => [(k, v)]
  | (k', v') :: rest =>
      if String.eqb k k' then (k, v) :: rest else (k', v') :: dict_set k v rest
  end.

Fixpoint dict_get {V} (k : string) (d : list (string * V)) : option V :=
  match d with
  | [] => None
  | (k', v') :: rest => if String.eqb k k' then Some v' else dict_get k rest
  end.

Fixpoint dict_pop {V} (k : string) (d : list (string * V))
  : option (V * list (string * V)) :=
  match d with
  | [] => None
  | (k', v') :: rest =>
      if String.eqb k k' then Some (v', rest)
      else match dict_pop k rest with
           | Some (v, rest') => Some (v, (k', v') :: rest')
           | None => None
           end
  end.

(** ** Normalizing the input of [extend] *)

(** [len(branch_array)] *)
Definition py_len (a : branch_array) : Z :=
  match a with
  | Flat _ rows => Z.of_nat (length rows)
  | Jagged offsets _ _ => Z.of_nat (length offsets) - 1
  | RecordArray fields => Z.of_nat (length fields)
  end.

Fixpoint diffs (offsets : list Z) : list Z :=
  match offsets with
  | a :: (b :: _) as rest => (b - a) :: diffs rest
  | _ => []
  end.

(** [awkward.num(v, axis=1)] *)
Definition awkward_num (offsets : list Z) : branch_array :=
  Flat [] (map (fun c => [c]) (diffs offsets)).

(** The loop [for k, v in data.items()] that fills [provided]; a jagged
    array also provides its counter. *)
Fixpoint normalize (counter_name : string -> string)
    (data provided : list (string * branch_array))
  : list (string * branch_array) :=
  match data with
  | [] => provided
  | (k, v) :: rest =>
      let provided :=
        match v with
        | Jagged offsets _ _ => dict_set (counter_name k) (awkward_num offsets) provided
        | _ => provided
        end in
      normalize counter_name rest (dict_set k v provided)
  end.

(** [recordarray[key]] *)
Definition record_field (recordarray : branch_array) (key : string)
  : result branch_array :=
  match recordarray with
  | RecordArray fields =>
      match dict_get key fields with
      | Some v => Ok v
      | None => Raise KeyError
      end
  | Flat _ _ => Raise IndexError
  | Jagged _ _ _ => Raise ValueError
  end.

Fixpoint spread_record (field_name : string -> string -> string) (name : string)
    (recordarray : branch_array) (keys : list string)
    (provided : list (string * branch_array))
  : result (list (string * branch_array)) :=
  match keys with
  | [] => Ok provided
  | key :: rest =>
      (let! v := record_field recordarray key in
       spread_record field_name name recordarray rest
         (dict_set (field_name name key) v provided))%res
  end.

Fixpoint rename_fields (field_name : string -> string -> string) (name : string)
    (keys : list string) (provided : list (string * branch_array))
  : result (list (string * branch_array)) :=
  match keys with
  | [] => Ok provided
  | key :: rest =>
      match dict_pop key provided with
      | Some (v, provided') =>
          rename_fields field_name name rest
            (dict_set (field_name name key) v provided')
      | None => Raise KeyError
      end
  end.

(** The loop [for datum in self._branch_data] that fills
    [actual_branches] from [provided]. *)
Fixpoint collect_branches (field_name : string -> string -> string)
    (data : list datum) (provided actual : list (string * branch_array))
  : result (list (string * branch_array) * list (string * branch_array)) :=
  match data with
  | [] => Ok (provided, actual)
  | record_datum name keys :: rest =>
      match dict_pop name provided with
      | Some (recordarray, provided') =>
          (let! provided'' :=
             spread_record field_name name recordarray keys provided' in
           collect_branches field_name rest provided'' actual)%res
      | None =>
          if String.eqb name EmptyString then
            (let! provided' := rename_fields field_name name keys provided in
             collect_branches field_name rest provided' actual)%res
          else Raise ValueError
      end
  | branch_datum b :: rest =>
      match dict_pop (fName b) provided with
      | Some (v, provided') =>
          collect_branches field_name rest provided' (dict_set (fName b) v actual)
      | None => Raise ValueError
      end
  end.

(** ** Encoding one branch *)

(** [self._branch_data[self._branch_lookup[branch_name]]] *)
Definition find_datum (branch_name : string) : T (nat * datum) :=
  let! t := get_self in
  match dict_get branch_name (_branch_lookup t) with
  | None => raise KeyError
  | Some i =>
      match _branch_data t !! i with
      | Some d => ret (i, d)
      | None => raise IndexError
      end
  end.

(** An assignment to a key of the dict [self._branch_data[i]]. *)
Definition update_branch (i : nat) (f : Branch -> Branch) : T unit :=
  modify (fun t =>
    match _branch_data t !! i with
    | Some (branch_datum b) =>
        set_branch_data (<[i := branch_datum (f b)]> (_branch_data t)) t
    | _ => t
    end).

(** [big_endian.max()] *)
Definition np_max (l : list Z) : result Z :=
  match l with
  | [] => Raise ValueError
  | x :: l' => Ok (fold_left Z.max l' x)
  end.

(** The branch of the loop body for [datum["counter"] is None]. *)
Definition encode_flat (i : nat) (b : Branch) (branch_array : branch_array)
  : T be_array :=
  match branch_array with
  | Flat row_shape rows =>
      if decide (row_shape = shape b) then
        let big_endian :=
          mkBeArray (dtype b) (Z.of_nat (length rows) :: row_shape) (concat rows) in
        match kind b with
        | kind_counter =>
            let! m := lift (np_max (ba_values big_endian)) in
            let! _ := update_branch i
                        (set_maximum (Z.max m (tleaf_maximum_value b))) in
            ret big_endian
        | kind_normal => ret big_endian
        end
      else raise ValueError
  | Jagged _ _ _ => raise ValueError
  | RecordArray _ => raise TypeError
  end.

(** The branch of the loop body for a jagged branch: the content between
    the first and the last offset, flattened, and the offsets as [>i4]. *)
Definition encode_jagged (b : Branch) (branch_array : branch_array)
  : T (be_array * list Z) :=
  match branch_array with
  | Jagged offsets item_shape content =>
      match offsets with
      | [] => raise IndexError
      | o0 :: _ =>
          let content := if o0 =? 0 then content else skipn (Z.to_nat o0) content in
          let offsets := if o0 =? 0 then offsets else map (fun o => o - o0) offsets in
          let last_offset := List.last offsets 0 in
          let content :=
            if Z.of_nat (length content) >? last_offset
            then firstn (Z.to_nat last_offset) content
            else content in
          if decide (item_shape = shape b) then
            let values := concat content in
            ret (mkBeArray (dtype b) [Z.of_nat (length values)] values,
                 map (wrap_signed 32) offsets)
          else raise ValueError
      end
  | _ => raise AttributeError
  end.

(** The first statement of the loop body: [num_entries] is the length of
    the first array, and every other array has to have this length. *)
Definition check_entries (num_entries : option Z) (branch_array : branch_array)
  : result (option Z) :=
  match num_entries with
  | None => Ok (Some (py_len branch_array))
  | Some n =>
      if n =? py_len branch_array then Ok (Some n) else Raise ValueError
  end.

(** The loop [for branch_name, branch_array in actual_branches.items()]:
    the length check, then the encoding of the branch. *)
Fixpoint fill_loop (items : list (string * branch_array)) (num_entries : option Z)
    (tofill : list (string * be_array * option (list Z)))
  : T (option Z * list (string * be_array * option (list Z))) :=
  match items with
  | [] => ret (num_entries, tofill)
  | (branch_name, branch_array) :: rest =>
      let! num_entries := lift (check_entries num_entries branch_array) in
      let! (i, d) := find_datum branch_name in
      match d with
      | record_datum _ _ => fill_loop rest num_entries tofill
      | branch_datum b =>
          match counter b with
          | None =>
              let! big_endian := encode_flat i b branch_array in
              fill_loop rest num_entries (tofill ++ [(branch_name, big_endian, None)])
          | Some _ =>
              let! (big_endian, big_endian_offsets) := encode_jagged b branch_array in
              fill_loop rest num_entries
                (tofill ++ [(branch_name, big_endian, Some big_endian_offsets)])
          end
      end
  end.

(** ** Baskets *)

Definition bytes_len (bs : list Byte.byte) : Z := Z.of_nat (length bs).

(** [fKeylen], as both basket writers compute it. *)
Definition fKeylen_of (tree_name branch_name : string) : Z :=
  key_format_big_size
  + bytes_len (serialization_string "TBasket")
  + bytes_len (serialization_string branch_name)
  + bytes_len (serialization_string tree_name)
  + tbasket_format2_size
  + 1.

(** [uproot._util.tobytes(array)] for a big-endian array of integers. *)
Definition tobytes (size : Z) (values : list Z) : list Byte.byte :=
  flat_map (be_encode (Z.to_nat size)) values.

(** [itemsize = array.dtype.itemsize] followed by
    [for item in array.shape[1:]: itemsize *= item] *)
Definition basket_itemsize (array : be_array) : Z :=
  fold_left Z.mul (tl (ba_shape array)) (itemsize (ba_dtype array)).

(** [len(array)] *)
Definition ba_len (array : be_array) : Z := hd 0 (ba_shape array).

Definition sink_write (location : Z) (out : list Byte.byte) : T unit :=
  let! _ := modify (emit (SinkWrite location out)) in
  let! t := get_self in
  let! _ := modify (emit (SetFileLength (fileheader_end (_freesegments t)))) in
  modify (emit Flush).

Definition do_allocate (n : Z) : T Z :=
  let! t := get_self in
  let '(location, fs) := allocate (_freesegments t) n in
  let! _ := modify (set_freesegments fs) in
  ret location.

(** [write_np_basket] *)
Definition write_np_basket (branch_name : string) (array : be_array)
  : T (Z * Z * Z) :=
  let! t := get_self in
  let fClassName := serialization_string "TBasket" in
  let fName := serialization_string branch_name in
  let fTitle := serialization_string (_name t) in
  let fKeylen := fKeylen_of (_name t) branch_name in
  let raw_array := tobytes (itemsize (ba_dtype array)) (ba_values array) in
  let itemsize := basket_itemsize array in
  let fObjlen := bytes_len raw_array in
  let fNbytes := fKeylen + fObjlen in
  let parent_location := directory_key_location t in
  let! location := do_allocate fNbytes in
  let out :=
    key_format_big_pack fNbytes 1004 fObjlen datime_now fKeylen 0
      location parent_location
    ++ fClassName ++ fName ++ fTitle
    ++ tbasket_format2_pack 3 32000 itemsize (ba_len array)
         (fKeylen + bytes_len raw_array)
    ++ [Byte.x00]
    ++ raw_array in
  let! _ := sink_write location out in
  ret (fNbytes, fNbytes, location).

(** [offsets *= itemsize; offsets += fKeylen] on a [>i4] array. *)
Definition scale_offsets (itemsize fKeylen : Z) (offsets : list Z) : list Z :=
  map (fun o => wrap_signed 32 (wrap_signed 32 (o * itemsize) + fKeylen)) offsets.

(** [offsets[-1] = 0] *)
Definition zero_last (offsets : list Z) : list Z :=
  removelast offsets ++ [0].

(** [write_jagged_basket] *)
Definition write_jagged_basket (branch_name : string) (array : be_array)
    (offsets : list Z) : T (Z * Z * Z) :=
  let! t := get_self in
  let fClassName := serialization_string "TBasket" in
  let fName := serialization_string branch_name in
  let fTitle := serialization_string (_name t) in
  let fKeylen := fKeylen_of (_name t) branch_name in
  let raw_array := tobytes (itemsize (ba_dtype array)) (ba_values array) in
  let itemsize := basket_itemsize array in
  let offsets := scale_offsets itemsize fKeylen offsets in
  match offsets with
  | [] => raise IndexError
  | _ =>
      let fLast := List.last offsets 0 in
      let offsets := zero_last offsets in
      let raw_offsets := tobytes 4 offsets in
      let fObjlen := bytes_len raw_array + 4 + bytes_len raw_offsets in
      let fNbytes := fKeylen + fObjlen in
      let parent_location := directory_key_location t in
      let! location := do_allocate fNbytes in
      let out :=
        key_format_big_pack fNbytes 1004 fObjlen datime_now fKeylen 0
          location parent_location
        ++ fClassName ++ fName ++ fTitle
        ++ tbasket_format2_pack 3 32000
             (Z.of_nat (length offsets) + 1) (Z.of_nat (length offsets) - 1) fLast
        ++ [Byte.x00]
        ++ raw_array
        ++ be_encode 4 (Z.of_nat (length offsets))
        ++ raw_offsets in
      let! _ := sink_write location out in
      ret (fNbytes, fNbytes, location)
  end.

(** The updates of the branch tables after its basket is written. *)
Definition record_basket (i : nat) (num_entries zipbytes location : Z) : T unit :=
  let! t := get_self in
  match _branch_data t !! i with
  | Some (branch_datum b) =>
      let! bytes := lift (np_set (fBasketBytes b) (_num_baskets t) zipbytes) in
      let! _ := update_branch i (fun b => set_tables bytes (fBasketEntry b) (fBasketSeek b) b) in
      let! entry :=
        (if _num_baskets t + 1 <? _basket_capacity t then
           let! e := lift (np_get (fBasketEntry b) (_num_baskets t)) in
           lift (np_set (fBasketEntry b) (_num_baskets t + 1) (num_entries + e))
         else ret (fBasketEntry b)) in
      let! _ := update_branch i (fun b => set_tables (fBasketBytes b) entry (fBasketSeek b) b) in
      let! seek := lift (np_set (fBasketSeek b) (_num_baskets t) location) in
      update_branch i (fun b => set_tables (fBasketBytes b) (fBasketEntry b) seek b)
  | _ => raise KeyError
  end.

(** The body of the loop
    [for branch_name, big_endian, big_endian_offsets in tofill]: the
    basket is written, then the branch is updated. *)
Definition basket_step (item : string * be_array * option (list Z))
    (num_entries : option Z) : T (Z * Z) :=
  let '(branch_name, big_endian, big_endian_offsets) := item in
  let! (i, _) := find_datum branch_name in
  let! (sizes, location) :=
    (match big_endian_offsets with
     | None => write_np_basket branch_name big_endian
     | Some offsets =>
         let! r := write_jagged_basket branch_name big_endian offsets in
         let! _ := update_branch i
                     (set_fEntryOffsetLen (4 * (Z.of_nat (length offsets) - 1))) in
         ret r
     end) in
  let '(totbytes, zipbytes) := sizes in
  let! _ := update_branch i (add_bytes totbytes zipbytes) in
  let! n := (match num_entries with
             | Some n => ret n
             | None => raise TypeError
             end) in
  let! _ := record_basket i n zipbytes location in
  ret (totbytes, zipbytes).

Fixpoint basket_loop (tofill : list (string * be_array * option (list Z)))
    (num_entries : option Z) (uncompressed_bytes compressed_bytes : Z)
  : T (Z * Z) :=
  match tofill with
  | [] => ret (uncompressed_bytes, compressed_bytes)
  | item :: rest =>
      let! (totbytes, zipbytes) := basket_step item num_entries in
      basket_loop rest num_entries
        (uncompressed_bytes + totbytes) (compressed_bytes + zipbytes)
  end.

(** [write_updates]: the patches of the tree record. *)
Definition write_updates : T unit := modify (emit TreeUpdates).

(** [extend(file, sink, data)], for [data] a mapping from branch names to
    arrays. *)
Definition extend (data : list (string * branch_array)) : T unit :=
  let! _ := expand_capacity in
  let! t := get_self in
  let provided := normalize (_counter_name t) data [] in
  let! (provided, actual_branches) :=
    lift (collect_branches (_field_name t) (_branch_data t) provided []) in
  match provided with
  | _ :: _ => raise ValueError
  | [] =>
      let! (num_entries, tofill) := fill_loop actual_branches None [] in
      let! (uncompressed_bytes, compressed_bytes) :=
        basket_loop tofill num_entries 0 0 in
      match num_entries with
      | None => raise TypeError
      | Some n =>
          let! _ := modify (fun t =>
            set_counters (_num_entries t + n) (_num_baskets t + 1)
              (metadata_fTotBytes t + uncompressed_bytes)
              (metadata_fZipBytes t + compressed_bytes) t) in
          write_updates
      end
  end.

End Writer.
End cascadetree.

(** * Notions of the specification *)

(** Follows the spec's words: the zig-zag encoding of an int64,
    [encode(x) = (x << 1) XOR (x >> 63)], computed on 64-bit words, the
    result read as an int64. *)
Definition zigzag_encode (x : Z) : Z :=
  wrap_signed 64 (Z.lxor (Z.shiftl x 1) (Z.shiftr x 63)).

(** Follows the spec's words: the same encoding, the 64-bit word read as
    an unsigned integer. *)
Definition zigzag_word (x : Z) : Z :=
  wrap_unsigned 64 (Z.lxor (Z.shiftl x 1) (Z.shiftr x 63)).

(** Follows the spec's words: a switch word's index is its low 44 bits,
    its tag the high 20 bits minus one. *)
Definition spec_switch_index (w : Z) : Z := Z.land w (Z.ones 44).
Definition spec_switch_tag (w : Z) : Z := Z.shiftr w 44 - 1.

(** Follows the spec's words: the running prefix sum, [output[i]] the sum
    of the elements [0..i]. *)
Definition prefix_sums (l : list Z) : list Z :=
  map (fun i => fold_right Z.add 0 (firstn (S i) l)) (seq 0 (length l)).

(** A buffer is monotonically non-decreasing. *)
Fixpoint non_decreasing (l : list Z) : bool :=
  match l with
  | a :: (b :: _) as rest => (a <=? b) && non_decreasing rest
  | _ => true
  end.

(** [sum(desc.num_elements for desc in pagelist)] *)
Definition total_elements (pagelist : list PageDescription) : Z :=
  fold_right Z.add 0 (map num_elements pagelist).

(** [read_locator], which leaves the object as it is, as a function of
    the bytes of the file. *)
Definition locator_chunk {U : Uproot} (data : list Byte.byte) (loc : Locator)
    (uncomp_size : Z) : result (Chunk * Z) :=
  let chunk := source_chunk data (loc_offset loc)
                 (loc_offset loc + loc_num_bytes loc) in
  if loc_num_bytes loc <? uncomp_size then
    (let! decomp_chunk :=
       decompress chunk (loc_offset loc) (loc_num_bytes loc) uncomp_size in
     Ok (decomp_chunk, 0))%res
  else Ok (chunk, loc_offset loc).

(** The page-list envelope that a cluster group record points to,
    decoded: one iteration of [page_list_envelopes] without its
    assignment. *)
Definition page_list_of {U : Uproot} (data : list Byte.byte)
    (record : ClusterGroupRecord) : result PageLinkData :=
  (let link := page_list_link record in
   let! (decomp_chunk, cursor) :=
     locator_chunk data (link_locator link) (env_uncomp_size link) in
   let! (p, _) := PageLink decomp_chunk cursor in
   Ok p)%res.

(** The three basket tables of a branch have [capacity] entries. *)
Definition tables_sized (capacity : Z) (b : cascadetree.Branch) : Prop :=
  Z.of_nat (length (cascadetree.fBasketBytes b)) = capacity /\
  Z.of_nat (length (cascadetree.fBasketEntry b)) = capacity /\
  Z.of_nat (length (cascadetree.fBasketSeek b)) = capacity.

(** The array given for a branch is of the sort the branch takes: an
    array NumPy converts for a flat branch, a list-offset array for a
    jagged branch. *)
Definition array_fits (b : cascadetree.Branch) (a : cascadetree.branch_array)
  : Prop :=
  match cascadetree.counter b, a with
  | None, cascadetree.Flat _ _ => True
  | Some _, cascadetree.Jagged (_ :: _) _ _ => True
  | _, _ => False
  end.

(** The pages of column [ncol] in cluster [cluster_i] are found and
    decode: the first part of [read_col_page], up to the end of its loop.
    [pagelist] is the page list of the column, [ty] its type id, [dtype]
    the dtype of the buffer and [filled] the elements that the loop has
    put into it. *)
Definition decodes_to {U : Uproot} (s : Model) (ncol cluster_i : Z)
    (pagelist : list PageDescription) (ty : Z) (dtype : np_dtype)
    (filled : list Z) (s' : Model) : Prop :=
  exists ple s1 pll linklist crs s2 cr dtype_s nbits,
    page_list_envelopes s = (Ok ple, s1) /\
    pagelinklist_of ple = Ok pll /\
    py_index pll cluster_i = Ok linklist /\
    py_index linklist ncol = Ok pagelist /\
    column_records s1 = (Ok crs, s2) /\
    py_index crs ncol = Ok cr /\
    cr_type cr = ty /\
    rntuple_col_num_to_dtype_dict ty = Some dtype_s /\
    dtype = match dtype_s with bit => bool_ | np d => d end /\
    rntuple_col_num_to_size_dict ty = Some nbits /\
    read_pages pagelist dtype_s dtype nbits
      (((14 <=? ty) && (ty <=? 21)) || ((26 <=? ty) && (ty <=? 28))) s2
    = (Ok filled, s').

(** The tables of a branch after the growth from [capacity] to
    [capacity']: the old entries, then zeros, with the number of entries
    of the tree in the first new slot of [fBasketEntry]. *)
Definition grown_branch (capacity capacity' num_entries : Z)
    (b : cascadetree.Branch) : cascadetree.Branch :=
  cascadetree.set_tables
    (cascadetree.fBasketBytes b ++ cascadetree.zeros (capacity' - capacity))
    (cascadetree.fBasketEntry b
     ++ num_entries :: cascadetree.zeros (capacity' - capacity - 1))
    (cascadetree.fBasketSeek b ++ cascadetree.zeros (capacity' - capacity))
    b.

Definition grown_datum (capacity capacity' num_entries : Z)
    (d : cascadetree.datum) : cascadetree.datum :=
  match d with
  | cascadetree.branch_datum b =>
      cascadetree.branch_datum (grown_branch capacity capacity' num_entries b)
  | cascadetree.record_datum _ _ => d
  end.

(** Every element of [_branch_data] is a branch whose tables have
    [capacity] entries. *)
Definition all_branches_sized (capacity : Z) (data : list cascadetree.datum)
  : Prop :=
  Forall (fun d => exists b, d = cascadetree.branch_datum b /\
                             tables_sized capacity b) data.

(** The length of a jagged basket: the key length, the data, the four
    bytes of the number of offsets, and four bytes per offset. *)
Definition jagged_basket_nbytes {W : cascadetree.Writing}
    (t : cascadetree.Tree) (branch_name : string)
    (array : cascadetree.be_array) (offsets : list Z) : Z :=
  let s := cascadetree.basket_itemsize array in
  let K := cascadetree.fKeylen_of (cascadetree._name t) branch_name in
  K + (cascadetree.bytes_len
         (cascadetree.tobytes (itemsize (cascadetree.ba_dtype array))
            (cascadetree.ba_values array))
       + 4
       + cascadetree.bytes_len
           (cascadetree.tobytes 4
              (removelast (map (fun o => o * s + K) offsets) ++ [0]))).

(** The bytes of a jagged basket as the specification lays them out:
    the key, the three strings, the sub-header with the true last offset
    in [fLast], the zero byte that ends the key, the data, the number of
    offsets, and the offsets scaled by the item size and biased by the
    key length, the last one replaced by 0. *)
Definition jagged_basket_bytes {W : cascadetree.Writing}
    (t : cascadetree.Tree) (branch_name : string)
    (array : cascadetree.be_array) (offsets : list Z) (location : Z)
  : list Byte.byte :=
  let s := cascadetree.basket_itemsize array in
  let K := cascadetree.fKeylen_of (cascadetree._name t) branch_name in
  let raw_array :=
    cascadetree.tobytes (itemsize (cascadetree.ba_dtype array))
      (cascadetree.ba_values array) in
  let n := Z.of_nat (length offsets) in
  let raw_offsets :=
    cascadetree.tobytes 4
      (removelast (map (fun o => o * s + K) offsets) ++ [0]) in
  let fObjlen :=
    cascadetree.bytes_len raw_array + 4 + cascadetree.bytes_len raw_offsets in
  cascadetree.key_format_big_pack (K + fObjlen) 1004 fObjlen
    cascadetree.datime_now K 0 location (cascadetree.directory_key_location t)
  ++ cascadetree.serialization_string "TBasket"
  ++ cascadetree.serialization_string branch_name
  ++ cascadetree.serialization_string (cascadetree._name t)
  ++ cascadetree.tbasket_format2_pack 3 32000 (n + 1) (n - 1)
       (List.last offsets 0 * s + K)
  ++ [Byte.x00]
  ++ raw_array
  ++ be_encode 4 n
  ++ raw_offsets.

(** The fields of the tree that an update of a branch leaves alone. *)
Definition same_frame {W : cascadetree.Writing} (t t' : cascadetree.Tree)
  : Prop :=
  cascadetree.sink t' = cascadetree.sink t /\
  cascadetree._num_baskets t' = cascadetree._num_baskets t /\
  cascadetree._basket_capacity t' = cascadetree._basket_capacity t /\
  length (cascadetree._branch_data t') = length (cascadetree._branch_data t).

(** A method keeps a relation between the tree before and after it,
    whatever it returns or raises. *)
Definition preserves {W : cascadetree.Writing} {A}
    (P : cascadetree.Tree -> cascadetree.Tree -> Prop) (m : cascadetree.T A)
  : Prop :=
  forall t r t', m t = (r, t') -> P t t'.

(** The branches stay in place and keep their counters. *)
Definition branches_kept {W : cascadetree.Writing} (t t' : cascadetree.Tree)
  : Prop :=
  forall i b,
    cascadetree._branch_data t !! i = Some (cascadetree.branch_datum b) ->
    exists b',
      cascadetree._branch_data t' !! i = Some (cascadetree.branch_datum b') /\
      cascadetree.counter b' = cascadetree.counter b.

(** What the validation loop of [extend] leaves as it is: the sink, the
    number of entries, the lookup table and the branches. *)
Definition validation_frame {W : cascadetree.Writing}
    (t t' : cascadetree.Tree) : Prop :=
  cascadetree.sink t' = cascadetree.sink t /\
  cascadetree._num_entries t' = cascadetree._num_entries t /\
  cascadetree._branch_lookup t' = cascadetree._branch_lookup t /\
  branches_kept t t'.

(** No basket reaches the sink between [t] and [t']. *)
Definition no_basket_written {W : cascadetree.Writing}
    (t t' : cascadetree.Tree) : Prop :=
  forall location data,
    In (cascadetree.SinkWrite location data) (cascadetree.sink t') ->
    In (cascadetree.SinkWrite location data) (cascadetree.sink t).

(** The array given for a branch name is of the sort the branch takes. *)
Definition branch_fits {W : cascadetree.Writing} (t : cascadetree.Tree)
    (item : string * cascadetree.branch_array) : Prop :=
  exists i b,
    cascadetree.dict_get (fst item) (cascadetree._branch_lookup t) = Some i /\
    cascadetree._branch_data t !! i = Some (cascadetree.branch_datum b) /\
    array_fits b (snd item).

(** The arrays of a batch differ in length: from the length already
    fixed, or from one another. *)
Definition lengths_differ (num_entries : option Z)
    (items : list (string * cascadetree.branch_array)) : Prop :=
  match num_entries with
  | Some n => exists a, In a items /\ cascadetree.py_len (snd a) <> n
  | None =>
      exists a b, In a items /\ In b items /\
                  cascadetree.py_len (snd a) <> cascadetree.py_len (snd b)
  end.

(** The number of entries of the tree is as before. *)
Definition entries_kept {W : cascadetree.Writing} (t t' : cascadetree.Tree)
  : Prop :=
  cascadetree._num_entries t' = cascadetree._num_entries t.

(** The capacity step of [extend] keeps the number of entries, the lookup
    table and the naming functions, and writes no basket. *)
Definition growth_frame {W : cascadetree.Writing} (t t' : cascadetree.Tree)
  : Prop :=
  cascadetree._num_entries t' = cascadetree._num_entries t /\
  no_basket_written t t'.

(** Loading the header touches neither the footer nor its chunk. *)
Definition footer_untouched (s s' : Model) : Prop :=
  _footer s' = _footer s /\
  _footer_chunk s' = _footer_chunk s /\
  _footer_cursor s' = _footer_cursor s /\
  _footer_chunk_ready s' = _footer_chunk_ready s.

(** Follows the spec's words: split encoding is the byte-lane
    transposition that groups like-position bytes together; for [w] lanes
    lane [j] holds byte [j] of every element, in order. *)
Definition split_lanes (w : nat) (b : list Byte.byte) : list Byte.byte :=
  let n := (length b / w)%nat in
  flat_map
    (fun j => map (fun i => nth (i * w + j)%nat b Byte.x00) (seq 0 n))
    (seq 0 w).

(** The number of baskets and the capacity of the tree are as before. *)
Definition counters_kept {W : cascadetree.Writing} (t t' : cascadetree.Tree)
  : Prop :=
  cascadetree._num_baskets t' = cascadetree._num_baskets t /\
  cascadetree._basket_capacity t' = cascadetree._basket_capacity t.

(** No element of [_branch_data] is a dict of kind ["record"]. *)
Definition no_records (data : list cascadetree.datum) : Prop :=
  Forall (fun d => exists b, d = cascadetree.branch_datum b) data.

(** [struct.pack] returns as many bytes as the [size] of the format. *)
Definition packs_to_size (W : cascadetree.Writing) : Prop :=
  (forall a b c d e f g h,
     cascadetree.bytes_len (cascadetree.key_format_big_pack a b c d e f g h)
     = cascadetree.key_format_big_size) /\
  (forall a b c d e,
     cascadetree.bytes_len (cascadetree.tbasket_format2_pack a b c d e)
     = cascadetree.tbasket_format2_size).

(** Tables that have the size [c] in every branch before have it after. *)
Definition sized_kept {W : cascadetree.Writing} (c : Z)
    (t t' : cascadetree.Tree) : Prop :=
  all_branches_sized c (cascadetree._branch_data t) ->
  all_branches_sized c (cascadetree._branch_data t').

(** * Instances for the examples *)

(** The entries of the column type tables that the examples use. *)
Definition example_dtype_dict (t : Z) : option dtype_str :=
  if t =? 1 then Some (np uint64)
  else if t =? 2 then Some (np uint32)
  else if t =? 3 then Some (np uint64)
  else if t =? 6 then Some bit
  else if t =? 14 then Some (np uint64)
  else if t =? 15 then Some (np uint32)
  else if t =? 26 then Some (np int64)
  else None.

Definition example_size_dict (t : Z) : option Z :=
  if t =? 1 then Some 64
  else if t =? 2 then Some 32
  else if t =? 3 then Some 64
  else if t =? 6 then Some 1
  else if t =? 14 then Some 64
  else if t =? 15 then Some 32
  else if t =? 26 then Some 64
  else None.

#[local] Instance example_uproot : Uproot := {|
  rntuple_col_num_to_dtype_dict := example_dtype_dict;
  rntuple_col_num_to_size_dict := example_size_dict;
  index32 := 2;
  switch := 3;
  decompress := fun _ _ _ _ => Raise DecompressError;
  float_of_int := fun _ z => z
|}.

(** A model object whose header and page list are loaded: one column of
    type [ty], one cluster, one page of [n] elements stored in [data]. *)
Definition example_header (ty : Z) : Header :=
  mkHeader (1, 1) 0 0 [] [] [] [] [mkColumnRecord ty 0 0 0] [] [] 0.

Definition example_model (ty n : Z) (data : list Z) : Model :=
  mkModel (mkMembers 0 0 0 0 0 0) (bytes_of data)
    true None None true None None
    (Some (example_header ty)) None
    (Envelope
       (mkPageLinkData (1, 1)
          (Some [[[mkPageDescription n
                     (mkLocator (Z.of_nat (length data)) 0)]]])
          (Some 0))).

(** An uncompressed writer: the key and basket-header layouts of ROOT, a
    one-byte length before a short string, and allocation at the end of
    the file. *)
#[local] Instance example_writing : cascadetree.Writing := {|
  cascadetree.key_format_big_pack :=
    fun a b c d e f g h =>
      be_encode 4 a ++ be_encode 2 b ++ be_encode 4 c ++ be_encode 4 d
      ++ be_encode 2 e ++ be_encode 2 f ++ be_encode 8 g ++ be_encode 8 h;
  cascadetree.key_format_big_size := 34;
  cascadetree.tbasket_format2_pack :=
    fun a b c d e =>
      be_encode 2 a ++ be_encode 4 b ++ be_encode 4 c ++ be_encode 4 d
      ++ be_encode 4 e;
  cascadetree.tbasket_format2_size := 18;
  cascadetree.serialization_string :=
    fun s => byte_of_Z (Z.of_nat (String.length s)) :: list_byte_of_string s;
  cascadetree.datime_now := 0;
  cascadetree.FreeSegments := Z;
  cascadetree.allocate := fun e n => (e, e + n);
  cascadetree.fileheader_end := fun e => e;
  cascadetree.relocate := fun e => e
|}.

Definition example_branch (name : string) (counter : option string)
    (capacity : Z) : cascadetree.Branch :=
  cascadetree.mkBranch name cascadetree.kind_normal counter int32 []
    (match counter with Some _ => 1000 | None => 0 end) 0 0
    (cascadetree.zeros capacity) (cascadetree.zeros capacity)
    (cascadetree.zeros capacity) 0.

(** The [float] 10.0. *)
Definition example_resize_factor : cascadetree.py_number :=
  cascadetree.PyFloat (S754_finite false 5629499534213120 (-49)).

Definition example_tree (data : list cascadetree.datum)
    (lookup : list (string * nat)) (capacity : Z) : cascadetree.Tree :=
  cascadetree.mkTree "t" (fun k => String.append "n" k)
    (fun n k => String.append n (String.append "_" k))
    data lookup capacity example_resize_factor 0 0 0 0 100 1000 [].

(** A frame of two u32 items at offset 100: size -16, count 2. *)
Definition example_list_frame : Chunk :=
  mkChunk 100 (bytes_of [0xF0; 0xFF; 0xFF; 0xFF; 2; 0; 0; 0;
                         7; 0; 0; 0; 9; 0; 0; 0]).

(** A page of the three uint64 values 1, 2, 3 in the split layout: the
    lane of the lowest bytes, then seven lanes of zero bytes. *)
Definition example_split_page : list Z :=
  [1; 2; 3] ++ repeat 0 21%nat.

(** A page of the two uint32 values 5 and 3. *)
Definition example_index_page : list Z := [5; 0; 0; 0; 3; 0; 0; 0].

(** A file with an empty header envelope at offset 0, a footer envelope
    behind it with two cluster group records, and the two page-list
    envelopes they point to, of one cluster, one column and one page each
    (of 3 and of 7 elements). *)
Definition le32 (z : Z) : list Byte.byte := le_encode 4 z.
Definition le64 (z : Z) : list Byte.byte := le_encode 8 z.

Definition with_crc (body : list Byte.byte) : list Byte.byte :=
  body ++ le32 (crc32 body).

Definition empty_list_frame : list Byte.byte := le32 (-8) ++ le32 0.

Definition example_header_bytes : list Byte.byte :=
  with_crc
    (le_encode 2 1 ++ le_encode 2 1 ++ le64 0 ++ le32 0
     ++ le32 0 ++ le32 0 ++ le32 0
     ++ empty_list_frame ++ empty_list_frame
     ++ empty_list_frame ++ empty_list_frame).

Definition example_page_list_bytes (n : Z) : list Byte.byte :=
  with_crc
    (le_encode 2 1 ++ le_encode 2 1
     ++ le32 (-40) ++ le32 1
     ++ le32 (-32) ++ le32 1
     ++ le32 (-24) ++ le32 1
     ++ le32 n ++ le32 0 ++ le64 0).

Definition example_group_record (offset : Z) : list Byte.byte :=
  le32 24 ++ le32 1 ++ le32 48 ++ le32 48 ++ le64 offset.

Definition example_footer_bytes (header_crc : Z) : list Byte.byte :=
  with_crc
    (le_encode 2 1 ++ le_encode 2 1 ++ le64 0 ++ le32 header_crc
     ++ le32 0
     ++ empty_list_frame ++ empty_list_frame
     ++ empty_list_frame ++ empty_list_frame
     ++ empty_list_frame
     ++ empty_list_frame
     ++ (le32 (-56) ++ le32 2
         ++ example_group_record 200 ++ example_group_record 248)
     ++ empty_list_frame).

Definition example_file_bytes (header_crc : Z) : list Byte.byte :=
  example_header_bytes ++ example_footer_bytes header_crc
  ++ example_page_list_bytes 3 ++ example_page_list_bytes 7.

(** The model object after [read_members], for that file. *)
Definition example_file_model (header_crc : Z) : Model :=
  mkModel (mkMembers 0 64 64 64 136 136) (example_file_bytes header_crc)
    false None None false None None None None EmptyList.

Definition example_header_crc : Z :=
  Eval vm_compute in crc32 (drop_last4 example_header_bytes).

(** What the readers make of the two page-list envelopes and of the
    footer of that file. *)
Definition example_page_list (n : Z) : PageLinkData :=
  mkPageLinkData (1, 1)
    (Some [[[mkPageDescription n (mkLocator 0 0)]]])
    (Some (crc32 (drop_last4 (example_page_list_bytes n)))).

Definition example_group (offset : Z) : ClusterGroupRecord :=
  mkClusterGroupRecord 1 (mkEnvLink 48 (mkLocator 48 offset)).

Definition example_footer (header_crc : Z) : Footer :=
  mkFooter (1, 1) 0 header_crc (mkSchemaExtension 0 [] [] [] []) [] []
    [example_group 200; example_group 248] []
    (crc32 (drop_last4 (example_footer_bytes header_crc))).

(** A tree with the record branch [r] of one field [x], made with a
    basket capacity of 1, and a batch of two entries for it. *)
Definition example_record_tree : cascadetree.Tree :=
  example_tree
    [cascadetree.record_datum "r" ["x"%string];
     cascadetree.branch_datum (example_branch "r_x" None 1)]
    [("r"%string, 0%nat); ("r_x"%string, 1%nat)] 1.

Definition example_record_batch : list (string * cascadetree.branch_array) :=
  [("r"%string,
    cascadetree.RecordArray [("x"%string, cascadetree.Flat [] [[1]; [2]])])].

(** A tree with the flat branches [a] and [b]. *)
Definition example_flat_tree (capacity : Z) : cascadetree.Tree :=
  example_tree
    [cascadetree.branch_datum (example_branch "a" None capacity);
     cascadetree.branch_datum (example_branch "b" None capacity)]
    [("a"%string, 0%nat); ("b"%string, 1%nat)] capacity.

(** A tree with the jagged branch [v] of int32 and its counter [nv], and
    the flat content 1..5 of a batch with the offsets 0, 2, 5. *)
Definition example_jagged_branch : cascadetree.Branch :=
  example_branch "v" (Some "nv"%string) 3.

Definition example_jagged_tree : cascadetree.Tree :=
  example_tree
    [cascadetree.branch_datum
       (cascadetree.mkBranch "nv" cascadetree.kind_counter None int32 []
          0 0 0 (cascadetree.zeros 3) (cascadetree.zeros 3)
          (cascadetree.zeros 3) 0);
     cascadetree.branch_datum example_jagged_branch]
    [("nv"%string, 0%nat); ("v"%string, 1%nat)] 3.

Definition example_jagged_content : cascadetree.be_array :=
  cascadetree.mkBeArray int32 [5] [1; 2; 3; 4; 5].

(** Two batches for the tree with the flat branches [a] and [b]: one with
    two entries for [a] and one for [b], one with two entries for both. *)
Definition example_uneven_batch : list (string * cascadetree.branch_array) :=
  [("a"%string, cascadetree.Flat [] [[1]; [2]]);
   ("b"%string, cascadetree.Flat [] [[1]])].

Definition example_even_batch : list (string * cascadetree.branch_array) :=
  [("a"%string, cascadetree.Flat [] [[1]; [2]]);
   ("b"%string, cascadetree.Flat [] [[3]; [4]])].

(** A file whose header envelope ends in a checksum that is not its
    CRC-32: the empty header with four zero bytes at its end. *)
Definition example_bad_header_bytes : list Byte.byte :=
  drop_last4 example_header_bytes ++ le32 0.

Definition example_bad_header_model : Model :=
  mkModel (mkMembers 0 64 64 64 136 136)
    (example_bad_header_bytes ++ example_footer_bytes 0)
    false None None false None None None None EmptyList.

(** What [HeaderReader] makes of the empty header with checksum [crc]. *)
Definition example_empty_header (crc : Z) : Header :=
  mkHeader (1, 1) 0 0 [] [] [] [] [] [] [] crc.

(** A record frame at offset 0 whose size field says 12 and whose payload,
    a u16, takes two bytes; and a list frame of one column group record. *)
Definition example_record_frame : Chunk :=
  mkChunk 0 (bytes_of [12; 0; 0; 0; 7; 1; 0; 0; 0; 0; 0; 0]).

Definition example_column_group_frame : Chunk :=
  mkChunk 0 (le32 (-28) ++ le32 1 ++ le32 20 ++ le64 0 ++ le64 5).

(** A page-list envelope whose top-most list has no items, with a size
    that is not negative and four bytes that are not its CRC-32. *)
Definition example_empty_page_list : Chunk :=
  mkChunk 0 (le_encode 2 1 ++ le_encode 2 1 ++ le32 8 ++ le32 0 ++ le32 0).

(** A tree with the counter branch [n] alone, whose maximum so far is 4. *)
Definition example_counter_branch : cascadetree.Branch :=
  cascadetree.mkBranch "n" cascadetree.kind_counter None int32 []
    0 0 0 (cascadetree.zeros 3) (cascadetree.zeros 3) (cascadetree.zeros 3) 4.

Definition example_counter_tree : cascadetree.Tree :=
  example_tree [cascadetree.branch_datum example_counter_branch]
    [("n"%string, 0%nat)] 3.

(** A tree with the jagged branch [v], its counter [nv] and the flat
    branch [a]; and a batch that gives the counter two entries, the
    jagged branch a NumPy array of two entries and [a] three entries. *)
Definition example_mixed_tree : cascadetree.Tree :=
  example_tree
    [cascadetree.branch_datum
       (cascadetree.mkBranch "nv" cascadetree.kind_counter None int32 []
          0 0 0 (cascadetree.zeros 3) (cascadetree.zeros 3)
          (cascadetree.zeros 3) 0);
     cascadetree.branch_datum example_jagged_branch;
     cascadetree.branch_datum (example_branch "a" None 3)]
    [("nv"%string, 0%nat); ("v"%string, 1%nat); ("a"%string, 2%nat)] 3.

Definition example_mixed_batch : list (string * cascadetree.branch_array) :=
  [("nv"%string, cascadetree.Flat [] [[1]; [1]]);
   ("v"%string, cascadetree.Flat [] [[7]; [8]]);
   ("a"%string, cascadetree.Flat [] [[1]; [2]; [3]])].

(** The [float] 1.1, which is the binary64 nearest to 11/10. *)
Definition example_float_1_1 : spec_float :=
  S754_finite false 4953959590107546 (-52).

(** * Properties *)

(** ** Fixed-width integers *)

Lemma wrap_signed_id (bits z : Z) :
  0 < bits -> - 2 ^ (bits - 1) <= z < 2 ^ (bits - 1) -> wrap_signed bits z = z.
Proof.
  intros Hb Hz. unfold wrap_signed.
  assert (H2 : 2 ^ bits = 2 * 2 ^ (bits - 1)).
  { replace bits with (Z.succ (bits - 1)) at 1 by lia.
    rewrite Z.pow_succ_r by lia. reflexivity. }
  rewrite Z.mod_small by lia. lia.
Qed.

Lemma land_1 (n : Z) : Z.land n 1 = n mod 2.
Proof. change 1 with (Z.ones 1). rewrite Z.land_ones by lia. reflexivity. Qed.

Lemma lxor_m1 (a : Z) : Z.lxor a (-1) = - a - 1.
Proof. rewrite Z.lxor_m1_r. unfold Z.lnot. lia. Qed.

(** ** List frames *)

Lemma frame_header_cursor chunk cursor num_bytes num_items local_cursor :
  _rntuple_frame_header chunk cursor = Ok ((num_bytes, num_items), local_cursor) ->
  local_cursor = cursor + 8.
Proof.
  unfold _rntuple_frame_header, field_i32, cursor_bytes, rbind.
  destruct (chunk_get chunk cursor (cursor + 4)); [|discriminate].
  destruct (chunk_get chunk (cursor + 4) (cursor + 4 + 4)); [|discriminate].
  intros H. inversion H. lia.
Qed.

(** C7.  [ListFrameReader.read] asserts that the signed size of the frame
    header is negative: a header whose size is not negative raises
    [AssertionError]; otherwise the items are read with the local cursor,
    which starts after the 8 bytes of the header, and the outer cursor
    ends exactly [|size|] bytes after the start of the frame. *)
Theorem ListFrameReader_asserts_negative_size
    {A} (payload : Reader A) chunk cursor num_bytes num_items local_cursor :
  _rntuple_frame_header chunk cursor = Ok ((num_bytes, num_items), local_cursor) ->
  local_cursor = cursor + 8 /\
  (0 <= num_bytes -> ListFrameReader payload chunk cursor = Raise AssertionError) /\
  (num_bytes < 0 ->
   forall items c,
     read_items payload (Z.to_nat num_items) chunk local_cursor = Ok (items, c) ->
     ListFrameReader payload chunk cursor = Ok (items, cursor + Z.abs num_bytes)) /\
  (forall items cursor',
     ListFrameReader payload chunk cursor = Ok (items, cursor') ->
     num_bytes < 0 /\ cursor' = cursor + Z.abs num_bytes /\
     exists c,
       read_items payload (Z.to_nat num_items) chunk local_cursor = Ok (items, c)).
Proof.
  intros Hh. split; [eapply frame_header_cursor; eassumption|].
  unfold ListFrameReader. rewrite Hh. cbn [rbind].
  split; [|split].
  - intros Hn. destruct (Z.ltb_spec num_bytes 0); [lia|reflexivity].
  - intros Hn items c Hr.
    destruct (Z.ltb_spec num_bytes 0); [|lia].
    rewrite Hr. cbn. f_equal. f_equal. lia.
  - intros items cursor'.
    destruct (Z.ltb_spec num_bytes 0) as [Hlt|Hge]; [|discriminate].
    destruct (read_items payload (Z.to_nat num_items) chunk local_cursor)
      as [[xs c]|e] eqn:Hr; cbn; [|discriminate].
    intros Heq. inversion Heq; subst. split; [assumption|].
    split; [lia|]. exists c. reflexivity.
Qed.

Lemma ListFrameReader_asserts_negative_size_witness :
  ListFrameReader field_u32 example_list_frame 100 = Ok ([7; 9], 116).
Proof.
  refine (proj1 (proj2 (proj2
    (ListFrameReader_asserts_negative_size field_u32 example_list_frame 100
       (-16) 2 108 _))) _ [7; 9] 116 _).
  - vm_compute. reflexivity.
  - lia.
  - vm_compute. reflexivity.
Defined.

(** ** Zig-zag *)

(** For an int64 [n] the value of [from_zigzag n] is an int64 again:
    NumPy's element-wise evaluation does not wrap. *)
Lemma from_zigzag_int64 (n : Z) :
  - 2 ^ 63 <= n < 2 ^ 63 -> wrap_signed 64 (from_zigzag n) = from_zigzag n.
Proof.
  intros Hn. apply wrap_signed_id; [lia|].
  unfold from_zigzag. rewrite land_1, Z.shiftr_div_pow2 by lia.
  change (2 ^ 1) with 2. change (64 - 1) with 63.
  assert (Hm : n mod 2 = 0 \/ n mod 2 = 1) by (pose proof (Z.mod_pos_bound n 2); lia).
  destruct Hm as [-> | ->].
  - change (- 0) with 0. rewrite Z.lxor_0_r.
    pose proof (Z.div_le_lower_bound n 2 (- 2 ^ 62)).
    pose proof (Z.div_lt_upper_bound n 2 (2 ^ 62)). lia.
  - change (- (1)) with (-1). rewrite lxor_m1.
    pose proof (Z.div_le_lower_bound n 2 (- 2 ^ 62)).
    pose proof (Z.div_lt_upper_bound n 2 (2 ^ 62)). lia.
Qed.

(** The decoder inverts the encoding of the values of 63 bits. *)
Lemma from_zigzag_encode_small (x : Z) :
  - 2 ^ 62 <= x < 2 ^ 62 -> from_zigzag (zigzag_encode x) = x.
Proof.
  intros Hx. unfold zigzag_encode.
  rewrite Z.shiftl_mul_pow2, Z.shiftr_div_pow2 by lia. change (2 ^ 1) with 2.
  destruct (Z.neg_nonneg_cases x) as [Hneg | Hpos].
  - assert (Hd : x / 2 ^ 63 = -1).
    { symmetry. apply (Z.div_unique x (2 ^ 63) (-1) (x + 2 ^ 63)); lia. }
    rewrite Hd, lxor_m1. rewrite wrap_signed_id by lia.
    unfold from_zigzag. rewrite land_1, Z.shiftr_div_pow2 by lia.
    change (2 ^ 1) with 2.
    replace (- (x * 2) - 1) with (1 + (- x - 1) * 2) by lia.
    rewrite Z.div_add, Z.mod_add by lia.
    change (1 / 2) with 0. change (1 mod 2) with 1.
    change (- (1)) with (-1). rewrite lxor_m1. lia.
  - rewrite (Z.div_small x) by lia. rewrite Z.lxor_0_r.
    rewrite wrap_signed_id by lia.
    unfold from_zigzag. rewrite land_1, Z.shiftr_div_pow2 by lia.
    change (2 ^ 1) with 2.
    rewrite Z.div_mul, Z.mod_mul by lia. apply Z.lxor_0_r.
Qed.

(** On the word read as an unsigned integer, where the shift of
    [from_zigzag] is a logical one, the decoder inverts the encoding of
    every int64: the shift of the signed view is what loses the values of
    64 bits. *)
Lemma from_zigzag_unsigned_word (x : Z) :
  - 2 ^ 63 <= x < 2 ^ 63 -> from_zigzag (zigzag_word x) = x.
Proof.
  intros Hx. unfold zigzag_word, wrap_unsigned.
  rewrite Z.shiftl_mul_pow2, Z.shiftr_div_pow2 by lia. change (2 ^ 1) with 2.
  destruct (Z.neg_nonneg_cases x) as [Hneg | Hpos].
  - assert (Hd : x / 2 ^ 63 = -1).
    { symmetry. apply (Z.div_unique x (2 ^ 63) (-1) (x + 2 ^ 63)); lia. }
    rewrite Hd, lxor_m1. rewrite Z.mod_small by lia.
    unfold from_zigzag. rewrite land_1, Z.shiftr_div_pow2 by lia.
    change (2 ^ 1) with 2.
    replace (- (x * 2) - 1) with (1 + (- x - 1) * 2) by lia.
    rewrite Z.div_add, Z.mod_add by lia.
    change (1 / 2) with 0. change (1 mod 2) with 1.
    change (- (1)) with (-1). rewrite lxor_m1. lia.
  - rewrite (Z.div_small x) by lia. rewrite Z.lxor_0_r.
    rewrite Z.mod_small by lia.
    unfold from_zigzag. rewrite land_1, Z.shiftr_div_pow2 by lia.
    change (2 ^ 1) with 2.
    rewrite Z.div_mul, Z.mod_mul by lia. apply Z.lxor_0_r.
Qed.

(** C6.  The int64 value [2^62] is encoded as the word
    [0x8000000000000000], the int64 [-2^63]; on it the arithmetic shift of
    [from_zigzag] keeps the sign bit and the result is [-2^62]: decoding
    does not give back the encoded value. *)
Theorem from_zigzag_loses_top_bit :
  - 2 ^ 63 <= 2 ^ 62 < 2 ^ 63 /\
  zigzag_encode (2 ^ 62) = - 2 ^ 63 /\
  from_zigzag (zigzag_encode (2 ^ 62)) = - 2 ^ 62 /\
  from_zigzag (zigzag_encode (2 ^ 62)) <> 2 ^ 62.
Proof.
  split; [lia|]. split; [vm_compute; reflexivity|].
  split; [vm_compute; reflexivity|]. vm_compute. discriminate.
Qed.

(** ** Switch columns *)


(** The tag is the high field minus one as long as the field fits int8. *)
Lemma split_switch_bits_tag (w : Z) :
  0 <= Z.shiftr w 44 < 128 -> snd (_split_switch_bits w) = spec_switch_tag w.
Proof.
  intros H. unfold _split_switch_bits, spec_switch_tag. cbn [snd].
  rewrite (wrap_signed_id 8 (Z.shiftr w 44)) by (cbn; lia).
  apply wrap_signed_id; cbn; lia.
Qed.

(** C2.  For the 64-bit word [2^20] the low 44 bits are [2^20], but the
    mask [0x00000000000FFFFF] of the decoder keeps 20 bits only and the
    decoded index is 0. *)
Theorem split_switch_bits_masks_20_bits :
  0 <= 2 ^ 20 < 2 ^ 64 /\
  spec_switch_index (2 ^ 20) = 2 ^ 20 /\
  fst (_split_switch_bits (2 ^ 20)) = 0 /\
  snd (_split_switch_bits (2 ^ 20)) = spec_switch_tag (2 ^ 20).
Proof.
  split; [lia|]. repeat split; vm_compute; reflexivity.
Qed.

(** ** The state and error monad *)

Lemma mbind_ok {S A B} (m : StateM S A) (k : A -> StateM S B) s a s' :
  m s = (Ok a, s') -> mbind' m k s = k a s'.
Proof. intros H. unfold mbind'. rewrite H. reflexivity. Qed.

Lemma mbind_raise {S A B} (m : StateM S A) (k : A -> StateM S B) s e s' :
  m s = (Raise e, s') -> mbind' m k s = (Raise e, s').
Proof. intros H. unfold mbind'. rewrite H. reflexivity. Qed.

Lemma mbind_lift_ok {S A B} (r : result A) (k : A -> StateM S B) s a :
  r = Ok a -> mbind' (lift r) k s = k a s.
Proof. intros ->. reflexivity. Qed.

(** ** The page decoder *)

Section PageDecoderProperties.
Context {U : Uproot}.

Lemma assign_into_length n src dst content l :
  assign_into n src dst content = Ok l -> Z.of_nat (length l) = n.
Proof.
  unfold assign_into.
  destruct (Z.eqb_spec (Z.of_nat (length (firstn (Z.to_nat n) content))) n)
    as [Heq | Hne].
  - intros H. inversion H. rewrite length_map. exact Heq.
  - destruct (firstn (Z.to_nat n) content) as [|x [|y t]] eqn:Hf;
      try discriminate.
    intros H. inversion H. rewrite repeat_length.
    assert (Hl : (length (firstn (Z.to_nat n) content) <= Z.to_nat n)%nat)
      by apply firstn_le_length.
    rewrite Hf in Hl. cbn in Hl. lia.
Qed.

Lemma read_pagedesc_length n desc dtype_s dtype nbits split s l s' :
  read_pagedesc n desc dtype_s dtype nbits split s = (Ok l, s') ->
  Z.of_nat (length l) = n.
Proof.
  unfold read_pagedesc, mbind', lift, ret, raise.
  destruct (read_locator _ _ s) as [[[ch c]|e] s1]; [|discriminate].
  destruct (chunk_get ch c _) as [raw|e]; [|discriminate].
  destruct split.
  - destruct (uint_of_nbits nbits) as [u|]; [|discriminate].
    destruct (_ =? 0)%nat; [|discriminate].
    destruct dtype_s; intros H; inversion H as [[Ha Hs]];
      eapply assign_into_length; eassumption.
  - destruct dtype_s; intros H; inversion H as [[Ha Hs]];
      eapply assign_into_length; eassumption.
Qed.

Lemma read_pages_length pagelist dtype_s dtype nbits split s filled s' :
  read_pages pagelist dtype_s dtype nbits split s = (Ok filled, s') ->
  Z.of_nat (length filled) = total_elements pagelist.
Proof.
  revert s filled s'. induction pagelist as [|p rest IH]; intros s filled s'.
  - cbn. intros H. inversion H. reflexivity.
  - cbn [read_pages]. unfold mbind' at 1.
    destruct (read_pagedesc _ p dtype_s dtype nbits split s)
      as [[l|e] s1] eqn:Hp; [|discriminate].
    unfold mbind'.
    destruct (read_pages rest dtype_s dtype nbits split s1)
      as [[more|e] s2] eqn:Hr; [|discriminate].
    unfold ret. intros H. inversion H; subst.
    rewrite length_app, Nat2Z.inj_add.
    rewrite (read_pagedesc_length _ _ _ _ _ _ _ _ _ Hp), (IH _ _ _ Hr).
    reflexivity.
Qed.

(** What [read_col_page] returns once the pages of a non-empty page list
    are decoded: the leading zero of the offset columns, the zig-zag
    decoding, and nothing for the delta columns, whose running sum is
    computed and dropped. *)
Lemma read_col_page_decoded s ncol cluster_i pagelist ty dtype filled s' :
  decodes_to s ncol cluster_i pagelist ty dtype filled s' ->
  pagelist <> [] ->
  read_col_page ncol cluster_i s =
  (let res := mkArray dtype (if ty <=? index32 then 0 :: filled else filled) in
   if (26 <=? ty) && (ty <=? 28) then np_from_zigzag res else Ok res, s').
Proof.
  intros (ple & s1 & pll & linklist & crs & s2 & cr & dtype_s & nbits &
          H1 & H2 & H3 & H4 & H5 & H6 & H7 & H8 & H9 & H10 & H11) Hne.
  unfold read_col_page.
  rewrite (mbind_ok _ _ _ _ _ H1).
  rewrite (mbind_lift_ok _ _ _ _ H2), (mbind_lift_ok _ _ _ _ H3),
          (mbind_lift_ok _ _ _ _ H4).
  rewrite (mbind_ok _ _ _ _ _ H5), (mbind_lift_ok _ _ _ _ H6).
  rewrite H7. unfold lookup_table. rewrite H8, H10. cbn [lift mbind'].
  destruct pagelist as [|p rest]; [congruence|].
  rewrite <- H9.
  rewrite (mbind_lift_ok _ _ _ _ eq_refl), (mbind_ok _ _ _ _ _ H11).
  destruct (ty <=? index32); destruct ((26 <=? ty) && (ty <=? 28));
    destruct ((14 <=? ty) && (ty <=? 15)); reflexivity.
Qed.

(** The delta columns come back as they are stored. *)
Lemma read_col_page_delta s ncol cluster_i pagelist ty dtype filled s' :
  decodes_to s ncol cluster_i pagelist ty dtype filled s' ->
  pagelist <> [] -> 14 <= ty <= 15 ->
  read_col_page ncol cluster_i s =
  (Ok (mkArray dtype (if ty <=? index32 then 0 :: filled else filled)), s').
Proof.
  intros Hd Hne Hty. rewrite (read_col_page_decoded _ _ _ _ _ _ _ _ Hd Hne).
  cbn zeta. destruct (Z.leb_spec 26 ty); [lia|]. reflexivity.
Qed.

End PageDecoderProperties.

(** C1.  A column of type 14 (in the delta range, above the offset-index
    ids of the example tables) whose only page stores the elements 1, 2, 3:
    [read_col_page] returns 1, 2, 3, the elements as stored; their running
    prefix sum is 1, 3, 6.  The array that [numpy.cumsum] makes is not
    assigned. *)
Theorem delta_column_not_summed :
  14 <= 14 <= 15 /\
  fst (read_col_page 0 0 (example_model 14 3 example_split_page))
  = Ok (mkArray uint64 [1; 2; 3]) /\
  prefix_sums [1; 2; 3] = [1; 3; 6].
Proof. split; [lia|]. split; vm_compute; reflexivity. Qed.

Section OffsetColumns.
Context {U : Uproot}.

Lemma wrap_signed_0 (d : np_dtype) : wrap_signed (bits_of d) 0 = 0.
Proof. destruct d; reflexivity. Qed.

Lemma wrap_unsigned_0 (d : np_dtype) : wrap_unsigned (bits_of d) 0 = 0.
Proof. destruct d; reflexivity. Qed.

Lemma np_from_zigzag_leading_zero d l arr :
  np_from_zigzag (mkArray d (0 :: l)) = Ok arr ->
  hd_error (nd_data arr) = Some 0 /\ length (nd_data arr) = S (length l).
Proof.
  unfold np_from_zigzag. cbn [nd_dtype nd_data].
  destruct (kind_of d); intros H; inversion H; cbn [nd_data map hd_error length];
    rewrite ?length_map; change (from_zigzag 0) with 0;
    rewrite ?wrap_signed_0, ?wrap_unsigned_0; split; reflexivity.
Qed.

(** C8, as the code has it.  For an offset-index column (type id at most
    the id of index32) with a non-empty page list whose pages decode,
    every buffer that [read_col_page] returns starts with 0 and has one
    element more than the pages have in total; outside the zig-zag range
    the buffer is returned, and it is 0 followed by the stored elements
    as they are. *)
Theorem offset_column_leading_zero
    s ncol cluster_i pagelist ty dtype filled s' :
  decodes_to s ncol cluster_i pagelist ty dtype filled s' ->
  pagelist <> [] ->
  ty <= index32 ->
  (forall arr s'',
     read_col_page ncol cluster_i s = (Ok arr, s'') ->
     hd_error (nd_data arr) = Some 0 /\
     Z.of_nat (length (nd_data arr)) = total_elements pagelist + 1) /\
  (ty < 26 ->
   read_col_page ncol cluster_i s = (Ok (mkArray dtype (0 :: filled)), s')).
Proof.
  intros Hd Hne Hty.
  rewrite (read_col_page_decoded _ _ _ _ _ _ _ _ Hd Hne). cbn zeta.
  destruct Hd as (ple & s1 & pll & linklist & crs & s2 & cr & dtype_s & nbits &
                  _ & _ & _ & _ & _ & _ & _ & _ & _ & _ & Hpages).
  pose proof (read_pages_length _ _ _ _ _ _ _ _ Hpages) as Hlen.
  destruct (Z.leb_spec ty index32) as [_|Hgt]; [|lia].
  split.
  - intros arr s''. destruct ((26 <=? ty) && (ty <=? 28)).
    + intros H. inversion H as [[Hz Hs]].
      destruct (np_from_zigzag_leading_zero _ _ _ Hz) as [Hhd Hl].
      split; [exact Hhd|]. rewrite Hl. lia.
    + intros H. inversion H. cbn [nd_data hd_error length]. split; [reflexivity|lia].
  - intros Hlt. destruct (Z.leb_spec 26 ty); [lia|]. reflexivity.
Qed.

End OffsetColumns.

Lemma offset_column_leading_zero_witness :
  read_col_page 0 0 (example_model 2 2 example_index_page)
  = (Ok (mkArray uint32 [0; 5; 3]), example_model 2 2 example_index_page).
Proof.
  refine (proj2 (offset_column_leading_zero
                   (example_model 2 2 example_index_page) 0 0
                   [mkPageDescription 2 (mkLocator 8 0)] 2 uint32 [5; 3]
                   (example_model 2 2 example_index_page) _ _ _) _).
  - unfold decodes_to. do 9 eexists.
    repeat (split; [vm_compute; reflexivity|]). vm_compute. reflexivity.
  - discriminate.
  - vm_compute. discriminate.
  - lia.
Defined.

(** C8, as stated, fails: the offset-index column of type 2 whose page
    stores 5, 3 is returned as 0, 5, 3, which is not non-decreasing. *)
Lemma offset_column_not_monotone :
  2 <= index32 /\
  exists arr,
    fst (read_col_page 0 0 (example_model 2 2 example_index_page)) = Ok arr /\
    nd_data arr = [0; 5; 3] /\
    non_decreasing (nd_data arr) = false.
Proof.
  split; [vm_compute; discriminate|].
  exists (mkArray uint32 [0; 5; 3]). repeat split; vm_compute; reflexivity.
Qed.

(** ** Header and footer *)

Section Envelopes.
Context {U : Uproot}.

(** C3.  On the first access to the footer, once the footer envelope is
    decoded to [f]: the [header] property is evaluated, and when it raises,
    as it does for a header that fails its own check, the access to the
    footer raises the same exception.  When it returns the header [h]:
    if the CRC at the end of the footer is the CRC-32 of the envelope
    without its last four bytes and the [header_crc32] of the footer is
    the [crc32] of the header, [f] is returned and cached, so that the
    next access returns it again; if one of the two fails, the access
    raises [AssertionError]. *)
Theorem footer_checks_both_crc s s1 cursor chunk f c rh s2 :
  _footer s = None ->
  (if _footer_chunk_ready s then ret tt else _prepare_footer_chunk) s
  = (Ok tt, s1) ->
  _footer_cursor s1 = Some cursor ->
  _footer_chunk s1 = Some chunk ->
  FooterReader chunk cursor = Ok (f, c) ->
  header s1 = (rh, s2) ->
  match rh with
  | Ok h =>
      (f_crc32 f = crc32 (drop_last4 (raw_data chunk)) /\
       header_crc32 f = h_crc32 h ->
       footer s = (Ok f, set_footer f s2) /\
       _footer (set_footer f s2) = Some f /\
       footer (set_footer f s2) = (Ok f, set_footer f s2)) /\
      (~ (f_crc32 f = crc32 (drop_last4 (raw_data chunk)) /\
          header_crc32 f = h_crc32 h) ->
       footer s = (Raise AssertionError, s2))
  | Raise e => footer s = (Raise e, s2)
  end.
Proof.
  intros Hnone Hprep Hcur Hchunk Hread Hheader.
  assert (Hfooter :
    footer s =
    match rh with
    | Ok h =>
        if header_crc32 f =? h_crc32 h then
          if f_crc32 f =? crc32 (drop_last4 (raw_data chunk))
          then (Ok f, set_footer f s2)
          else (Raise AssertionError, s2)
        else (Raise AssertionError, s2)
    | Raise e => (Raise e, s2)
    end).
  { unfold footer. unfold mbind' at 1. unfold get_self at 1. rewrite Hnone.
    rewrite (mbind_ok _ _ _ _ _ Hprep).
    unfold mbind' at 1. unfold get_self at 1. rewrite Hcur, Hchunk.
    cbn [attr]. unfold mbind' at 1. unfold ret at 1.
    unfold mbind' at 1. unfold ret at 1.
    rewrite (mbind_lift_ok _ _ _ _ Hread).
    destruct rh as [h|e].
    - rewrite (mbind_ok _ _ _ _ _ Hheader).
      destruct (header_crc32 f =? h_crc32 h); [|reflexivity].
      destruct (f_crc32 f =? crc32 (drop_last4 (raw_data chunk))); reflexivity.
    - apply (mbind_raise _ _ _ _ _ Hheader). }
  destruct rh as [h|e]; [|exact Hfooter].
  split.
  - intros [Ha Hb]. rewrite Hfooter.
    rewrite (proj2 (Z.eqb_eq _ _) Ha), (proj2 (Z.eqb_eq _ _) Hb).
    repeat split.
  - intros Hn. rewrite Hfooter.
    destruct (Z.eqb_spec (header_crc32 f) (h_crc32 h)) as [Hb|Hb]; [|reflexivity].
    destruct (Z.eqb_spec (f_crc32 f) (crc32 (drop_last4 (raw_data chunk))))
      as [Ha|Ha]; [|reflexivity].
    exfalso. apply Hn. split; assumption.
Qed.

(** ** Page lists *)

Lemma read_locator_pure loc uncomp_size s :
  read_locator loc uncomp_size s
  = (locator_chunk (file_data s) loc uncomp_size, s).
Proof.
  unfold read_locator, locator_chunk, mbind', get_self, lift, ret, rbind.
  destruct (loc_num_bytes loc <? uncomp_size); [|reflexivity].
  destruct (decompress _ _ _ _); reflexivity.
Qed.

Lemma page_list_loop_step record rest p s :
  page_list_of (file_data s) record = Ok p ->
  page_list_loop (record :: rest) s
  = page_list_loop rest (set_page_list_envelopes p s).
Proof.
  intros H. unfold page_list_of, rbind in H.
  destruct (locator_chunk _ _ _) as [[ch cur]|e] eqn:Hl; [|discriminate].
  destruct (PageLink ch cur) as [[q c]|e] eqn:Hq; [|discriminate].
  inversion H; subst. cbn [page_list_loop].
  unfold mbind' at 1. rewrite read_locator_pure, Hl.
  rewrite (mbind_lift_ok _ _ _ _ Hq). reflexivity.
Qed.

Lemma page_list_loop_last records last p s :
  Forall (fun r => exists q, page_list_of (file_data s) r = Ok q) records ->
  page_list_of (file_data s) last = Ok p ->
  page_list_loop (records ++ [last]) s = (Ok tt, set_page_list_envelopes p s).
Proof.
  revert s. induction records as [|r rest IH]; intros s Hall Hlast.
  - cbn [app]. rewrite (page_list_loop_step _ _ _ _ Hlast). reflexivity.
  - inversion Hall as [|r' rest' [q Hq] Hrest]; subst.
    cbn [app]. rewrite (page_list_loop_step _ _ _ _ Hq).
    rewrite IH; [reflexivity| exact Hrest | exact Hlast].
Qed.

(** C9.  When the page lists are not loaded yet and the envelopes of the
    cluster group records of the footer decode, the [page_list_envelopes]
    property returns, and caches, the envelope of the last record alone:
    every iteration assigns the cache, none appends to it. *)
Theorem page_list_envelopes_keeps_last s f s1 records last p :
  _page_list_envelopes s = EmptyList ->
  footer s = (Ok f, s1) ->
  cluster_group_records f = records ++ [last] ->
  Forall (fun r => exists q, page_list_of (file_data s1) r = Ok q) records ->
  page_list_of (file_data s1) last = Ok p ->
  page_list_envelopes s = (Ok (Envelope p), set_page_list_envelopes p s1).
Proof.
  intros Hempty Hfooter Hrecords Hall Hlast.
  unfold page_list_envelopes. unfold mbind' at 1. unfold get_self at 1.
  rewrite Hempty. unfold mbind' at 1. rewrite (mbind_ok _ _ _ _ _ Hfooter).
  rewrite Hrecords, (page_list_loop_last _ _ _ _ Hall Hlast). reflexivity.
Qed.

End Envelopes.

Lemma footer_checks_both_crc_witness :
  fst (footer (example_file_model example_header_crc))
  = Ok (example_footer example_header_crc).
Proof.
  pose proof (footer_checks_both_crc (example_file_model example_header_crc)
                (snd (_prepare_footer_chunk
                        (example_file_model example_header_crc)))
                64 (mkChunk 64 (example_footer_bytes example_header_crc))
                (example_footer example_header_crc) 200
                (fst (header (snd (_prepare_footer_chunk
                                     (example_file_model example_header_crc)))))
                (snd (header (snd (_prepare_footer_chunk
                                     (example_file_model example_header_crc)))))
                eq_refl eq_refl eq_refl eq_refl) as H.
  assert (Hread : FooterReader
                    (mkChunk 64 (example_footer_bytes example_header_crc)) 64
                  = Ok (example_footer example_header_crc, 200))
    by (vm_compute; reflexivity).
  specialize (H Hread).
  assert (Hh : header (snd (_prepare_footer_chunk
                              (example_file_model example_header_crc)))
               = (Ok (example_empty_header example_header_crc),
                  snd (header (snd (_prepare_footer_chunk
                                      (example_file_model example_header_crc))))))
    by (vm_compute; reflexivity).
  rewrite Hh in H. specialize (H eq_refl). cbv beta iota in H.
  destruct H as [Hok _]. destruct Hok as [Heq _].
  - split; vm_compute; reflexivity.
  - rewrite Heq. reflexivity.
Defined.

(** A file whose header envelope does not end in its CRC-32, and whose
    footer carries the checksum that the header does end in: the CRC at
    the end of the footer is the CRC-32 of the footer envelope, and the
    [header_crc32] of the footer is the [crc32] of the decoded header,
    which the [header] property has stored; still the first access to
    the footer raises [AssertionError], from the check of the header, and
    no footer is cached. *)
Theorem footer_fails_with_both_crc_equal :
  exists chunk cursor f c h,
    _footer_chunk (snd (footer example_bad_header_model)) = Some chunk /\
    _footer_cursor (snd (footer example_bad_header_model)) = Some cursor /\
    FooterReader chunk cursor = Ok (f, c) /\
    _header (snd (footer example_bad_header_model)) = Some h /\
    f_crc32 f = crc32 (drop_last4 (raw_data chunk)) /\
    header_crc32 f = h_crc32 h /\
    fst (footer example_bad_header_model) = Raise AssertionError /\
    _footer (snd (footer example_bad_header_model)) = None.
Proof.
  do 5 eexists.
  split; [vm_compute; reflexivity|]. split; [vm_compute; reflexivity|].
  split; [vm_compute; reflexivity|]. split; [vm_compute; reflexivity|].
  repeat split; vm_compute; reflexivity.
Qed.

Lemma page_list_envelopes_keeps_last_witness :
  fst (page_list_envelopes (example_file_model example_header_crc))
  = Ok (Envelope (example_page_list 7)).
Proof.
  erewrite (page_list_envelopes_keeps_last
              (example_file_model example_header_crc)
              (example_footer example_header_crc) _
              [example_group 200] (example_group 248) (example_page_list 7)).
  - reflexivity.
  - reflexivity.
  - vm_compute. reflexivity.
  - reflexivity.
  - constructor; [|constructor]. exists (example_page_list 3).
    vm_compute. reflexivity.
  - vm_compute. reflexivity.
Defined.

(** ** Growth of the basket tables *)

Section Growth.
Context {W : cascadetree.Writing}.
Import cascadetree.

Lemma skipn_repeat {A} (x : A) n m : skipn n (repeat x m) = repeat x (m - n).
Proof.
  revert m. induction n as [|n IH]; intros m.
  - rewrite Nat.sub_0_r. reflexivity.
  - destruct m as [|m]; [reflexivity|]. cbn. apply IH.
Qed.

Lemma copy_prefix_zeros capacity' old :
  Z.of_nat (length old) <= capacity' ->
  copy_prefix (zeros capacity') old
  = Ok (old ++ zeros (capacity' - Z.of_nat (length old))).
Proof.
  intros H. unfold copy_prefix, zeros. rewrite repeat_length.
  destruct (Nat.leb_spec (length old) (Z.to_nat capacity')) as [_|Hgt]; [|lia].
  rewrite skipn_repeat. do 3 f_equal. lia.
Qed.

Lemma zeros_succ n : 0 < n -> zeros n = 0 :: zeros (n - 1).
Proof.
  intros H. unfold zeros.
  replace (Z.to_nat n) with (S (Z.to_nat (n - 1))) by lia. reflexivity.
Qed.

Lemma np_set_zeros l n x :
  0 < n ->
  np_set (l ++ zeros n) (Z.of_nat (length l)) x = Ok (l ++ x :: zeros (n - 1)).
Proof.
  intros Hn. unfold np_set. rewrite (zeros_succ n Hn), length_app.
  destruct (Z.leb_spec 0 (Z.of_nat (length l))) as [_|?]; [|lia].
  destruct (Z.ltb_spec (Z.of_nat (length l))
              (Z.of_nat (length l + length (0 :: zeros (n - 1)))))
    as [_|Hge]; [|cbn [length] in Hge; lia].
  cbn [andb]. rewrite Nat2Z.id.
  replace (length l) with (length l + 0)%nat at 1 by lia.
  rewrite insert_app_r. reflexivity.
Qed.

Lemma resize_datum_branch capacity capacity' num_entries b :
  tables_sized capacity b -> capacity < capacity' ->
  resize_datum capacity' num_entries (branch_datum b)
  = (branch_datum (grown_branch capacity capacity' num_entries b), None).
Proof.
  intros (Hb & He & Hs) Hlt. unfold resize_datum.
  rewrite !copy_prefix_zeros by lia.
  rewrite np_set_zeros by lia.
  unfold grown_branch. rewrite Hb, He, Hs. reflexivity.
Qed.

Lemma resize_all_branches capacity capacity' num_entries data :
  all_branches_sized capacity data -> capacity < capacity' ->
  resize_all capacity' num_entries data
  = (map (grown_datum capacity capacity' num_entries) data, None).
Proof.
  intros Hall Hlt. induction Hall as [|d rest (b & -> & Hsized) _ IH].
  - reflexivity.
  - cbn [resize_all map grown_datum].
    rewrite (resize_datum_branch _ _ _ _ Hsized Hlt), IH. reflexivity.
Qed.

Lemma grown_capacity_gt capacity resize_factor capacity' :
  grown_capacity capacity resize_factor = Ok capacity' ->
  capacity + 1 <= capacity'.
Proof.
  unfold grown_capacity, rbind.
  destruct (ceil_product capacity resize_factor) as [n|e]; [|discriminate].
  intros H. inversion H. lia.
Qed.

(** Without a record among the branches the first step of [extend] does
    what the specification says: at [num_baskets >= capacity - 1] the
    capacity becomes [max(capacity + 1, ceil(capacity * resize_factor))],
    when this can be computed, and every branch gets its three tables
    resized, the old entries kept and [fBasketEntry] at the old capacity
    set to the number of entries. *)
Lemma expand_capacity_grows t capacity' :
  all_branches_sized (_basket_capacity t) (_branch_data t) ->
  _num_baskets t >= _basket_capacity t - 1 ->
  grown_capacity (_basket_capacity t) (_resize_factor t) = Ok capacity' ->
  exists t',
    expand_capacity t = (Ok tt, t') /\
    _basket_capacity t' = capacity' /\
    _branch_data t'
    = map (grown_datum (_basket_capacity t) capacity' (_num_entries t))
        (_branch_data t) /\
    _num_entries t' = _num_entries t /\
    _num_baskets t' = _num_baskets t.
Proof.
  intros Hall Hfull Hgrown. unfold expand_capacity.
  unfold mbind' at 1. unfold get_self at 1.
  destruct (Z.geb_spec (_num_baskets t) (_basket_capacity t - 1)) as [_|?]; [|lia].
  rewrite (mbind_lift_ok _ _ _ _ Hgrown).
  unfold mbind' at 1. unfold modify at 1.
  rewrite (resize_all_branches (_basket_capacity t))
    by (try assumption; apply grown_capacity_gt in Hgrown; lia).
  eexists. split; [reflexivity|]. repeat split.
Qed.

(** Below that the capacity and the tables stay as they are. *)
Lemma expand_capacity_idle t :
  _num_baskets t < _basket_capacity t - 1 -> expand_capacity t = (Ok tt, t).
Proof.
  intros H. unfold expand_capacity, mbind', get_self.
  destruct (Z.geb_spec (_num_baskets t) (_basket_capacity t - 1)); [lia|].
  reflexivity.
Qed.

End Growth.

(** C4.  A tree with the record branch [r] reaches its capacity at the
    first call of [extend]: the capacity becomes 10, and the loop over
    [_branch_data] raises [KeyError] at the dict of the record, which has
    no tables; the tables of its field [r_x] keep their one entry and
    nothing is written. *)
Theorem extend_growth_stops_at_record :
  cascadetree._num_baskets example_record_tree
  >= cascadetree._basket_capacity example_record_tree - 1 /\
  fst (cascadetree.extend example_record_batch example_record_tree)
  = Raise KeyError /\
  cascadetree._basket_capacity
    (snd (cascadetree.extend example_record_batch example_record_tree)) = 10 /\
  cascadetree._branch_data
    (snd (cascadetree.extend example_record_batch example_record_tree))
  = cascadetree._branch_data example_record_tree /\
  cascadetree.sink
    (snd (cascadetree.extend example_record_batch example_record_tree)) = [].
Proof.
  split; [vm_compute; discriminate|]. repeat split; vm_compute; reflexivity.
Qed.

(** ** Jagged baskets *)

Section JaggedBasket.
Context {W : cascadetree.Writing}.
Import cascadetree.

Lemma scale_offsets_exact s K offsets :
  Forall (fun o => - 2 ^ 31 <= o * s < 2 ^ 31 /\
                   - 2 ^ 31 <= o * s + K < 2 ^ 31) offsets ->
  scale_offsets s K offsets = map (fun o => o * s + K) offsets.
Proof.
  intros H. unfold scale_offsets.
  induction H as [|o l [H1 H2] _ IH]; [reflexivity|].
  cbn [map]. rewrite IH. f_equal.
  rewrite (wrap_signed_id 32 (o * s)) by (cbn; lia).
  apply wrap_signed_id; cbn; lia.
Qed.

Lemma last_map_nonempty {A B} (f : A -> B) l d d' :
  l <> [] -> List.last (map f l) d' = f (List.last l d).
Proof.
  induction l as [|a [|b l] IH]; intros Hne; [congruence|reflexivity|].
  change (List.last (map f (b :: l)) d' = f (List.last (b :: l) d)).
  apply IH. discriminate.
Qed.

Lemma find_datum_lookup name t i d t' :
  find_datum name t = (Ok (i, d), t') ->
  t' = t /\ _branch_data t !! i = Some d.
Proof.
  unfold find_datum, mbind', get_self, ret, raise.
  destruct (dict_get name (_branch_lookup t)) as [j|]; [|discriminate].
  destruct (_branch_data t !! j) as [d'|] eqn:Hd; [|discriminate].
  intros H. inversion H; subst. split; [reflexivity|assumption].
Qed.

Lemma update_branch_at i f t b :
  _branch_data t !! i = Some (branch_datum b) ->
  update_branch i f t
  = (Ok tt, set_branch_data (<[i := branch_datum (f b)]> (_branch_data t)) t).
Proof. intros H. unfold update_branch, modify. rewrite H. reflexivity. Qed.

Lemma zero_last_length (l : list Z) :
  l <> [] -> length (zero_last l) = length l.
Proof.
  intros Hne. unfold zero_last.
  destruct (exists_last Hne) as (l' & a & ->).
  rewrite removelast_last, !length_app. reflexivity.
Qed.

(** [write_jagged_basket] allocates the basket, sends its bytes to the
    sink and returns its length and place. *)
Lemma write_jagged_basket_eq t branch_name array offsets :
  offsets <> [] ->
  Forall (fun o =>
            - 2 ^ 31 <= o * basket_itemsize array < 2 ^ 31 /\
            - 2 ^ 31 <= o * basket_itemsize array
                        + fKeylen_of (_name t) branch_name < 2 ^ 31) offsets ->
  let N := jagged_basket_nbytes t branch_name array offsets in
  let location := fst (allocate (_freesegments t) N) in
  let fs := snd (allocate (_freesegments t) N) in
  write_jagged_basket branch_name array offsets t
  = (Ok (N, N, location),
     emit Flush
       (emit (SetFileLength (fileheader_end fs))
          (emit (SinkWrite location
                   (jagged_basket_bytes t branch_name array offsets location))
             (set_freesegments fs t)))).
Proof.
  intros Hne Hrange N location fs.
  unfold write_jagged_basket. unfold mbind' at 1. unfold get_self at 1.
  rewrite (scale_offsets_exact _ _ _ Hrange).
  assert (Hm : map (fun o => o * basket_itemsize array
                             + fKeylen_of (_name t) branch_name) offsets <> []).
  { destruct offsets; [congruence|discriminate]. }
  pose proof (zero_last_length _ Hm) as Hzl.
  destruct (map _ offsets) as [|o' l'] eqn:Hmap; [congruence|].
  rewrite <- Hmap in Hzl |- *.
  rewrite Hzl, length_map.
  rewrite (last_map_nonempty _ offsets 0 0 Hne).
  unfold zero_last.
  fold (jagged_basket_nbytes t branch_name array offsets). fold N.
  unfold do_allocate, sink_write, mbind', get_self, modify, ret. cbv beta.
  subst location fs. destruct (allocate (_freesegments t) N) as [loc fs'].
  reflexivity.
Qed.

Lemma update_branch_ok i f t b :
  _branch_data t !! i = Some (branch_datum b) ->
  exists t',
    update_branch i f t = (Ok tt, t') /\
    _branch_data t' !! i = Some (branch_datum (f b)) /\
    same_frame t t'.
Proof.
  intros H. rewrite (update_branch_at _ _ _ _ H). eexists. split; [reflexivity|].
  split.
  - cbn. apply list_lookup_insert_eq. eapply lookup_lt_Some. exact H.
  - repeat split. cbn. apply length_insert.
Qed.

Lemma np_set_ok a i x :
  0 <= i < Z.of_nat (length a) ->
  exists a', np_set a i x = Ok a' /\ length a' = length a.
Proof.
  intros H. unfold np_set.
  destruct (Z.leb_spec 0 i); [|lia]. destruct (Z.ltb_spec i (Z.of_nat (length a))); [|lia].
  eexists. split; [reflexivity|]. apply length_insert.
Qed.

Lemma np_get_ok a i :
  0 <= i < Z.of_nat (length a) -> exists x, np_get a i = Ok x.
Proof.
  intros H. unfold np_get.
  destruct (Z.leb_spec 0 i); [|lia]. destruct (Z.ltb_spec i (Z.of_nat (length a))); [|lia].
  cbn [andb]. destruct (a !! Z.to_nat i) as [x|] eqn:Hx; [eauto|].
  apply lookup_ge_None in Hx. lia.
Qed.

(** The updates of the tables succeed when the tables have room, and
    leave [fEntryOffsetLen] as it is. *)
Lemma record_basket_ok i n zipbytes location t b :
  _branch_data t !! i = Some (branch_datum b) ->
  tables_sized (_basket_capacity t) b ->
  0 <= _num_baskets t < _basket_capacity t ->
  exists t' b',
    record_basket i n zipbytes location t = (Ok tt, t') /\
    _branch_data t' !! i = Some (branch_datum b') /\
    fEntryOffsetLen b' = fEntryOffsetLen b /\
    sink t' = sink t.
Proof.
  intros Hb (Hbytes & Hentry & Hseek) Hroom.
  unfold record_basket. unfold mbind' at 1. unfold get_self at 1. rewrite Hb.
  destruct (np_set_ok (fBasketBytes b) (_num_baskets t) zipbytes)
    as (bytes & Hset1 & _); [lia|].
  rewrite (mbind_lift_ok _ _ _ _ Hset1).
  destruct (update_branch_ok i
              (fun b => set_tables bytes (fBasketEntry b) (fBasketSeek b) b)
              t b Hb) as (t1 & Hu1 & Hb1 & Hs1 & Hn1 & Hc1 & Hl1).
  rewrite (mbind_ok _ _ _ _ _ Hu1).
  assert (Hentry' : exists entry,
    (if _num_baskets t + 1 <? _basket_capacity t
     then mbind' (lift (np_get (fBasketEntry b) (_num_baskets t)))
            (fun e => lift (np_set (fBasketEntry b) (_num_baskets t + 1) (n + e)))
     else ret (fBasketEntry b)) t1 = (Ok entry, t1)).
  { destruct (Z.ltb_spec (_num_baskets t + 1) (_basket_capacity t)).
    - destruct (np_get_ok (fBasketEntry b) (_num_baskets t)) as (e & Hget); [lia|].
      destruct (np_set_ok (fBasketEntry b) (_num_baskets t + 1) (n + e))
        as (entry & He & _); [lia|].
      exists entry. rewrite (mbind_lift_ok _ _ _ _ Hget).
      unfold lift. rewrite He. reflexivity.
    - eexists. reflexivity. }
  destruct Hentry' as (entry & He). rewrite (mbind_ok _ _ _ _ _ He).
  destruct (update_branch_ok i
              (fun b => set_tables (fBasketBytes b) entry (fBasketSeek b) b)
              t1 _ Hb1) as (t2 & Hu2 & Hb2 & Hs2 & Hn2 & Hc2 & Hl2).
  rewrite (mbind_ok _ _ _ _ _ Hu2).
  destruct (np_set_ok (fBasketSeek b) (_num_baskets t) location)
    as (seek & Hset3 & _); [lia|].
  rewrite (mbind_lift_ok _ _ _ _ Hset3).
  destruct (update_branch_ok i
              (fun b => set_tables (fBasketBytes b) (fBasketEntry b) seek b)
              t2 _ Hb2) as (t3 & Hu3 & Hb3 & Hs3 & _).
  rewrite Hu3.
  eexists. eexists. split; [reflexivity|]. split; [exact Hb3|].
  split; [reflexivity|]. congruence.
Qed.

(** C5.  The body of the basket loop of [extend] for a jagged branch, whose
    scaled offsets fit the [>i4] array: the bytes written to the sink are
    the key, the three strings and the sub-header, whose [fLast] is the
    true last offset [o[-1] * s + fKeylen], the zero byte that ends the
    key, and then the raw data bytes, a u32 equal to [len(o)], and the
    array [o * s + fKeylen] with its last element replaced by 0; and the
    branch ends with [fEntryOffsetLen = 4 * (len(o) - 1)]. *)
Theorem jagged_basket_layout t branch_name array offsets n i b :
  offsets <> [] ->
  Forall (fun o =>
            - 2 ^ 31 <= o * basket_itemsize array < 2 ^ 31 /\
            - 2 ^ 31 <= o * basket_itemsize array
                        + fKeylen_of (_name t) branch_name < 2 ^ 31) offsets ->
  find_datum branch_name t = (Ok (i, branch_datum b), t) ->
  tables_sized (_basket_capacity t) b ->
  0 <= _num_baskets t < _basket_capacity t ->
  let N := jagged_basket_nbytes t branch_name array offsets in
  let location := fst (allocate (_freesegments t) N) in
  let fs := snd (allocate (_freesegments t) N) in
  exists t' b',
    basket_step (branch_name, array, Some offsets) (Some n) t = (Ok (N, N), t') /\
    sink t' = sink t ++
              [SinkWrite location
                 (jagged_basket_bytes t branch_name array offsets location);
               SetFileLength (fileheader_end fs); Flush] /\
    _branch_data t' !! i = Some (branch_datum b') /\
    fEntryOffsetLen b' = 4 * (Z.of_nat (length offsets) - 1).
Proof.
  intros Hne Hrange Hfind Hsized Hroom N location fs.
  destruct (find_datum_lookup _ _ _ _ _ Hfind) as [_ Hb].
  unfold basket_step. rewrite (mbind_ok _ _ _ _ _ Hfind).
  pose proof (write_jagged_basket_eq t branch_name array offsets Hne Hrange)
    as Hwrite. cbv zeta in Hwrite. fold N location fs in Hwrite.
  set (t1 := emit Flush _) in Hwrite.
  assert (Hb1 : _branch_data t1 !! i = Some (branch_datum b)) by exact Hb.
  destruct (update_branch_ok i
              (set_fEntryOffsetLen (4 * (Z.of_nat (length offsets) - 1)))
              t1 b Hb1) as (t2 & Hu2 & Hb2 & Hs2 & Hn2 & Hc2 & Hl2).
  destruct (update_branch_ok i (add_bytes N N) t2 _ Hb2)
    as (t3 & Hu3 & Hb3 & Hs3 & Hn3 & Hc3 & Hl3).
  destruct (record_basket_ok i n N location t3 _ Hb3)
    as (t4 & b4 & Hr4 & Hb4 & Hf4 & Hs4).
  { rewrite Hc3, Hc2. exact Hsized. }
  { rewrite Hn3, Hn2, Hc3, Hc2. exact Hroom. }
  exists t4, b4. split.
  - unfold mbind' at 1. unfold mbind' at 1. rewrite Hwrite.
    rewrite (mbind_ok _ _ _ _ _ Hu2). unfold ret at 1.
    rewrite (mbind_ok _ _ _ _ _ Hu3). unfold mbind' at 1. unfold ret at 1.
    rewrite (mbind_ok _ _ _ _ _ Hr4). reflexivity.
  - split.
    + rewrite Hs4, Hs3, Hs2. subst t1. cbn. rewrite <- !app_assoc. reflexivity.
    + split; [exact Hb4|]. rewrite Hf4. reflexivity.
Qed.

End JaggedBasket.

(** ** Validation of the input of [extend] *)

Section Frames.
Context {W : cascadetree.Writing}.
Import cascadetree.
Context (P : Tree -> Tree -> Prop).
Context (P_refl : forall t, P t t).
Context (P_trans : forall t1 t2 t3, P t1 t2 -> P t2 t3 -> P t1 t3).

Lemma preserves_ret {A} (a : A) : preserves P (ret a).
Proof. intros t r t' H. inversion H. apply P_refl. Qed.

Lemma preserves_raise {A} (e : exn) : preserves P (raise (A:=A) e).
Proof. intros t r t' H. inversion H. apply P_refl. Qed.

Lemma preserves_lift {A} (x : result A) : preserves P (lift x).
Proof. intros t r t' H. inversion H. apply P_refl. Qed.

Lemma preserves_get : preserves P get_self.
Proof. intros t r t' H. inversion H. apply P_refl. Qed.

Lemma preserves_modify f : (forall t, P t (f t)) -> preserves P (modify f).
Proof. intros Hf t r t' H. inversion H. apply Hf. Qed.

Lemma preserves_bind {A B} (m : T A) (k : A -> T B) :
  preserves P m -> (forall a, preserves P (k a)) -> preserves P (mbind' m k).
Proof.
  intros Hm Hk t r t'. unfold mbind'.
  destruct (m t) as [[a|e] t1] eqn:Hmt.
  - intros H. eapply P_trans; [eapply Hm; eassumption|eapply Hk; eassumption].
  - intros H. inversion H; subst. eapply Hm; eassumption.
Qed.

End Frames.

Section Validation.
Context {W : cascadetree.Writing}.
Import cascadetree.

Lemma validation_frame_refl t : validation_frame t t.
Proof. repeat split. intros i b H. eauto. Qed.

Lemma validation_frame_trans t1 t2 t3 :
  validation_frame t1 t2 -> validation_frame t2 t3 -> validation_frame t1 t3.
Proof.
  intros (Hs & Hn & Hl & Hb) (Hs' & Hn' & Hl' & Hb').
  repeat split; try congruence.
  intros i b H. destruct (Hb i b H) as (b' & H' & Hc).
  destruct (Hb' i b' H') as (b'' & H'' & Hc'). exists b''. split; congruence.
Qed.

Lemma update_branch_validation i f :
  (forall b, counter (f b) = counter b) ->
  preserves validation_frame (update_branch i f).
Proof.
  intros Hf. unfold update_branch. apply preserves_modify. intros t.
  destruct (_branch_data t !! i) as [[name keys|b0]|] eqn:Hi;
    try apply validation_frame_refl.
  repeat split. intros j b Hj. cbn.
  destruct (decide (i = j)) as [<-|Hne].
  - rewrite list_lookup_insert_eq by (eapply lookup_lt_Some; exact Hi).
    exists (f b0). split; [reflexivity|]. rewrite Hf. congruence.
  - rewrite list_lookup_insert_ne by assumption. eauto.
Qed.

Lemma find_datum_fits t name arr :
  branch_fits t (name, arr) ->
  exists i b, find_datum name t = (Ok (i, branch_datum b), t) /\ array_fits b arr.
Proof.
  intros (i & b & Hl & Hd & Hfit). exists i, b. split; [|exact Hfit].
  unfold find_datum, mbind', get_self. cbn [fst] in Hl. rewrite Hl, Hd. reflexivity.
Qed.

Lemma find_datum_frame name : preserves validation_frame (find_datum name).
Proof.
  unfold find_datum. apply preserves_bind;
    [apply validation_frame_trans|apply preserves_get; apply validation_frame_refl|].
  intros t0. destruct (dict_get name (_branch_lookup t0));
    [|apply preserves_raise; apply validation_frame_refl].
  destruct (_branch_data t0 !! n);
    [apply preserves_ret|apply preserves_raise]; apply validation_frame_refl.
Qed.

Lemma encode_flat_frame i b arr : preserves validation_frame (encode_flat i b arr).
Proof.
  unfold encode_flat. destruct arr as [row_shape rows| |];
    try (apply preserves_raise; apply validation_frame_refl).
  destruct (decide (row_shape = shape b));
    [|apply preserves_raise; apply validation_frame_refl].
  destruct (kind b); [apply preserves_ret; apply validation_frame_refl|].
  apply preserves_bind;
    [apply validation_frame_trans|apply preserves_lift; apply validation_frame_refl|].
  intros m. apply preserves_bind; [apply validation_frame_trans| |].
  - apply update_branch_validation. reflexivity.
  - intros _. apply preserves_ret. apply validation_frame_refl.
Qed.

Lemma encode_jagged_frame b arr : preserves validation_frame (encode_jagged b arr).
Proof.
  unfold encode_jagged. destruct arr as [|offsets item_shape content|];
    try (apply preserves_raise; apply validation_frame_refl).
  destruct offsets as [|o0 rest];
    [apply preserves_raise; apply validation_frame_refl|].
  destruct (decide (item_shape = shape b));
    [apply preserves_ret|apply preserves_raise]; apply validation_frame_refl.
Qed.

Lemma encode_flat_error i b arr t e t' :
  counter b = None -> array_fits b arr ->
  encode_flat i b arr t = (Raise e, t') -> e = ValueError.
Proof.
  intros Hc Hfit. unfold array_fits in Hfit. rewrite Hc in Hfit.
  destruct arr as [row_shape rows| |]; try contradiction.
  unfold encode_flat. destruct (decide (row_shape = shape b));
    [|intros H; inversion H; reflexivity].
  destruct (kind b); [discriminate|].
  unfold mbind', lift. destruct (np_max _) as [m|e'] eqn:Hm.
  - destruct (update_branch i _ t) as [[[]|e''] t1] eqn:Hu; [discriminate|].
    unfold update_branch, modify in Hu. inversion Hu.
  - destruct (concat rows); [|discriminate]. inversion Hm; subst.
    intros H. inversion H. reflexivity.
Qed.

Lemma encode_jagged_error b arr t e t' c :
  counter b = Some c -> array_fits b arr ->
  encode_jagged b arr t = (Raise e, t') -> e = ValueError.
Proof.
  intros Hc Hfit. unfold array_fits in Hfit. rewrite Hc in Hfit.
  destruct arr as [|[|o0 rest] item_shape content|]; try contradiction.
  unfold encode_jagged. destruct (decide (item_shape = shape b));
    [discriminate|]. intros H. inversion H. reflexivity.
Qed.

Lemma fill_loop_frame items :
  forall num_entries tofill,
    preserves validation_frame (fill_loop items num_entries tofill).
Proof.
  induction items as [|[name arr] rest IH]; intros num_entries tofill.
  - apply preserves_ret. apply validation_frame_refl.
  - cbn [fill_loop].
    apply preserves_bind;
      [apply validation_frame_trans|apply preserves_lift; apply validation_frame_refl|].
    intros ne. apply preserves_bind;
      [apply validation_frame_trans|apply find_datum_frame|].
    intros [i d]. destruct d as [rname keys|b]; [apply IH|].
    destruct (counter b).
    + apply preserves_bind;
        [apply validation_frame_trans|apply encode_jagged_frame|].
      intros [be offs]. apply IH.
    + apply preserves_bind;
        [apply validation_frame_trans|apply encode_flat_frame|].
      intros be. apply IH.
Qed.

Lemma branch_fits_frame t t' item :
  validation_frame t t' -> branch_fits t item -> branch_fits t' item.
Proof.
  intros (_ & _ & Hl & Hb) (i & b & Hi & Hd & Hfit).
  destruct (Hb i b Hd) as (b' & Hd' & Hc).
  exists i, b'. split; [congruence|]. split; [exact Hd'|].
  unfold array_fits in *. rewrite Hc. exact Hfit.
Qed.

Lemma check_entries_raises num_entries arr e :
  check_entries num_entries arr = Raise e -> e = ValueError.
Proof.
  unfold check_entries. destruct num_entries as [n|]; [|discriminate].
  destruct (n =? py_len arr); [discriminate|]. intros H. inversion H. reflexivity.
Qed.

Lemma check_entries_ok num_entries arr ne :
  check_entries num_entries arr = Ok ne ->
  ne = Some (py_len arr) /\ (num_entries = None \/ num_entries = ne).
Proof.
  unfold check_entries. destruct num_entries as [n|].
  - destruct (Z.eqb_spec n (py_len arr)); [|discriminate].
    intros H. inversion H; subst. split; [reflexivity|]. right. reflexivity.
  - intros H. inversion H. split; [reflexivity|]. left. reflexivity.
Qed.

Lemma lengths_differ_tail num_entries name arr rest :
  lengths_differ num_entries ((name, arr) :: rest) ->
  (num_entries = None \/ num_entries = Some (py_len arr)) ->
  lengths_differ (Some (py_len arr)) rest.
Proof.
  intros Hd [-> | ->]; cbn [lengths_differ] in *.
  - destruct Hd as (a & b & [<-|Ha] & [<-|Hb] & Hne); cbn [snd] in *.
    + congruence.
    + exists b. split; [assumption|congruence].
    + exists a. split; assumption.
    + destruct (Z.eq_dec (py_len (snd a)) (py_len arr)) as [Heq|Hneq].
      * exists b. split; [assumption|congruence].
      * exists a. split; assumption.
  - destruct Hd as (a & [<-|Ha] & Hne); cbn [snd] in *; [congruence|].
    exists a. split; assumption.
Qed.

(** The validation loop stops with [ValueError] when the lengths of the
    arrays differ. *)
Lemma fill_loop_raises items :
  forall num_entries tofill t,
    Forall (branch_fits t) items ->
    lengths_differ num_entries items ->
    exists t', fill_loop items num_entries tofill t = (Raise ValueError, t').
Proof.
  induction items as [|[name arr] rest IH]; intros num_entries tofill t Hfits Hd.
  - destruct num_entries; cbn in Hd.
    + destruct Hd as (a & [] & _).
    + destruct Hd as (a & b & [] & _).
  - inversion Hfits as [|x l Hfit Hrest]; subst.
    cbn [fill_loop]. unfold mbind' at 1. unfold lift at 1.
    destruct (check_entries num_entries arr) as [ne|e] eqn:Hc.
    2:{ rewrite (check_entries_raises _ _ _ Hc). eauto. }
    destruct (check_entries_ok _ _ _ Hc) as [-> Hprev].
    assert (Hd' : lengths_differ (Some (py_len arr)) rest).
    { apply (lengths_differ_tail num_entries name); [exact Hd|].
      destruct Hprev as [-> | ->]; [left|right]; reflexivity. }
    destruct (find_datum_fits _ _ _ Hfit) as (i & b & Hfind & Hfitb).
    rewrite (mbind_ok _ _ _ _ _ Hfind).
    destruct (counter b) as [c|] eqn:Hcounter.
    + unfold mbind' at 1.
      destruct (encode_jagged b arr t) as [[[be offs]|e] t1] eqn:He.
      * apply IH; [|exact Hd'].
        eapply Forall_impl; [exact Hrest|]. intros item.
        apply branch_fits_frame. eapply encode_jagged_frame. exact He.
      * rewrite (encode_jagged_error _ _ _ _ _ _ Hcounter Hfitb He). eauto.
    + unfold mbind' at 1.
      destruct (encode_flat i b arr t) as [[be|e] t1] eqn:He.
      * apply IH; [|exact Hd'].
        eapply Forall_impl; [exact Hrest|]. intros item.
        apply branch_fits_frame. eapply encode_flat_frame. exact He.
      * rewrite (encode_flat_error _ _ _ _ _ _ Hcounter Hfitb He). eauto.
Qed.

(** When the validation loop returns, all the arrays have the length that
    it returns. *)
Lemma fill_loop_lengths items :
  forall num_entries tofill t ne tofill' t',
    fill_loop items num_entries tofill t = (Ok (ne, tofill'), t') ->
    match ne with
    | Some n =>
        Forall (fun item => py_len (snd item) = n) items /\
        (num_entries = None \/ num_entries = Some n)
    | None => items = [] /\ num_entries = None
    end.
Proof.
  induction items as [|[name arr] rest IH];
    intros num_entries tofill t ne tofill' t'.
  - cbn. intros H. inversion H; subst. destruct ne; auto.
  - cbn [fill_loop]. unfold mbind' at 1. unfold lift at 1.
    destruct (check_entries num_entries arr) as [ne0|e] eqn:Hc; [|discriminate].
    destruct (check_entries_ok _ _ _ Hc) as [-> Hprev].
    intros H.
    assert (Hrec : exists tofill0 t0,
      fill_loop rest (Some (py_len arr)) tofill0 t0 = (Ok (ne, tofill'), t')).
    { unfold mbind' at 1 in H.
      destruct (find_datum name t) as [[[i d]|e] t1]; [|discriminate].
      destruct d as [rname keys|b]; [eauto|].
      destruct (counter b); unfold mbind' at 1 in H.
      - destruct (encode_jagged b arr t1) as [[[be offs]|e] t2]; [eauto|discriminate].
      - destruct (encode_flat i b arr t1) as [[be|e] t2]; [eauto|discriminate]. }
    destruct Hrec as (tofill0 & t0 & Hrec).
    specialize (IH _ _ _ _ _ _ Hrec). destruct ne as [n|].
    + destruct IH as [Hall [Hn|Hn]]; [discriminate|]. inversion Hn; subst.
      split; [constructor; [reflexivity|exact Hall]|].
      destruct Hprev as [-> | ->]; [left|right]; reflexivity.
    + destruct IH as [_ Hn]. discriminate.
Qed.

End Validation.

Section ExtendFrames.
Context {W : cascadetree.Writing}.
Import cascadetree.

Lemma entries_kept_refl t : entries_kept t t.
Proof. reflexivity. Qed.

Lemma entries_kept_trans t1 t2 t3 :
  entries_kept t1 t2 -> entries_kept t2 t3 -> entries_kept t1 t3.
Proof. unfold entries_kept. congruence. Qed.

Ltac entries_step :=
  first
    [ apply preserves_ret; apply entries_kept_refl
    | apply preserves_raise; apply entries_kept_refl
    | apply preserves_lift; apply entries_kept_refl
    | apply preserves_get; apply entries_kept_refl
    | apply preserves_modify; intros ?; reflexivity
    | apply preserves_bind; [apply entries_kept_trans| |intros ?] ].

Ltac entries_case :=
  match goal with
  | |- preserves _ (match ?x with _ => _ end) => destruct x
  | |- preserves _ (let '(_, _) := ?x in _) => destruct x
  end.

Lemma update_branch_entries i f : preserves entries_kept (update_branch i f).
Proof.
  unfold update_branch. apply preserves_modify. intros t.
  destruct (_branch_data t !! i) as [[|]|]; reflexivity.
Qed.

Lemma find_datum_entries name : preserves entries_kept (find_datum name).
Proof. unfold find_datum. repeat (entries_step || entries_case). Qed.

Lemma do_allocate_entries n : preserves entries_kept (do_allocate n).
Proof. unfold do_allocate. repeat (entries_step || entries_case). Qed.

Lemma sink_write_entries location out :
  preserves entries_kept (sink_write location out).
Proof. unfold sink_write. repeat entries_step. Qed.

Lemma write_np_basket_entries name array :
  preserves entries_kept (write_np_basket name array).
Proof.
  unfold write_np_basket.
  repeat first [apply do_allocate_entries | apply sink_write_entries
               | entries_step | entries_case].
Qed.

Lemma write_jagged_basket_entries name array offsets :
  preserves entries_kept (write_jagged_basket name array offsets).
Proof.
  unfold write_jagged_basket.
  repeat first [apply do_allocate_entries | apply sink_write_entries
               | entries_step | entries_case].
Qed.

Lemma record_basket_entries i n zipbytes location :
  preserves entries_kept (record_basket i n zipbytes location).
Proof.
  unfold record_basket.
  repeat first [apply update_branch_entries | entries_step | entries_case].
Qed.

Lemma basket_step_entries item num_entries :
  preserves entries_kept (basket_step item num_entries).
Proof.
  unfold basket_step. destruct item as [[name array] offsets].
  repeat first [apply update_branch_entries | apply find_datum_entries
               | apply write_np_basket_entries
               | apply write_jagged_basket_entries
               | apply record_basket_entries
               | entries_step | entries_case].
Qed.

Lemma basket_loop_entries tofill :
  forall num_entries u c,
    preserves entries_kept (basket_loop tofill num_entries u c).
Proof.
  induction tofill as [|item rest IH]; intros num_entries u c.
  - apply preserves_ret. apply entries_kept_refl.
  - cbn [basket_loop]. apply preserves_bind;
      [apply entries_kept_trans|apply basket_step_entries|].
    intros [totbytes zipbytes]. apply IH.
Qed.

Lemma growth_frame_refl t : growth_frame t t.
Proof. split; [reflexivity|]. intros l d H. exact H. Qed.

Lemma growth_frame_trans t1 t2 t3 :
  growth_frame t1 t2 -> growth_frame t2 t3 -> growth_frame t1 t3.
Proof.
  intros [Hn Hs] [Hn' Hs']. split; [congruence|].
  intros l d H. apply Hs, Hs', H.
Qed.

Lemma growth_frame_emit e t :
  (forall l d, e <> SinkWrite l d) -> growth_frame t (emit e t).
Proof.
  intros He. split; [reflexivity|]. intros l d. cbn.
  rewrite in_app_iff. intros [H|[H|[]]]; [exact H|]. destruct (He l d H).
Qed.

(** The capacity step writes no basket and adds no entries. *)
Lemma expand_capacity_frame : preserves growth_frame expand_capacity.
Proof.
  unfold expand_capacity.
  apply preserves_bind;
    [apply growth_frame_trans|apply preserves_get; apply growth_frame_refl|].
  intros t0. destruct (_num_baskets t0 >=? _basket_capacity t0 - 1);
    [|apply preserves_ret; apply growth_frame_refl].
  apply preserves_bind;
    [apply growth_frame_trans|apply preserves_lift; apply growth_frame_refl|].
  intros capacity.
  apply preserves_bind; [apply growth_frame_trans| |intros _].
  { apply preserves_modify. intros t. split; [reflexivity|intros l d H; exact H]. }
  destruct (resize_all _ _ _) as [data e].
  apply preserves_bind; [apply growth_frame_trans| |intros _].
  { apply preserves_modify. intros t. split; [reflexivity|intros l d H; exact H]. }
  destruct e as [e|]; [apply preserves_raise; apply growth_frame_refl|].
  repeat (apply preserves_bind; [apply growth_frame_trans| |intros ?]);
    try (apply preserves_get; apply growth_frame_refl);
    apply preserves_modify; intros t;
    first [ apply growth_frame_emit; intros l d; discriminate
          | split; [reflexivity|intros l d H; exact H] ].
Qed.

End ExtendFrames.

Section ExtendValidation.
Context {W : cascadetree.Writing}.
Import cascadetree.

(** C10.  After the capacity step, with [actual] the arrays that [extend]
    has matched to the branches: when each array is of the sort its branch
    takes and two of them differ in length, [extend] raises [ValueError]
    in its validation loop and no basket has reached the sink; and
    whenever [extend] returns, all the arrays have one length, which is
    the number of entries added to the tree. *)
Theorem extend_checks_lengths t data t1 actual :
  expand_capacity t = (Ok tt, t1) ->
  collect_branches (_field_name t1) (_branch_data t1)
    (normalize (_counter_name t1) data []) [] = Ok ([], actual) ->
  (Forall (branch_fits t1) actual ->
   lengths_differ None actual ->
   exists t2,
     extend data t = (Raise ValueError, t2) /\ no_basket_written t t2) /\
  (forall t',
     extend data t = (Ok tt, t') ->
     exists n,
       Forall (fun item => py_len (snd item) = n) actual /\
       _num_entries t' = _num_entries t + n).
Proof.
  intros Hexp Hcollect.
  destruct (expand_capacity_frame _ _ _ Hexp) as [Hn1 Hs1].
  assert (Hext : extend data t =
    mbind' (fill_loop actual None [])
      (fun '(num_entries, tofill) =>
         mbind' (basket_loop tofill num_entries 0 0)
           (fun '(uncompressed_bytes, compressed_bytes) =>
              match num_entries with
              | None => raise TypeError
              | Some n =>
                  mbind'
                    (modify (fun t =>
                       set_counters (_num_entries t + n) (_num_baskets t + 1)
                         (metadata_fTotBytes t + uncompressed_bytes)
                         (metadata_fZipBytes t + compressed_bytes) t))
                    (fun _ => write_updates)
              end)) t1).
  { unfold extend. rewrite (mbind_ok _ _ _ _ _ Hexp).
    unfold mbind' at 1. unfold get_self at 1.
    rewrite (mbind_lift_ok _ _ _ _ Hcollect). reflexivity. }
  rewrite Hext. split.
  - intros Hfits Hdiff.
    destruct (fill_loop_raises actual None [] t1 Hfits Hdiff) as (t2 & Hfill).
    exists t2. split; [apply (mbind_raise _ _ _ _ _ Hfill)|].
    destruct (fill_loop_frame _ _ _ _ _ _ Hfill) as (Hs2 & _).
    intros l d H. apply Hs1. rewrite <- Hs2. exact H.
  - intros t'. unfold mbind' at 1.
    destruct (fill_loop actual None [] t1) as [[[ne tofill]|e] t2] eqn:Hfill;
      [|discriminate].
    destruct (fill_loop_frame _ _ _ _ _ _ Hfill) as (_ & Hn2 & _).
    pose proof (fill_loop_lengths _ _ _ _ _ _ _ Hfill) as Hlen.
    unfold mbind' at 1.
    destruct (basket_loop tofill ne 0 0 t2) as [[[u c]|e] t3] eqn:Hloop;
      [|discriminate].
    pose proof (basket_loop_entries _ _ _ _ _ _ _ Hloop) as Hn3.
    unfold entries_kept in Hn3.
    destruct ne as [n|]; [|discriminate].
    intros H. inversion H; subst. exists n. split; [exact (proj1 Hlen)|].
    cbn. lia.
Qed.

End ExtendValidation.

Lemma extend_checks_lengths_witness :
  exists t2,
    cascadetree.extend example_uneven_batch (example_flat_tree 3)
    = (Raise ValueError, t2) /\
    no_basket_written (example_flat_tree 3) t2.
Proof.
  refine (proj1 (extend_checks_lengths (example_flat_tree 3)
                   example_uneven_batch (example_flat_tree 3)
                   example_uneven_batch _ _) _ _).
  - vm_compute. reflexivity.
  - vm_compute. reflexivity.
  - constructor; [|constructor; [|constructor]].
    + exists 0%nat, (example_branch "a" None 3).
      repeat split; vm_compute; reflexivity || exact I.
    + exists 1%nat, (example_branch "b" None 3).
      repeat split; vm_compute; reflexivity || exact I.
  - exists ("a"%string, cascadetree.Flat [] [[1]; [2]]),
           ("b"%string, cascadetree.Flat [] [[1]]).
    split; [left; reflexivity|]. split; [right; left; reflexivity|].
    vm_compute. discriminate.
Defined.

(** A call of [extend] with arrays of different lengths that does not
    raise [ValueError]: the counter [nv] gets two entries, the jagged
    branch [v] a NumPy array of two entries and the flat branch [a] three
    entries.  The validation loop takes the branches in their order, and
    at [v] it asks the array for its [layout], which a NumPy array does
    not have: [extend] raises [AttributeError] before it compares the
    length of [a]. *)
Theorem extend_attribute_error_before_length_check :
  lengths_differ None example_mixed_batch /\
  fst (cascadetree.extend example_mixed_batch example_mixed_tree)
  = Raise AttributeError /\
  cascadetree.sink
    (snd (cascadetree.extend example_mixed_batch example_mixed_tree)) = [].
Proof.
  split.
  - exists ("nv"%string, cascadetree.Flat [] [[1]; [1]]),
           ("a"%string, cascadetree.Flat [] [[1]; [2]; [3]]).
    split; [left; reflexivity|]. split; [right; right; left; reflexivity|].
    vm_compute. discriminate.
  - split; vm_compute; reflexivity.
Qed.

(** A batch of two entries for both branches is written, and the tree has
    two entries more. *)
Example extend_even_batch :
  fst (cascadetree.extend example_even_batch (example_flat_tree 3)) = Ok tt /\
  cascadetree._num_entries
    (snd (cascadetree.extend example_even_batch (example_flat_tree 3))) = 2.
Proof. split; vm_compute; reflexivity. Qed.

Lemma jagged_basket_layout_witness :
  exists t' b',
    cascadetree.basket_step
      ("v"%string, example_jagged_content, Some [0; 2; 5]) (Some 2)
      example_jagged_tree
    = (Ok (101, 101), t') /\
    cascadetree.sink t'
    = [cascadetree.SinkWrite 1000
         (jagged_basket_bytes example_jagged_tree "v" example_jagged_content
            [0; 2; 5] 1000);
       cascadetree.SetFileLength 1101; cascadetree.Flush] /\
    cascadetree._branch_data t' !! 1%nat = Some (cascadetree.branch_datum b') /\
    cascadetree.fEntryOffsetLen b' = 8.
Proof.
  refine (jagged_basket_layout example_jagged_tree "v" example_jagged_content
            [0; 2; 5] 2 1%nat example_jagged_branch _ _ _ _ _).
  - discriminate.
  - repeat constructor; vm_compute; discriminate || reflexivity.
  - vm_compute. reflexivity.
  - repeat split; vm_compute; reflexivity.
  - vm_compute. split; [discriminate|reflexivity].
Defined.

(** The bytes of that basket behind the 65 bytes of its key: the data,
    the count 3, and the offsets 65, 73 and 0. *)
Example jagged_basket_payload :
  skipn 65 (jagged_basket_bytes example_jagged_tree "v" example_jagged_content
              [0; 2; 5] 1000)
  = bytes_of [0; 0; 0; 1; 0; 0; 0; 2; 0; 0; 0; 3; 0; 0; 0; 4; 0; 0; 0; 5;
              0; 0; 0; 3;
              0; 0; 0; 65; 0; 0; 0; 73; 0; 0; 0; 0].
Proof. vm_compute. reflexivity. Qed.

(** * Further properties of the reader *)

(** ** Fields and frames *)

Lemma Z_of_byte_bound (b : Byte.byte) : 0 <= Z_of_byte b < 256.
Proof.
  unfold Z_of_byte. pose proof (Byte.to_N_bounded b) as H. lia.
Qed.

Lemma le_decode_bound (bs : list Byte.byte) :
  0 <= le_decode bs < 256 ^ Z.of_nat (length bs).
Proof.
  induction bs as [|b bs IH].
  - cbn. lia.
  - cbn [le_decode length]. rewrite Nat2Z.inj_succ, Z.pow_succ_r by lia.
    pose proof (Z_of_byte_bound b). lia.
Qed.

Lemma chunk_get_length chunk start stop bs :
  chunk_get chunk start stop = Ok bs ->
  length bs = Z.to_nat (stop - start).
Proof.
  unfold chunk_get.
  destruct (Z.leb_spec 0 (start - chunk_start chunk)); [|discriminate].
  destruct (Z.leb_spec (start - chunk_start chunk) (stop - chunk_start chunk));
    [|discriminate].
  destruct (Z.leb_spec (stop - chunk_start chunk)
              (Z.of_nat (length (raw_data chunk)))); [|discriminate].
  cbn [andb]. intros Heq. inversion Heq; subst.
  rewrite length_firstn, length_skipn. lia.
Qed.

Lemma cursor_bytes_spec n chunk cursor bs c :
  cursor_bytes n chunk cursor = Ok (bs, c) ->
  c = cursor + n /\ length bs = Z.to_nat n.
Proof.
  unfold cursor_bytes, rbind.
  destruct (chunk_get chunk cursor (cursor + n)) as [bs'|e] eqn:Hg; [|discriminate].
  intros Heq. inversion Heq; subst. split; [reflexivity|].
  rewrite (chunk_get_length _ _ _ _ Hg). f_equal. lia.
Qed.

Lemma field_u32_spec chunk cursor v c :
  field_u32 chunk cursor = Ok (v, c) -> c = cursor + 4 /\ 0 <= v < 2 ^ 32.
Proof.
  unfold field_u32, rbind.
  destruct (cursor_bytes 4 chunk cursor) as [[bs c']|e] eqn:Hb; [|discriminate].
  intros Heq. inversion Heq; subst.
  destruct (cursor_bytes_spec _ _ _ _ _ Hb) as [-> Hlen].
  split; [reflexivity|]. pose proof (le_decode_bound bs) as Hbound.
  rewrite Hlen in Hbound. exact Hbound.
Qed.

(** X1.  [RecordFrameReader.read]: the size field is an unsigned 32-bit
    number read at the cursor; the payload is read with a local cursor
    that starts four bytes later; and the outer cursor ends exactly [size]
    bytes after the start of the frame, however many bytes the payload
    has consumed.  An exception of the payload passes through. *)
Theorem RecordFrameReader_skips_size
    {A} (payload : Reader A) chunk cursor num_bytes local_cursor :
  field_u32 chunk cursor = Ok (num_bytes, local_cursor) ->
  local_cursor = cursor + 4 /\
  0 <= num_bytes < 2 ^ 32 /\
  (forall out c,
     payload chunk local_cursor = Ok (out, c) ->
     RecordFrameReader payload chunk cursor = Ok (out, cursor + num_bytes)) /\
  (forall e,
     payload chunk local_cursor = Raise e ->
     RecordFrameReader payload chunk cursor = Raise e).
Proof.
  intros Hf. destruct (field_u32_spec _ _ _ _ Hf) as [Hc Hb].
  split; [exact Hc|]. split; [exact Hb|].
  unfold RecordFrameReader. rewrite Hf. cbn [rbind].
  split.
  - intros out c Hp. rewrite Hp. reflexivity.
  - intros e Hp. rewrite Hp. reflexivity.
Qed.

Lemma RecordFrameReader_skips_size_witness :
  RecordFrameReader field_u16 example_record_frame 0 = Ok (263, 12).
Proof.
  refine (proj1 (proj2 (proj2
    (RecordFrameReader_skips_size field_u16 example_record_frame 0 12 4 _)))
    263 6 _).
  - vm_compute. reflexivity.
  - vm_compute. reflexivity.
Defined.

Lemma read_items_length {A} (payload : Reader A) n :
  forall chunk cursor items c,
    read_items payload n chunk cursor = Ok (items, c) -> length items = n.
Proof.
  induction n as [|n IH]; intros chunk cursor items c.
  - cbn. intros Heq. inversion Heq. reflexivity.
  - cbn [read_items]. unfold rbind.
    destruct (payload chunk cursor) as [[x c1]|e]; [|discriminate].
    destruct (read_items payload n chunk c1) as [[xs c2]|e] eqn:Hr; [|discriminate].
    intros Heq. inversion Heq; subst. cbn. f_equal. eapply IH. exact Hr.
Qed.

(** X2.  [ListFrameReader.read] returns as many items as the count of the
    frame header says, and none when the count is zero or negative: then
    no payload is read and only the sign of the size is checked. *)
Theorem ListFrameReader_item_count
    {A} (payload : Reader A) chunk cursor num_bytes num_items local_cursor :
  _rntuple_frame_header chunk cursor = Ok ((num_bytes, num_items), local_cursor) ->
  (forall items c,
     ListFrameReader payload chunk cursor = Ok (items, c) ->
     Z.of_nat (length items) = Z.max 0 num_items) /\
  (num_items <= 0 -> num_bytes < 0 ->
   ListFrameReader payload chunk cursor = Ok ([], cursor - num_bytes)).
Proof.
  intros Hh. unfold ListFrameReader. rewrite Hh. cbn [rbind]. split.
  - intros items c.
    destruct (num_bytes <? 0); [|discriminate].
    destruct (read_items payload (Z.to_nat num_items) chunk local_cursor)
      as [[xs c1]|e] eqn:Hr; cbn; [|discriminate].
    intros Heq. inversion Heq; subst.
    rewrite (read_items_length _ _ _ _ _ _ Hr). lia.
  - intros Hn Hb. destruct (Z.ltb_spec num_bytes 0); [|lia].
    replace (Z.to_nat num_items) with 0%nat by lia. reflexivity.
Qed.

Lemma ListFrameReader_item_count_witness :
  Z.of_nat (length [7; 9]) = Z.max 0 2.
Proof.
  refine (proj1 (ListFrameReader_item_count field_u32 example_list_frame 100
                   (-16) 2 108 _) [7; 9] 116 _).
  - vm_compute. reflexivity.
  - vm_compute. reflexivity.
Defined.

(** X3.  A footer with a column group record cannot be read:
    [ColumnGroupRecordReader.read] uses an attribute that is never set,
    so a list frame of column group records with a positive count, whose
    first record frame has a readable size, raises [AttributeError]. *)
Theorem column_group_record_raises
    chunk cursor num_bytes num_items local_cursor size c :
  _rntuple_frame_header chunk cursor = Ok ((num_bytes, num_items), local_cursor) ->
  num_bytes < 0 ->
  0 < num_items ->
  field_u32 chunk local_cursor = Ok (size, c) ->
  ListFrameReader (RecordFrameReader ColumnGroupRecordReader) chunk cursor
  = Raise AttributeError.
Proof.
  intros Hh Hb Hn Hf. unfold ListFrameReader. rewrite Hh. cbn [rbind].
  destruct (Z.ltb_spec num_bytes 0); [|lia].
  destruct (Z.to_nat num_items) as [|n] eqn:Hz; [lia|].
  cbn [read_items]. unfold RecordFrameReader at 1. rewrite Hf. reflexivity.
Qed.

Lemma column_group_record_raises_witness :
  ListFrameReader (RecordFrameReader ColumnGroupRecordReader)
    example_column_group_frame 0
  = Raise AttributeError.
Proof.
  refine (column_group_record_raises example_column_group_frame 0 (-28) 1 8
            20 12 _ _ _ _).
  - vm_compute. reflexivity.
  - lia.
  - lia.
  - vm_compute. reflexivity.
Defined.

(** ** Page-list envelopes *)

(** X4.  [PageLink.read] on an envelope whose top-most list has no items
    returns as soon as it has read the frame header: the envelope has no
    page list, and neither the sign of the size nor the CRC-32 at the end
    is looked at. *)
Theorem PageLink_empty_returns_unchecked chunk cursor env c1 num_bytes c2 :
  _envelop_header chunk cursor = Ok (env, c1) ->
  _rntuple_frame_header chunk c1 = Ok ((num_bytes, 0), c2) ->
  PageLink chunk cursor = Ok (mkPageLinkData env None None, c2).
Proof.
  intros He Hh. unfold PageLink. rewrite He. cbn [rbind]. rewrite Hh.
  reflexivity.
Qed.

Lemma PageLink_empty_returns_unchecked_witness :
  PageLink example_empty_page_list 0
  = Ok (mkPageLinkData (1, 1) None None, 12) /\
  crc32 (drop_last4 (raw_data example_empty_page_list)) <> 0.
Proof.
  split.
  - refine (PageLink_empty_returns_unchecked example_empty_page_list 0
              (1, 1) 4 8 12 _ _); vm_compute; reflexivity.
  - vm_compute. discriminate.
Defined.

(** X5.  A page-list envelope that [PageLink.read] returns with a page
    list has passed the check of its checksum: the u32 read behind the
    top-most list frame is the CRC-32 of the bytes of the chunk without
    the last four. *)
Theorem PageLink_checks_crc chunk cursor p c pll :
  PageLink chunk cursor = Ok (p, c) ->
  pagelinklist p = Some pll ->
  pl_crc32 p = Some (crc32 (drop_last4 (raw_data chunk))).
Proof.
  unfold PageLink, rbind.
  destruct (_envelop_header chunk cursor) as [[env c1]|e]; [|discriminate].
  destruct (_rntuple_frame_header chunk c1) as [[[nb ni] c2]|e]; [|discriminate].
  destruct (ni =? 0).
  - intros Heq. inversion Heq; subst. discriminate.
  - destruct (ListFrameReader _ chunk c1) as [[l c3]|e]; [|discriminate].
    destruct (field_u32 chunk _) as [[crc c4]|e]; [|discriminate].
    destruct (Z.eqb_spec (crc32 (drop_last4 (raw_data chunk))) crc) as [Hcrc|Hcrc];
      [|discriminate].
    intros Heq _. inversion Heq; subst. reflexivity.
Qed.

Lemma PageLink_checks_crc_witness :
  pl_crc32 (example_page_list 7)
  = Some (crc32 (drop_last4 (example_page_list_bytes 7))).
Proof.
  refine (PageLink_checks_crc (mkChunk 248 (example_page_list_bytes 7)) 248
            (example_page_list 7) 296
            [[[mkPageDescription 7 (mkLocator 0 0)]]] _ _).
  - vm_compute. reflexivity.
  - reflexivity.
Defined.

(** ** The caches of header and footer *)

Section Caches.
Context {U : Uproot}.

Lemma prepare_header_footer_untouched s r s' :
  _prepare_header_chunk s = (r, s') -> footer_untouched s s' /\ _header s' = _header s.
Proof.
  unfold _prepare_header_chunk, mbind', get_self, put_self, lift.
  destruct (_ =? _).
  - intros H. inversion H. repeat split.
  - destruct (decompress _ _ _ _); intros H; inversion H; repeat split.
Qed.

Lemma prepare_footer_keeps_cache s r s' :
  _prepare_footer_chunk s = (r, s') -> _footer s' = _footer s.
Proof.
  unfold _prepare_footer_chunk, mbind', get_self, put_self, lift.
  destruct (_ =? _).
  - intros H. inversion H. reflexivity.
  - destruct (decompress _ _ _ _); intros H; inversion H; reflexivity.
Qed.

Lemma header_footer_untouched s r s' :
  header s = (r, s') -> footer_untouched s s'.
Proof.
  unfold header. unfold mbind' at 1. unfold get_self at 1.
  destruct (_header s) as [h|].
  { intros H. inversion H. repeat split. }
  unfold mbind' at 1.
  destruct ((if _header_chunk_ready s then ret tt else _prepare_header_chunk) s)
    as [[[]|e] s1] eqn:Hprep.
  2:{ intros H. inversion H; subst.
      destruct (_header_chunk_ready s).
      - inversion Hprep.
      - apply (prepare_header_footer_untouched _ _ _ Hprep). }
  assert (H1 : footer_untouched s s1).
  { destruct (_header_chunk_ready s).
    - inversion Hprep. repeat split.
    - apply (prepare_header_footer_untouched _ _ _ Hprep). }
  unfold mbind' at 1. unfold get_self at 1.
  destruct (_header_cursor s1) as [cursor|]; [|intros H; inversion H; subst; exact H1].
  cbn [attr]. unfold mbind' at 1. unfold ret at 1.
  destruct (_header_chunk s1) as [chunk|]; [|intros H; inversion H; subst; exact H1].
  cbn [attr]. unfold mbind' at 1. unfold ret at 1.
  unfold mbind' at 1. unfold lift at 1.
  destruct (HeaderReader chunk cursor) as [[h c]|e];
    [|intros H; inversion H; subst; exact H1].
  unfold mbind' at 1. unfold put_self at 1.
  destruct (h_crc32 h =? _); intros H; inversion H; subst;
    destruct H1 as (Ha & Hb & Hc & Hd); repeat split; assumption.
Qed.

Lemma header_ok_cached s h s' :
  header s = (Ok h, s') -> _header s' = Some h.
Proof.
  unfold header. unfold mbind' at 1. unfold get_self at 1.
  destruct (_header s) as [h1|] eqn:Hh1.
  { intros H. inversion H; subst. exact Hh1. }
  unfold mbind' at 1.
  destruct ((if _header_chunk_ready s then ret tt else _prepare_header_chunk) s)
    as [[[]|e] s1]; [|discriminate].
  unfold mbind' at 1. unfold get_self at 1.
  destruct (_header_cursor s1) as [cursor|]; [|discriminate].
  cbn [attr]. unfold mbind' at 1. unfold ret at 1.
  destruct (_header_chunk s1) as [chunk|]; [|discriminate].
  cbn [attr]. unfold mbind' at 1. unfold ret at 1.
  unfold mbind' at 1. unfold lift at 1.
  destruct (HeaderReader chunk cursor) as [[h0 c]|e]; [|discriminate].
  unfold mbind' at 1. unfold put_self at 1.
  destruct (h_crc32 h0 =? _); [|discriminate].
  intros H. inversion H; subst. reflexivity.
Qed.

Lemma header_of_cache s h :
  _header s = Some h -> header s = (Ok h, s).
Proof. intros H. unfold header, mbind', get_self. rewrite H. reflexivity. Qed.

(** X6.  The [header] property stores the decoded header before it
    asserts the checksum.  When the header envelope decodes and its
    checksum is not the CRC-32 of the envelope, the first access raises
    [AssertionError] with the header already cached, and the next access
    returns that header without a check. *)
Theorem header_cached_before_check s s1 cursor chunk h c :
  _header s = None ->
  (if _header_chunk_ready s then ret tt else _prepare_header_chunk) s
  = (Ok tt, s1) ->
  _header_cursor s1 = Some cursor ->
  _header_chunk s1 = Some chunk ->
  HeaderReader chunk cursor = Ok (h, c) ->
  h_crc32 h <> crc32 (drop_last4 (raw_data chunk)) ->
  header s = (Raise AssertionError, set_header h s1) /\
  header (set_header h s1) = (Ok h, set_header h s1).
Proof.
  intros Hnone Hprep Hcur Hchunk Hread Hcrc. split; [|reflexivity].
  unfold header. unfold mbind' at 1. unfold get_self at 1. rewrite Hnone.
  rewrite (mbind_ok _ _ _ _ _ Hprep).
  unfold mbind' at 1. unfold get_self at 1. rewrite Hcur, Hchunk.
  cbn [attr]. unfold mbind' at 1. unfold ret at 1.
  unfold mbind' at 1. unfold ret at 1.
  rewrite (mbind_lift_ok _ _ _ _ Hread).
  unfold mbind' at 1. unfold put_self at 1.
  destruct (Z.eqb_spec (h_crc32 h) (crc32 (drop_last4 (raw_data chunk))));
    [contradiction|reflexivity].
Qed.

(** X7.  A header that the first access returns has passed the check: its
    [crc32] is the CRC-32 of the header chunk without the last four bytes;
    it is cached, and the next access returns it again. *)
Theorem header_returned_is_checked s h s' :
  _header s = None ->
  header s = (Ok h, s') ->
  exists chunk,
    _header_chunk s' = Some chunk /\
    h_crc32 h = crc32 (drop_last4 (raw_data chunk)) /\
    _header s' = Some h /\
    header s' = (Ok h, s').
Proof.
  intros Hnone. unfold header at 1. unfold mbind' at 1. unfold get_self at 1.
  rewrite Hnone. unfold mbind' at 1.
  destruct ((if _header_chunk_ready s then ret tt else _prepare_header_chunk) s)
    as [[[]|e] s1]; [|discriminate].
  unfold mbind' at 1. unfold get_self at 1.
  destruct (_header_cursor s1) as [cursor|]; [|discriminate].
  cbn [attr]. unfold mbind' at 1. unfold ret at 1.
  destruct (_header_chunk s1) as [chunk|] eqn:Hchunk; [|discriminate].
  cbn [attr]. unfold mbind' at 1. unfold ret at 1.
  unfold mbind' at 1. unfold lift at 1.
  destruct (HeaderReader chunk cursor) as [[h0 c]|e]; [|discriminate].
  unfold mbind' at 1. unfold put_self at 1.
  destruct (Z.eqb_spec (h_crc32 h0) (crc32 (drop_last4 (raw_data chunk))))
    as [Hcrc|Hcrc]; [|discriminate].
  intros H. inversion H; subst. exists chunk.
  split; [exact Hchunk|]. split; [exact Hcrc|]. split; reflexivity.
Qed.

(** X8.  A footer that the first access returns has passed both checks,
    against the bytes of its own envelope and against the header, which
    is loaded by then; and it is cached. *)
Theorem footer_returned_is_checked s f s' :
  _footer s = None ->
  footer s = (Ok f, s') ->
  exists chunk h,
    _footer_chunk s' = Some chunk /\
    f_crc32 f = crc32 (drop_last4 (raw_data chunk)) /\
    header s' = (Ok h, s') /\
    header_crc32 f = h_crc32 h /\
    _footer s' = Some f.
Proof.
  intros Hnone. unfold footer. unfold mbind' at 1. unfold get_self at 1.
  rewrite Hnone. unfold mbind' at 1.
  destruct ((if _footer_chunk_ready s then ret tt else _prepare_footer_chunk) s)
    as [[[]|e] s1]; [|discriminate].
  unfold mbind' at 1. unfold get_self at 1.
  destruct (_footer_cursor s1) as [cursor|]; [|discriminate].
  cbn [attr]. unfold mbind' at 1. unfold ret at 1.
  destruct (_footer_chunk s1) as [chunk|] eqn:Hchunk; [|discriminate].
  cbn [attr]. unfold mbind' at 1. unfold ret at 1.
  unfold mbind' at 1. unfold lift at 1.
  destruct (FooterReader chunk cursor) as [[f0 c]|e]; [|discriminate].
  unfold mbind' at 1.
  destruct (header s1) as [[h|e] s2] eqn:Hheader; [|discriminate].
  destruct (header_footer_untouched _ _ _ Hheader) as (_ & Hfc & _ & _).
  pose proof (header_ok_cached _ _ _ Hheader) as Hcached.
  destruct (Z.eqb_spec (header_crc32 f0) (h_crc32 h)) as [Hb|Hb]; [|discriminate].
  destruct (Z.eqb_spec (f_crc32 f0) (crc32 (drop_last4 (raw_data chunk))))
    as [Ha|Ha]; [|discriminate].
  unfold mbind', get_self, put_self, ret. intros H. inversion H; subst.
  exists chunk, h. split; [cbn; congruence|]. split; [exact Ha|].
  split; [apply header_of_cache; exact Hcached|].
  split; [exact Hb|reflexivity].
Qed.

(** X9.  An access to the footer that raises, for whatever reason, leaves
    the footer uncached, so that the next access reads and checks the
    envelope again; unlike the header, the footer is stored after its
    checks. *)
Theorem footer_failure_not_cached s e s' :
  _footer s = None ->
  footer s = (Raise e, s') ->
  _footer s' = None.
Proof.
  intros Hnone. unfold footer. unfold mbind' at 1. unfold get_self at 1.
  rewrite Hnone. unfold mbind' at 1.
  destruct ((if _footer_chunk_ready s then ret tt else _prepare_footer_chunk) s)
    as [[[]|e0] s1] eqn:Hprep.
  2:{ intros H. inversion H; subst. destruct (_footer_chunk_ready s).
      - inversion Hprep.
      - rewrite (prepare_footer_keeps_cache _ _ _ Hprep). exact Hnone. }
  assert (H1 : _footer s1 = None).
  { destruct (_footer_chunk_ready s).
    - inversion Hprep; subst. exact Hnone.
    - rewrite (prepare_footer_keeps_cache _ _ _ Hprep). exact Hnone. }
  unfold mbind' at 1. unfold get_self at 1.
  destruct (_footer_cursor s1) as [cursor|];
    [|intros H; inversion H; subst; exact H1].
  cbn [attr]. unfold mbind' at 1. unfold ret at 1.
  destruct (_footer_chunk s1) as [chunk|];
    [|intros H; inversion H; subst; exact H1].
  cbn [attr]. unfold mbind' at 1. unfold ret at 1.
  unfold mbind' at 1. unfold lift at 1.
  destruct (FooterReader chunk cursor) as [[f0 c]|e0];
    [|intros H; inversion H; subst; exact H1].
  unfold mbind' at 1.
  destruct (header s1) as [[h|e0] s2] eqn:Hheader.
  - destruct (header_footer_untouched _ _ _ Hheader) as (Hf & _).
    destruct (header_crc32 f0 =? h_crc32 h).
    + destruct (f_crc32 f0 =? _).
      * unfold mbind', get_self, put_self, ret. discriminate.
      * intros H. inversion H; subst. congruence.
    + intros H. inversion H; subst. congruence.
  - destruct (header_footer_untouched _ _ _ Hheader) as (Hf & _).
    intros H. inversion H; subst. congruence.
Qed.

End Caches.

Lemma header_cached_before_check_witness :
  fst (header example_bad_header_model) = Raise AssertionError /\
  fst (header (snd (header example_bad_header_model)))
  = Ok (example_empty_header 0).
Proof.
  edestruct (header_cached_before_check example_bad_header_model) as [H1 H2].
  - reflexivity.
  - vm_compute. reflexivity.
  - vm_compute. reflexivity.
  - vm_compute. reflexivity.
  - vm_compute. reflexivity.
  - vm_compute. discriminate.
  - rewrite H1. cbn [fst snd]. rewrite H2. split; reflexivity.
Defined.

Lemma header_returned_is_checked_witness :
  exists chunk,
    _header_chunk (snd (header (example_file_model example_header_crc)))
    = Some chunk /\
    h_crc32 (example_empty_header example_header_crc)
    = crc32 (drop_last4 (raw_data chunk)) /\
    _header (snd (header (example_file_model example_header_crc)))
    = Some (example_empty_header example_header_crc) /\
    header (snd (header (example_file_model example_header_crc)))
    = (Ok (example_empty_header example_header_crc),
       snd (header (example_file_model example_header_crc))).
Proof.
  apply (header_returned_is_checked (example_file_model example_header_crc)).
  - reflexivity.
  - vm_compute. reflexivity.
Defined.

Lemma footer_returned_is_checked_witness :
  exists chunk h,
    _footer_chunk (snd (footer (example_file_model example_header_crc)))
    = Some chunk /\
    f_crc32 (example_footer example_header_crc)
    = crc32 (drop_last4 (raw_data chunk)) /\
    header (snd (footer (example_file_model example_header_crc)))
    = (Ok h, snd (footer (example_file_model example_header_crc))) /\
    header_crc32 (example_footer example_header_crc) = h_crc32 h /\
    _footer (snd (footer (example_file_model example_header_crc)))
    = Some (example_footer example_header_crc).
Proof.
  apply (footer_returned_is_checked (example_file_model example_header_crc)).
  - reflexivity.
  - vm_compute. reflexivity.
Defined.

Lemma footer_failure_not_cached_witness :
  _footer (snd (footer (example_file_model 5))) = None.
Proof.
  apply (footer_failure_not_cached (example_file_model 5) AssertionError).
  - reflexivity.
  - vm_compute. reflexivity.
Defined.

(** ** Zig-zag, switch words, bits and lanes *)

(** X10.  [from_zigzag] inverts the zig-zag encoding of every int64 when
    the encoded 64-bit word is read as an unsigned integer. *)
Theorem from_zigzag_inverts_unsigned_word (x : Z) :
  - 2 ^ 63 <= x < 2 ^ 63 ->
  0 <= zigzag_word x < 2 ^ 64 /\ from_zigzag (zigzag_word x) = x.
Proof.
  intros Hx. split; [|apply from_zigzag_unsigned_word; exact Hx].
  unfold zigzag_word, wrap_unsigned. apply Z.mod_pos_bound. lia.
Qed.

Lemma from_zigzag_inverts_unsigned_word_witness :
  0 <= zigzag_word (- 2 ^ 63) < 2 ^ 64 /\
  from_zigzag (zigzag_word (- 2 ^ 63)) = - 2 ^ 63.
Proof. apply from_zigzag_inverts_unsigned_word. lia. Defined.

(** X11.  On an int64 array, as [read_col_page] has it for a zig-zag
    column, [from_zigzag] gives back the values whose encodings the array
    holds as long as they are of 63 bits, [-2^62 <= x < 2^62]. *)
Theorem np_from_zigzag_int64 (xs : list Z) :
  Forall (fun x => - 2 ^ 62 <= x < 2 ^ 62) xs ->
  np_from_zigzag (mkArray int64 (map zigzag_encode xs)) = Ok (mkArray int64 xs).
Proof.
  intros H. unfold np_from_zigzag. cbn [nd_dtype nd_data kind_of].
  do 2 f_equal. rewrite map_map.
  induction H as [|x l Hx _ IH]; [reflexivity|].
  cbn [map]. rewrite IH. f_equal.
  rewrite (from_zigzag_encode_small x Hx).
  change (bits_of int64) with 64. apply wrap_signed_id; lia.
Qed.

Lemma np_from_zigzag_int64_witness :
  np_from_zigzag (mkArray int64 (map zigzag_encode [-3; 0; 7; - 2 ^ 62]))
  = Ok (mkArray int64 [-3; 0; 7; - 2 ^ 62]).
Proof.
  apply np_from_zigzag_int64. repeat constructor; lia.
Defined.





(** A grid of [n] rows of [w] cells, row after row. *)
Lemma nth_grid {A} (f : nat -> nat -> A) (w : nat) (d : A) :
  forall n a i j,
    (i < n)%nat -> (j < w)%nat ->
    nth (i * w + j) (flat_map (fun r => map (f r) (seq 0 w)) (seq a n)) d
    = f (a + i)%nat j.
Proof.
  induction n as [|n IH]; intros a i j Hi Hj; [lia|].
  cbn [seq flat_map]. destruct i as [|i].
  - rewrite app_nth1 by (rewrite length_map, length_seq; lia).
    cbn [Nat.mul Nat.add].
    rewrite (nth_indep _ d (f a 0%nat))
      by (rewrite length_map, length_seq; lia).
    rewrite (map_nth (f a)), seq_nth by lia. f_equal; lia.
  - rewrite app_nth2 by (rewrite length_map, length_seq; lia).
    rewrite length_map, length_seq.
    replace (S i * w + j - w)%nat with (i * w + j)%nat by lia.
    rewrite IH by lia. f_equal. lia.
Qed.

Lemma length_grid {A} (f : nat -> nat -> A) (w : nat) :
  forall n a,
    length (flat_map (fun r => map (f r) (seq 0 w)) (seq a n)) = (n * w)%nat.
Proof.
  induction n as [|n IH]; intros a; [reflexivity|].
  cbn [seq flat_map]. rewrite length_app, length_map, length_seq, IH. lia.
Qed.

(** X13.  Un-splitting inverts the split encoding: for [w] lanes and a
    byte array of [w * n] bytes, the lanes of the array, put back element
    by element as [read_pagedesc] does, are the array. *)
Theorem unsplit_split_lanes (w n : nat) (b : list Byte.byte) :
  (0 < w)%nat ->
  length b = (w * n)%nat ->
  unsplit w (split_lanes w b) = b.
Proof.
  intros Hw Hlen.
  assert (Hn : (length b / w = n)%nat).
  { rewrite Hlen, Nat.mul_comm. apply Nat.div_mul. lia. }
  assert (Hs : length (split_lanes w b) = (w * n)%nat).
  { unfold split_lanes. rewrite Hn.
    rewrite (length_grid (fun j i => nth (i * w + j) b Byte.x00) n w 0). lia. }
  assert (Hn' : (length (split_lanes w b) / w = n)%nat).
  { rewrite Hs, Nat.mul_comm. apply Nat.div_mul. lia. }
  unfold unsplit. rewrite Hn'.
  apply (nth_ext _ _ Byte.x00 Byte.x00).
  - rewrite (length_grid
               (fun i j => nth (n * j + i) (split_lanes w b) Byte.x00) w n 0).
    lia.
  - intros k Hk.
    rewrite (length_grid
               (fun i j => nth (n * j + i) (split_lanes w b) Byte.x00) w n 0)
      in Hk.
    assert (Hkw : k = (k / w * w + k mod w)%nat).
    { rewrite (Nat.div_mod_eq k w) at 1. lia. }
    assert (Hi : (k / w < n)%nat) by (apply Nat.Div0.div_lt_upper_bound; lia).
    assert (Hj : (k mod w < w)%nat) by (apply Nat.mod_upper_bound; lia).
    rewrite Hkw at 1.
    rewrite (nth_grid (fun i j => nth (n * j + i) (split_lanes w b) Byte.x00)
               w Byte.x00 n 0 (k / w) (k mod w) Hi Hj).
    cbn [Nat.add]. unfold split_lanes. rewrite Hn.
    replace (n * (k mod w) + k / w)%nat with (k mod w * n + k / w)%nat by lia.
    rewrite (nth_grid (fun j i => nth (i * w + j) b Byte.x00)
               n Byte.x00 w 0 (k mod w) (k / w) Hj Hi).
    cbn [Nat.add]. rewrite <- Hkw. reflexivity.
Qed.

Lemma unsplit_split_lanes_witness :
  unsplit 2 (split_lanes 2 (bytes_of [1; 2; 3; 4; 5; 6]))
  = bytes_of [1; 2; 3; 4; 5; 6].
Proof.
  apply (unsplit_split_lanes 2 3); [lia|reflexivity].
Defined.

Lemma nth_unpackbits_lsb (bs : list Byte.byte) (k i : nat) :
  (k < length bs)%nat -> (i < 8)%nat ->
  nth (k * 8 + i) (unpackbits_lsb bs) 0
  = Z.land (Z.shiftr (Z_of_byte (nth k bs Byte.x00)) (Z.of_nat i)) 1.
Proof.
  revert k. induction bs as [|b bs IH]; intros k Hk Hi; [cbn in Hk; lia|].
  unfold unpackbits_lsb. cbn [flat_map]. destruct k as [|k].
  - rewrite app_nth1 by (rewrite length_map, length_seq; cbn; lia).
    cbn [Nat.mul Nat.add nth].
    rewrite (nth_indep _ 0 (Z.land (Z.shiftr (Z_of_byte b) (Z.of_nat 0)) 1))
      by (rewrite length_map, length_seq; lia).
    rewrite (map_nth (fun i => Z.land (Z.shiftr (Z_of_byte b) (Z.of_nat i)) 1)),
      seq_nth by lia.
    reflexivity.
  - rewrite app_nth2 by (rewrite length_map, length_seq; lia).
    rewrite length_map, length_seq.
    replace (S k * 8 + i - 8)%nat with (k * 8 + i)%nat by lia.
    cbn [nth]. apply IH; [cbn in Hk; lia|exact Hi].
Qed.

(** X14.  The bit unpacking of [read_pagedesc] turns every byte into 8
    values, least significant bit first: the value at position [8k + i] is
    bit [i] of byte [k], 0 or 1. *)
Theorem unpackbits_least_significant_first (bs : list Byte.byte) (k i : nat) :
  (k < length bs)%nat -> (i < 8)%nat ->
  length (unpackbits_lsb bs) = (8 * length bs)%nat /\
  nth (8 * k + i) (unpackbits_lsb bs) 0
  = (if Z.testbit (Z_of_byte (nth k bs Byte.x00)) (Z.of_nat i) then 1 else 0).
Proof.
  intros Hk Hi. split.
  - unfold unpackbits_lsb. clear. induction bs as [|b bs IH]; [reflexivity|].
    cbn [flat_map]. rewrite length_app, length_map, length_seq, IH. cbn. lia.
  - replace (8 * k + i)%nat with (k * 8 + i)%nat by lia.
    rewrite (nth_unpackbits_lsb bs k i Hk Hi).
    rewrite land_1, Z.shiftr_div_pow2, <- Z.testbit_spec' by lia.
    destruct (Z.testbit _ _); reflexivity.
Qed.

Lemma unpackbits_least_significant_first_witness :
  length (unpackbits_lsb (bytes_of [5; 128])) = (8 * 2)%nat /\
  nth (8 * 1 + 7) (unpackbits_lsb (bytes_of [5; 128])) 0
  = (if Z.testbit (Z_of_byte (nth 1 (bytes_of [5; 128]) Byte.x00)) (Z.of_nat 7)
     then 1 else 0).
Proof.
  apply unpackbits_least_significant_first; cbn; lia.
Defined.

(** ** Pages and column buffers *)

Section ColumnBuffers.
Context {U : Uproot}.

Lemma unpackbits_lsb_bits (bs : list Byte.byte) :
  Forall (fun v => v = 0 \/ v = 1) (unpackbits_lsb bs).
Proof.
  unfold unpackbits_lsb. induction bs as [|b bs IH]; [constructor|].
  cbn [flat_map]. apply Forall_app. split; [|exact IH].
  apply List.Forall_forall. intros v Hv. apply in_map_iff in Hv.
  destruct Hv as (i & <- & _). rewrite land_1.
  pose proof (Z.mod_pos_bound (Z.shiftr (Z_of_byte b) (Z.of_nat i)) 2). lia.
Qed.

Lemma cast_bits (l : list Z) :
  Forall (fun v => v = 0 \/ v = 1) l -> map (cast uint8 bool_) l = l.
Proof.
  intros H. induction H as [|v l Hv _ IH]; [reflexivity|].
  cbn [map]. rewrite IH. f_equal. destruct Hv as [-> | ->]; reflexivity.
Qed.

Lemma length_unpackbits_lsb (bs : list Byte.byte) :
  length (unpackbits_lsb bs) = (8 * length bs)%nat.
Proof.
  unfold unpackbits_lsb. induction bs as [|b bs IH]; [reflexivity|].
  cbn [flat_map]. rewrite length_app, length_map, length_seq, IH. cbn. lia.
Qed.

(** X15.  A page of a bit column: [read_pagedesc] reads one byte for
    every 8 elements, rounded up, unpacks the bits of the bytes and keeps
    exactly the first [num_elements] of them. *)
Theorem read_pagedesc_bit_page n desc nbits s l s' :
  read_pagedesc n desc bit bool_ nbits false s = (Ok l, s') ->
  exists raw,
    Z.of_nat (length raw) = (n + 7) / 8 /\
    l = firstn (Z.to_nat n) (unpackbits_lsb raw) /\
    Z.of_nat (length l) = n.
Proof.
  intros H. pose proof (read_pagedesc_length _ _ _ _ _ _ _ _ _ H) as Hlen.
  revert H. unfold read_pagedesc.
  unfold mbind' at 1.
  destruct (read_locator _ _ s) as [[[ch c]|e] s1]; [|discriminate].
  unfold mbind' at 1. unfold lift at 1.
  destruct (chunk_get ch c _) as [raw|e] eqn:Hraw; [|discriminate].
  unfold mbind' at 1. unfold ret at 1. unfold lift.
  destruct (assign_into n uint8 bool_ (unpackbits_lsb raw)) as [l0|e] eqn:Ha;
    [|discriminate].
  intros H. injection H as Hl Hs. rewrite Hl in Ha. clear Hl Hs. exists raw.
  pose proof (chunk_get_length _ _ _ _ Hraw) as Hr.
  change (itemsize bool_) with 1 in Hr.
  assert (Hn : 0 <= n) by lia.
  assert (Hraw_len : Z.of_nat (length raw) = (n + 7) / 8).
  { rewrite Hr. replace (n + 8 - 1) with (n + 7) by lia.
    pose proof (Z.div_pos (n + 7) 8). rewrite Z2Nat.id by lia. lia. }
  split; [exact Hraw_len|]. split; [|exact Hlen].
  unfold assign_into in Ha.
  assert (Htake : length (firstn (Z.to_nat n) (unpackbits_lsb raw)) = Z.to_nat n).
  { apply firstn_length_le. rewrite length_unpackbits_lsb.
    pose proof (Z.mul_div_le (n + 7) 8). pose proof (Z.mod_pos_bound (n + 7) 8).
    pose proof (Z.div_mod (n + 7) 8). lia. }
  rewrite Htake in Ha.
  destruct (Z.eqb_spec (Z.of_nat (Z.to_nat n)) n); [|lia].
  inversion Ha. apply cast_bits.
  apply Forall_take. apply unpackbits_lsb_bits.
Qed.

Lemma np_from_zigzag_length res arr :
  np_from_zigzag res = Ok arr -> length (nd_data arr) = length (nd_data res).
Proof.
  unfold np_from_zigzag. destruct (kind_of (nd_dtype res)); intros H;
    inversion H; cbn [nd_data]; rewrite ?length_map; reflexivity.
Qed.

(** X16.  For a non-empty page list whose pages decode, every buffer that
    [read_col_page] returns has as many elements as the page descriptions
    announce in total, and one more for an offset-index column. *)
Theorem read_col_page_length s ncol cluster_i pagelist ty dtype filled s' :
  decodes_to s ncol cluster_i pagelist ty dtype filled s' ->
  pagelist <> [] ->
  forall arr s'',
    read_col_page ncol cluster_i s = (Ok arr, s'') ->
    Z.of_nat (length (nd_data arr))
    = total_elements pagelist + (if ty <=? index32 then 1 else 0).
Proof.
  intros Hd Hne arr s''.
  rewrite (read_col_page_decoded _ _ _ _ _ _ _ _ Hd Hne). cbn zeta.
  destruct Hd as (ple & s1 & pll & linklist & crs & s2 & cr & dtype_s & nbits &
                  _ & _ & _ & _ & _ & _ & _ & _ & _ & _ & Hpages).
  pose proof (read_pages_length _ _ _ _ _ _ _ _ Hpages) as Hlen.
  assert (Hdata :
    Z.of_nat (length (if ty <=? index32 then 0 :: filled else filled))
    = total_elements pagelist + (if ty <=? index32 then 1 else 0)).
  { destruct (ty <=? index32); cbn [length]; lia. }
  destruct ((26 <=? ty) && (ty <=? 28)).
  - intros H. inversion H as [[Hz Hs]].
    rewrite (np_from_zigzag_length _ _ Hz). exact Hdata.
  - intros H. inversion H. exact Hdata.
Qed.

(** X17.  For an empty page list [read_col_page] returns an empty buffer
    of the dtype of the column, whatever the type of the column: an
    offset-index column gets no leading zero then, and the size table is
    not consulted. *)
Theorem read_col_page_empty_page_list
    s ncol cluster_i ple s1 pll linklist crs s2 cr dtype_s :
  page_list_envelopes s = (Ok ple, s1) ->
  pagelinklist_of ple = Ok pll ->
  py_index pll cluster_i = Ok linklist ->
  py_index linklist ncol = Ok [] ->
  column_records s1 = (Ok crs, s2) ->
  py_index crs ncol = Ok cr ->
  rntuple_col_num_to_dtype_dict (cr_type cr) = Some dtype_s ->
  read_col_page ncol cluster_i s
  = (Ok (mkArray (match dtype_s with bit => bool_ | np d => d end) []), s2).
Proof.
  intros H1 H2 H3 H4 H5 H6 H7. unfold read_col_page.
  rewrite (mbind_ok _ _ _ _ _ H1).
  rewrite (mbind_lift_ok _ _ _ _ H2), (mbind_lift_ok _ _ _ _ H3),
          (mbind_lift_ok _ _ _ _ H4).
  rewrite (mbind_ok _ _ _ _ _ H5), (mbind_lift_ok _ _ _ _ H6).
  unfold lookup_table. rewrite H7. reflexivity.
Qed.

End ColumnBuffers.

(** An offset-index column, of type 1, with an empty page list. *)
Lemma read_col_page_empty_page_list_witness :
  read_col_page 0 0
    (mkModel (mkMembers 0 0 0 0 0 0) [] true None None true None None
       (Some (example_header 1)) None
       (Envelope (mkPageLinkData (1, 1) (Some [[[]]]) (Some 0))))
  = (Ok (mkArray uint64 []),
     mkModel (mkMembers 0 0 0 0 0 0) [] true None None true None None
       (Some (example_header 1)) None
       (Envelope (mkPageLinkData (1, 1) (Some [[[]]]) (Some 0)))).
Proof.
  eapply (read_col_page_empty_page_list _ 0 0 _ _ _ _ _ _ _ (np uint64)).
  - vm_compute. reflexivity.
  - vm_compute. reflexivity.
  - vm_compute. reflexivity.
  - vm_compute. reflexivity.
  - vm_compute. reflexivity.
  - vm_compute. reflexivity.
  - vm_compute. reflexivity.
Defined.

Lemma read_col_page_length_witness :
  Z.of_nat (length [1; 2; 3])
  = total_elements [mkPageDescription 3 (mkLocator 24 0)]
    + (if 14 <=? index32 then 1 else 0).
Proof.
  refine (read_col_page_length (example_model 14 3 example_split_page) 0 0
            [mkPageDescription 3 (mkLocator 24 0)] 14 uint64 [1; 2; 3]
            (example_model 14 3 example_split_page) _ _
            (mkArray uint64 [1; 2; 3])
            (example_model 14 3 example_split_page) _).
  - unfold decodes_to. do 9 eexists.
    repeat (split; [vm_compute; reflexivity|]). vm_compute. reflexivity.
  - discriminate.
  - vm_compute. reflexivity.
Defined.

Lemma read_pagedesc_bit_page_witness :
  exists raw,
    Z.of_nat (length raw) = (10 + 7) / 8 /\
    [1; 0; 1; 0; 0; 0; 0; 0; 1; 1]
    = firstn (Z.to_nat 10) (unpackbits_lsb raw) /\
    Z.of_nat (length [1; 0; 1; 0; 0; 0; 0; 0; 1; 1]) = 10.
Proof.
  refine (read_pagedesc_bit_page 10 (mkPageDescription 10 (mkLocator 2 0)) 1
            (example_model 6 10 [5; 3]) _ (example_model 6 10 [5; 3]) _).
  vm_compute. reflexivity.
Defined.

(** * Further properties of the writer *)

(** ** Capacity *)

Section Capacity.
Context {W : cascadetree.Writing}.
Import cascadetree.

Lemma expand_capacity_counters t r t' :
  expand_capacity t = (r, t') ->
  _num_baskets t' = _num_baskets t /\
  (if _num_baskets t >=? _basket_capacity t - 1
   then match grown_capacity (_basket_capacity t) (_resize_factor t) with
        | Ok capacity => _basket_capacity t' = capacity
        | Raise e => _basket_capacity t' = _basket_capacity t /\ r = Raise e
        end
   else _basket_capacity t' = _basket_capacity t).
Proof.
  unfold expand_capacity, mbind', get_self, modify, ret, raise, lift.
  destruct (_num_baskets t >=? _basket_capacity t - 1).
  - destruct (grown_capacity _ _) as [capacity|e].
    + destruct (resize_all _ _ _) as [data [e|]]; intros H; inversion H;
        split; reflexivity.
    + intros H. inversion H. repeat split.
  - intros H. inversion H. split; reflexivity.
Qed.

(** X18.  The capacity step of [extend] never shrinks the capacity and
    does not change the number of baskets, whatever it returns or raises.
    When the tree is full ([num_baskets >= capacity - 1]) and the new
    capacity can be computed, the step leaves that capacity, which is
    bigger by one at least, whatever the resize factor, also when the
    step ends in an exception; and a step that returns for a full tree
    has made the capacity bigger. *)
Theorem expand_capacity_never_shrinks t r t' :
  expand_capacity t = (r, t') ->
  _basket_capacity t <= _basket_capacity t' /\
  _num_baskets t' = _num_baskets t /\
  (_num_baskets t >= _basket_capacity t - 1 ->
   forall capacity,
     grown_capacity (_basket_capacity t) (_resize_factor t) = Ok capacity ->
     _basket_capacity t' = capacity /\ _basket_capacity t + 1 <= capacity) /\
  (_num_baskets t >= _basket_capacity t - 1 ->
   r = Ok tt -> _basket_capacity t + 1 <= _basket_capacity t').
Proof.
  intros H. destruct (expand_capacity_counters _ _ _ H) as [Hn Hc].
  destruct (Z.geb_spec (_num_baskets t) (_basket_capacity t - 1)) as [Hfull|Hroom].
  - destruct (grown_capacity _ _) as [capacity|e] eqn:Hg.
    + pose proof (grown_capacity_gt _ _ _ Hg) as Hgt.
      split; [lia|]. split; [exact Hn|]. split.
      * intros _ capacity0 Heq. inversion Heq; subst. split; [reflexivity|lia].
      * intros _ _. lia.
    + destruct Hc as [Hc ->]. split; [lia|]. split; [exact Hn|].
      split; [intros _ capacity0 Heq; discriminate|intros _ Heq; discriminate].
  - split; [lia|]. split; [exact Hn|]. split; intros; lia.
Qed.

Lemma lookup_grown_datum capacity capacity' num_entries data i b :
  data !! i = Some (branch_datum b) ->
  map (grown_datum capacity capacity' num_entries) data !! i
  = Some (branch_datum (grown_branch capacity capacity' num_entries b)).
Proof.
  intros H. change (map ?f ?l) with (f <$> l).
  rewrite list_lookup_fmap, H. reflexivity.
Qed.

Lemma zeros_length n : 0 <= n -> Z.of_nat (length (zeros n)) = n.
Proof. intros H. unfold zeros. rewrite repeat_length. lia. Qed.

(** X19.  In a tree without record branches whose tables have the size of
    the capacity, the capacity step at [num_baskets >= capacity - 1]
    succeeds when the new capacity can be computed; afterwards the
    capacity is the new one, which is bigger, the three tables of every
    branch have the new capacity as their length and start with their old
    contents, and [fBasketEntry] holds the number of entries of the tree
    at the index of the old capacity. *)
Theorem growth_resizes_every_branch t capacity' :
  all_branches_sized (_basket_capacity t) (_branch_data t) ->
  _num_baskets t >= _basket_capacity t - 1 ->
  grown_capacity (_basket_capacity t) (_resize_factor t) = Ok capacity' ->
  exists t',
    expand_capacity t = (Ok tt, t') /\
    _basket_capacity t' = capacity' /\
    _basket_capacity t < capacity' /\
    forall i b,
      _branch_data t !! i = Some (branch_datum b) ->
      exists b',
        _branch_data t' !! i = Some (branch_datum b') /\
        tables_sized capacity' b' /\
        take (length (fBasketBytes b)) (fBasketBytes b') = fBasketBytes b /\
        take (length (fBasketEntry b)) (fBasketEntry b') = fBasketEntry b /\
        take (length (fBasketSeek b)) (fBasketSeek b') = fBasketSeek b /\
        fBasketEntry b' !! Z.to_nat (_basket_capacity t) = Some (_num_entries t).
Proof.
  intros Hall Hfull Hgrown.
  pose proof (grown_capacity_gt _ _ _ Hgrown) as Hlt.
  destruct (expand_capacity_grows t capacity' Hall Hfull Hgrown)
    as (t' & Hexp & Hcap & Hdata & _ & _).
  exists t'. split; [exact Hexp|]. split; [exact Hcap|]. split; [lia|].
  intros i b Hb. rewrite Hdata.
  exists (grown_branch (_basket_capacity t) capacity' (_num_entries t) b).
  split; [apply lookup_grown_datum; exact Hb|].
  assert (Hsized : tables_sized (_basket_capacity t) b).
  { unfold all_branches_sized in Hall. rewrite List.Forall_forall in Hall.
    destruct (Hall (branch_datum b)) as (b0 & Hb0 & Hs).
    - apply list_elem_of_In. eapply list_elem_of_lookup_2. exact Hb.
    - inversion Hb0; subst. exact Hs. }
  destruct Hsized as (H1 & H2 & H3).
  unfold grown_branch, set_tables, tables_sized.
  cbn [fBasketBytes fBasketEntry fBasketSeek].
  split; [|split; [|split; [|split]]].
  - rewrite !length_app. cbn [length].
    pose proof (zeros_length (capacity' - _basket_capacity t)).
    pose proof (zeros_length (capacity' - _basket_capacity t - 1)).
    repeat split; lia.
  - apply take_app_length.
  - apply take_app_length.
  - apply take_app_length.
  - rewrite <- H2, Nat2Z.id. apply list_lookup_middle. reflexivity.
Qed.

End Capacity.

Lemma expand_capacity_never_shrinks_witness :
  1 <= cascadetree._basket_capacity
         (snd (cascadetree.expand_capacity (example_flat_tree 1))) /\
  cascadetree._num_baskets
    (snd (cascadetree.expand_capacity (example_flat_tree 1))) = 0 /\
  (0 >= 1 - 1 ->
   forall capacity,
     cascadetree.grown_capacity 1 example_resize_factor = Ok capacity ->
     cascadetree._basket_capacity
       (snd (cascadetree.expand_capacity (example_flat_tree 1))) = capacity /\
     1 + 1 <= capacity) /\
  (0 >= 1 - 1 ->
   fst (cascadetree.expand_capacity (example_flat_tree 1)) = Ok tt ->
   1 + 1 <= cascadetree._basket_capacity
              (snd (cascadetree.expand_capacity (example_flat_tree 1)))).
Proof.
  refine (expand_capacity_never_shrinks (example_flat_tree 1)
            (fst (cascadetree.expand_capacity (example_flat_tree 1)))
            (snd (cascadetree.expand_capacity (example_flat_tree 1))) _).
  vm_compute. reflexivity.
Defined.

Lemma growth_resizes_every_branch_witness :
  exists t',
    cascadetree.expand_capacity (example_flat_tree 1) = (Ok tt, t') /\
    cascadetree._basket_capacity t' = 10 /\
    1 < 10 /\
    forall i b,
      cascadetree._branch_data (example_flat_tree 1) !! i
      = Some (cascadetree.branch_datum b) ->
      exists b',
        cascadetree._branch_data t' !! i = Some (cascadetree.branch_datum b') /\
        tables_sized 10 b' /\
        take (length (cascadetree.fBasketBytes b)) (cascadetree.fBasketBytes b')
        = cascadetree.fBasketBytes b /\
        take (length (cascadetree.fBasketEntry b)) (cascadetree.fBasketEntry b')
        = cascadetree.fBasketEntry b /\
        take (length (cascadetree.fBasketSeek b)) (cascadetree.fBasketSeek b')
        = cascadetree.fBasketSeek b /\
        cascadetree.fBasketEntry b' !! 1%nat = Some 0.
Proof.
  refine (growth_resizes_every_branch (example_flat_tree 1) 10 _ _ _).
  - repeat constructor; eexists; (split; [reflexivity|]);
      repeat split; vm_compute; reflexivity.
  - vm_compute. discriminate.
  - vm_compute. reflexivity.
Defined.

(** The product with a [float] is rounded before [math.ceil]: 50 times
    1.1 is the [float] above 55, so that the capacity 50 grows to 56, and
    10 times 1.1 is 11; with the [int] 2 the capacity 50 grows to 100. *)
Example grown_capacity_examples :
  cascadetree.grown_capacity 50 (cascadetree.PyFloat example_float_1_1) = Ok 56 /\
  cascadetree.grown_capacity 10 (cascadetree.PyFloat example_float_1_1) = Ok 11 /\
  cascadetree.grown_capacity 50 (cascadetree.PyInt 2) = Ok 100 /\
  cascadetree.grown_capacity 10 (cascadetree.PyFloat S754_nan) = Raise ValueError /\
  cascadetree.grown_capacity 10 (cascadetree.PyFloat (S754_infinity false))
  = Raise OverflowError.
Proof. repeat split; vm_compute; reflexivity. Qed.

(** ** The counters of the tree *)

Section Counters.
Context {W : cascadetree.Writing}.
Import cascadetree.

Lemma counters_kept_refl t : counters_kept t t.
Proof. split; reflexivity. Qed.

Lemma counters_kept_trans t1 t2 t3 :
  counters_kept t1 t2 -> counters_kept t2 t3 -> counters_kept t1 t3.
Proof. unfold counters_kept. intros [? ?] [? ?]. split; congruence. Qed.

Ltac counters_step :=
  first
    [ apply preserves_ret; apply counters_kept_refl
    | apply preserves_raise; apply counters_kept_refl
    | apply preserves_lift; apply counters_kept_refl
    | apply preserves_get; apply counters_kept_refl
    | apply preserves_modify; intros ?; split; reflexivity
    | apply preserves_bind; [apply counters_kept_trans| |intros ?] ].

Ltac counters_case :=
  match goal with
  | |- preserves _ (match ?x with _ => _ end) => destruct x
  | |- preserves _ (let '(_, _) := ?x in _) => destruct x
  end.

Lemma update_branch_counters i f : preserves counters_kept (update_branch i f).
Proof.
  unfold update_branch. apply preserves_modify. intros t.
  destruct (_branch_data t !! i) as [[|]|]; split; reflexivity.
Qed.

Lemma find_datum_counters name : preserves counters_kept (find_datum name).
Proof. unfold find_datum. repeat (counters_step || counters_case). Qed.

Lemma do_allocate_counters n : preserves counters_kept (do_allocate n).
Proof. unfold do_allocate. repeat (counters_step || counters_case). Qed.

Lemma sink_write_counters location out :
  preserves counters_kept (sink_write location out).
Proof. unfold sink_write. repeat counters_step. Qed.

Lemma encode_flat_counters i b arr : preserves counters_kept (encode_flat i b arr).
Proof.
  unfold encode_flat.
  repeat first [apply update_branch_counters | counters_step | counters_case].
Qed.

Lemma encode_jagged_counters b arr : preserves counters_kept (encode_jagged b arr).
Proof. unfold encode_jagged. repeat (counters_step || counters_case). Qed.

Lemma fill_loop_counters items :
  forall num_entries tofill,
    preserves counters_kept (fill_loop items num_entries tofill).
Proof.
  induction items as [|[name arr] rest IH]; intros num_entries tofill.
  - apply preserves_ret. apply counters_kept_refl.
  - cbn [fill_loop].
    apply preserves_bind;
      [apply counters_kept_trans|apply preserves_lift; apply counters_kept_refl|].
    intros ne. apply preserves_bind;
      [apply counters_kept_trans|apply find_datum_counters|].
    intros [i d]. destruct d as [rname keys|b]; [apply IH|].
    destruct (counter b).
    + apply preserves_bind;
        [apply counters_kept_trans|apply encode_jagged_counters|].
      intros [be offs]. apply IH.
    + apply preserves_bind;
        [apply counters_kept_trans|apply encode_flat_counters|].
      intros be. apply IH.
Qed.

Lemma write_np_basket_counters name array :
  preserves counters_kept (write_np_basket name array).
Proof.
  unfold write_np_basket.
  repeat first [apply do_allocate_counters | apply sink_write_counters
               | counters_step | counters_case].
Qed.

Lemma write_jagged_basket_counters name array offsets :
  preserves counters_kept (write_jagged_basket name array offsets).
Proof.
  unfold write_jagged_basket.
  repeat first [apply do_allocate_counters | apply sink_write_counters
               | counters_step | counters_case].
Qed.

Lemma record_basket_counters i n zipbytes location :
  preserves counters_kept (record_basket i n zipbytes location).
Proof.
  unfold record_basket.
  repeat first [apply update_branch_counters | counters_step | counters_case].
Qed.

Lemma basket_step_counters item num_entries :
  preserves counters_kept (basket_step item num_entries).
Proof.
  unfold basket_step. destruct item as [[name array] offsets].
  repeat first [apply update_branch_counters | apply find_datum_counters
               | apply write_np_basket_counters
               | apply write_jagged_basket_counters
               | apply record_basket_counters
               | counters_step | counters_case].
Qed.

Lemma basket_loop_counters tofill :
  forall num_entries u c,
    preserves counters_kept (basket_loop tofill num_entries u c).
Proof.
  induction tofill as [|item rest IH]; intros num_entries u c.
  - apply preserves_ret. apply counters_kept_refl.
  - cbn [basket_loop]. apply preserves_bind;
      [apply counters_kept_trans|apply basket_step_counters|].
    intros [totbytes zipbytes]. apply IH.
Qed.

(** X20.  A call of [extend] that returns adds one to the number of
    baskets, and a tree whose number of baskets is below its capacity
    before the call is so after it: the tables of a branch always have a
    slot for the next basket. *)
Theorem extend_keeps_room t data t' :
  _num_baskets t < _basket_capacity t ->
  extend data t = (Ok tt, t') ->
  _num_baskets t' = _num_baskets t + 1 /\
  _num_baskets t' < _basket_capacity t' /\
  _basket_capacity t <= _basket_capacity t'.
Proof.
  intros Hroom. unfold extend. unfold mbind' at 1.
  destruct (expand_capacity t) as [[[]|e] t1] eqn:Hexp; [|discriminate].
  destruct (expand_capacity_counters _ _ _ Hexp) as [Hn1 Hc1].
  unfold mbind' at 1. unfold get_self at 1.
  unfold mbind' at 1. unfold lift at 1.
  destruct (collect_branches _ _ _ _) as [[provided actual]|e]; [|discriminate].
  destruct provided as [|p provided]; [|discriminate].
  unfold mbind' at 1.
  destruct (fill_loop actual None [] t1) as [[[ne tofill]|e] t2] eqn:Hfill;
    [|discriminate].
  destruct (fill_loop_counters _ _ _ _ _ _ Hfill) as [Hn2 Hc2].
  unfold mbind' at 1.
  destruct (basket_loop tofill ne 0 0 t2) as [[[u c]|e] t3] eqn:Hloop;
    [|discriminate].
  destruct (basket_loop_counters _ _ _ _ _ _ _ Hloop) as [Hn3 Hc3].
  destruct ne as [n|]; [|discriminate].
  intros H. inversion H; subst. cbn.
  rewrite Hn3, Hn2, Hn1, Hc3, Hc2.
  destruct (Z.geb_spec (_num_baskets t) (_basket_capacity t - 1)); [|lia].
  destruct (grown_capacity _ _) as [capacity|e0] eqn:Hg.
  - apply grown_capacity_gt in Hg. lia.
  - destruct Hc1 as [_ Hr]. discriminate.
Qed.

End Counters.

Lemma extend_keeps_room_witness :
  cascadetree._num_baskets
    (snd (cascadetree.extend example_even_batch (example_flat_tree 1))) = 0 + 1 /\
  cascadetree._num_baskets
    (snd (cascadetree.extend example_even_batch (example_flat_tree 1)))
  < cascadetree._basket_capacity
      (snd (cascadetree.extend example_even_batch (example_flat_tree 1))) /\
  1 <= cascadetree._basket_capacity
         (snd (cascadetree.extend example_even_batch (example_flat_tree 1))).
Proof.
  refine (extend_keeps_room (example_flat_tree 1) example_even_batch
            (snd (cascadetree.extend example_even_batch (example_flat_tree 1)))
            _ _).
  - vm_compute. reflexivity.
  - vm_compute. reflexivity.
Defined.

(** ** The tables of a branch *)

Section Tables.
Context {W : cascadetree.Writing}.
Import cascadetree.

Lemma np_set_insert a i x :
  0 <= i < Z.of_nat (length a) -> np_set a i x = Ok (<[Z.to_nat i := x]> a).
Proof.
  intros H. unfold np_set.
  destruct (Z.leb_spec 0 i); [|lia].
  destruct (Z.ltb_spec i (Z.of_nat (length a))); [|lia]. reflexivity.
Qed.

Lemma np_get_lookup a i :
  0 <= i < Z.of_nat (length a) ->
  exists x, a !! Z.to_nat i = Some x /\ np_get a i = Ok x.
Proof.
  intros H. unfold np_get.
  destruct (Z.leb_spec 0 i); [|lia].
  destruct (Z.ltb_spec i (Z.of_nat (length a))); [|lia]. cbn [andb].
  destruct (a !! Z.to_nat i) as [x|] eqn:Hx; [eauto|].
  apply lookup_ge_None in Hx. lia.
Qed.

(** X21.  The updates of a branch after its basket is written, for tables
    that have the size of the capacity and a free slot: the compressed
    size and the place of the basket are stored at the index of the
    basket, and, when one more basket fits, [fBasketEntry] gets at the
    next index the entries of the batch added to its element at this
    index; the other elements, and the other branches, stay as they
    were. *)
Theorem record_basket_tables i n zipbytes location t b :
  _branch_data t !! i = Some (branch_datum b) ->
  tables_sized (_basket_capacity t) b ->
  0 <= _num_baskets t < _basket_capacity t ->
  exists t' b' e,
    record_basket i n zipbytes location t = (Ok tt, t') /\
    _branch_data t' !! i = Some (branch_datum b') /\
    fBasketEntry b !! Z.to_nat (_num_baskets t) = Some e /\
    fBasketBytes b' = <[Z.to_nat (_num_baskets t) := zipbytes]> (fBasketBytes b) /\
    fBasketSeek b' = <[Z.to_nat (_num_baskets t) := location]> (fBasketSeek b) /\
    fBasketEntry b'
    = (if _num_baskets t + 1 <? _basket_capacity t
       then <[Z.to_nat (_num_baskets t + 1) := n + e]> (fBasketEntry b)
       else fBasketEntry b) /\
    forall j, j <> i -> _branch_data t' !! j = _branch_data t !! j.
Proof.
  intros Hb (Hbytes & Hentry & Hseek) Hroom.
  destruct (np_get_lookup (fBasketEntry b) (_num_baskets t)) as (e & Hlook & Hget);
    [lia|].
  unfold record_basket. unfold mbind' at 1. unfold get_self at 1. rewrite Hb.
  rewrite (mbind_lift_ok _ _ _ _ (np_set_insert _ _ zipbytes
             (eq_ind_r (fun l => 0 <= _num_baskets t < l) Hroom Hbytes))).
  set (f1 := fun b0 : Branch => set_tables _ (fBasketEntry b0) (fBasketSeek b0) b0).
  rewrite (mbind_ok _ _ _ _ _ (update_branch_at i f1 t b Hb)).
  set (t1 := set_branch_data _ t).
  assert (Hb1 : _branch_data t1 !! i = Some (branch_datum (f1 b))).
  { subst t1. cbn. apply list_lookup_insert_eq. eapply lookup_lt_Some. exact Hb. }
  set (entry := if _num_baskets t + 1 <? _basket_capacity t
                then <[Z.to_nat (_num_baskets t + 1) := n + e]> (fBasketEntry b)
                else fBasketEntry b).
  assert (He :
    (if _num_baskets t + 1 <? _basket_capacity t
     then mbind' (lift (np_get (fBasketEntry b) (_num_baskets t)))
            (fun e => lift (np_set (fBasketEntry b) (_num_baskets t + 1) (n + e)))
     else ret (fBasketEntry b)) t1 = (Ok entry, t1)).
  { subst entry. destruct (Z.ltb_spec (_num_baskets t + 1) (_basket_capacity t)).
    - rewrite (mbind_lift_ok _ _ _ _ Hget). unfold lift.
      rewrite np_set_insert by lia. reflexivity.
    - reflexivity. }
  rewrite (mbind_ok _ _ _ _ _ He).
  set (f2 := fun b0 : Branch => set_tables (fBasketBytes b0) entry (fBasketSeek b0) b0).
  rewrite (mbind_ok _ _ _ _ _ (update_branch_at i f2 t1 _ Hb1)).
  set (t2 := set_branch_data _ t1).
  assert (Hb2 : _branch_data t2 !! i = Some (branch_datum (f2 (f1 b)))).
  { subst t2. cbn. apply list_lookup_insert_eq. eapply lookup_lt_Some. exact Hb1. }
  rewrite (mbind_lift_ok _ _ _ _ (np_set_insert _ _ location
             (eq_ind_r (fun l => 0 <= _num_baskets t < l) Hroom Hseek))).
  set (f3 := fun b0 : Branch => set_tables (fBasketBytes b0) (fBasketEntry b0) _ b0).
  rewrite (update_branch_at i f3 t2 _ Hb2).
  eexists. exists (f3 (f2 (f1 b))), e. split; [reflexivity|].
  split.
  { cbn. apply list_lookup_insert_eq. eapply lookup_lt_Some. exact Hb2. }
  split; [exact Hlook|]. split; [reflexivity|]. split; [reflexivity|].
  split; [reflexivity|].
  intros j Hj. cbn. rewrite !list_lookup_insert_ne by congruence. reflexivity.
Qed.

End Tables.

Lemma record_basket_tables_witness :
  exists t' b' e,
    cascadetree.record_basket 0 2 42 1000 (example_flat_tree 3) = (Ok tt, t') /\
    cascadetree._branch_data t' !! 0%nat = Some (cascadetree.branch_datum b') /\
    cascadetree.fBasketEntry (example_branch "a" None 3) !! 0%nat = Some e /\
    cascadetree.fBasketBytes b' = [42; 0; 0] /\
    cascadetree.fBasketSeek b' = [1000; 0; 0] /\
    cascadetree.fBasketEntry b' = [0; 2 + e; 0] /\
    forall j, j <> 0%nat ->
      cascadetree._branch_data t' !! j
      = cascadetree._branch_data (example_flat_tree 3) !! j.
Proof.
  refine (record_basket_tables 0 2 42 1000 (example_flat_tree 3)
            (example_branch "a" None 3) _ _ _).
  - reflexivity.
  - repeat split; vm_compute; reflexivity.
  - vm_compute. split; [discriminate|reflexivity].
Defined.

(** ** The length of a basket *)

Section BasketLength.
Context {W : cascadetree.Writing}.
Import cascadetree.

Lemma length_le_encode n z : length (le_encode n z) = n.
Proof.
  revert z. induction n as [|n IH]; intros z; [reflexivity|].
  cbn [le_encode length]. rewrite IH. reflexivity.
Qed.

Lemma length_be_encode n z : length (be_encode n z) = n.
Proof. unfold be_encode. rewrite length_rev. apply length_le_encode. Qed.

Lemma bytes_len_tobytes size values :
  0 <= size ->
  bytes_len (tobytes size values) = size * Z.of_nat (length values).
Proof.
  intros Hs. unfold bytes_len, tobytes.
  induction values as [|v values IH]; [cbn; lia|].
  cbn [flat_map length]. rewrite length_app, length_be_encode. lia.
Qed.

Lemma itemsize_nonneg d : 0 <= itemsize d.
Proof. destruct d; cbn; lia. Qed.

Lemma bytes_len_app a b : bytes_len (a ++ b) = bytes_len a + bytes_len b.
Proof. unfold bytes_len. rewrite length_app. lia. Qed.

Lemma drop_prefix6 {A} (a b c d e f raw : list A) n :
  n = (length a + length b + length c + length d + length e + length f)%nat ->
  drop n (a ++ b ++ c ++ d ++ e ++ f ++ raw) = raw.
Proof.
  intros ->.
  replace (a ++ b ++ c ++ d ++ e ++ f ++ raw)
    with ((a ++ b ++ c ++ d ++ e ++ f) ++ raw)
    by (rewrite <- !app_assoc; reflexivity).
  apply drop_app_length'. rewrite !length_app. lia.
Qed.

(** X22.  When [struct.pack] returns as many bytes as the [size] of its
    format, the basket that [write_np_basket] sends to the sink has
    exactly the [fNbytes] bytes that were allocated for it and that the
    method returns, which is [fKeylen] plus the item size of the dtype for
    each value of the array, and the data of the array start [fKeylen]
    bytes into the basket. *)
Theorem write_np_basket_size name array t :
  packs_to_size W ->
  let raw := tobytes (itemsize (ba_dtype array)) (ba_values array) in
  let K := fKeylen_of (_name t) name in
  let N := K + itemsize (ba_dtype array) * Z.of_nat (length (ba_values array)) in
  let location := fst (allocate (_freesegments t) N) in
  let fs := snd (allocate (_freesegments t) N) in
  exists out t',
    write_np_basket name array t = (Ok (N, N, location), t') /\
    sink t' = sink t ++ [SinkWrite location out;
                         SetFileLength (fileheader_end fs); Flush] /\
    _freesegments t' = fs /\
    bytes_len out = N /\
    skipn (Z.to_nat K) out = raw.
Proof.
  intros [Hkey Hbasket] raw K N location fs.
  assert (Hraw : bytes_len raw = N - K).
  { subst raw N. rewrite bytes_len_tobytes by apply itemsize_nonneg. lia. }
  unfold write_np_basket. unfold mbind' at 1. unfold get_self at 1.
  fold raw. fold K. rewrite Hraw.
  replace (K + (N - K)) with N by lia.
  unfold do_allocate, sink_write, mbind', get_self, modify, ret. cbv beta.
  subst location fs. destruct (allocate (_freesegments t) N) as [loc fs'].
  eexists. eexists. split; [reflexivity|].
  split; [cbn; rewrite <- !app_assoc; reflexivity|].
  split; [reflexivity|].
  change (Byte.x00 :: raw) with ([Byte.x00] ++ raw).
  split.
  - rewrite !bytes_len_app, Hkey, Hbasket, Hraw.
    subst K. unfold fKeylen_of, bytes_len. cbn [length]. lia.
  - apply drop_prefix6. specialize (Hkey N 1004 (N - K) datime_now K 0 loc
      (directory_key_location t)).
    specialize (Hbasket 3 32000 (basket_itemsize array) (ba_len array) N).
    unfold bytes_len in Hkey, Hbasket. cbn [length].
    subst K. unfold fKeylen_of, bytes_len in *. lia.
Qed.

(** X23.  When [struct.pack] returns as many bytes as the [size] of its
    format and the scaled offsets fit the [>i4] array, the basket that
    [write_jagged_basket] sends to the sink has exactly the [fNbytes]
    bytes that were allocated for it: [fKeylen], the item size of the
    dtype for each value, four bytes for the number of offsets and four
    bytes for each offset. *)
Theorem write_jagged_basket_size name array offsets t :
  packs_to_size W ->
  offsets <> [] ->
  Forall (fun o =>
            - 2 ^ 31 <= o * basket_itemsize array < 2 ^ 31 /\
            - 2 ^ 31 <= o * basket_itemsize array
                        + fKeylen_of (_name t) name < 2 ^ 31) offsets ->
  let N := fKeylen_of (_name t) name
           + itemsize (ba_dtype array) * Z.of_nat (length (ba_values array))
           + 4 + 4 * Z.of_nat (length offsets) in
  let location := fst (allocate (_freesegments t) N) in
  exists out t',
    write_jagged_basket name array offsets t = (Ok (N, N, location), t') /\
    In (SinkWrite location out) (sink t') /\
    bytes_len out = N.
Proof.
  intros [Hkey Hbasket] Hne Hrange N location.
  pose proof (write_jagged_basket_eq t name array offsets Hne Hrange) as Hw.
  cbv zeta in Hw.
  assert (Hlen : forall f : Z -> Z,
    length (removelast (map f offsets) ++ [0]) = length offsets).
  { intros f. fold (zero_last (map f offsets)).
    rewrite zero_last_length, length_map; [reflexivity|].
    destruct offsets; [congruence|discriminate]. }
  assert (HN : jagged_basket_nbytes t name array offsets = N).
  { unfold jagged_basket_nbytes. subst N.
    rewrite !bytes_len_tobytes by (apply itemsize_nonneg || lia).
    rewrite Hlen. lia. }
  rewrite HN in Hw. fold location in Hw.
  eexists. eexists. split; [exact Hw|]. split.
  - cbn. rewrite !in_app_iff. left. left. right. left. reflexivity.
  - unfold jagged_basket_bytes. rewrite !bytes_len_app, Hkey, Hbasket.
    rewrite !bytes_len_tobytes by (apply itemsize_nonneg || lia).
    rewrite Hlen. subst N. unfold fKeylen_of, bytes_len.
    rewrite length_be_encode. cbn [length]. lia.
Qed.

End BasketLength.

Lemma example_writing_packs : packs_to_size example_writing.
Proof.
  split; intros; unfold cascadetree.bytes_len;
    cbv [cascadetree.key_format_big_pack cascadetree.tbasket_format2_pack
         cascadetree.key_format_big_size cascadetree.tbasket_format2_size
         example_writing];
    rewrite !length_app, !length_be_encode; reflexivity.
Qed.

Lemma write_np_basket_size_witness :
  exists out t',
    cascadetree.write_np_basket "a" (cascadetree.mkBeArray int32 [2] [1; 2])
      (example_flat_tree 3)
    = (Ok (73, 73, 1000), t') /\
    cascadetree.sink t'
    = [] ++ [cascadetree.SinkWrite 1000 out;
             cascadetree.SetFileLength 1073; cascadetree.Flush] /\
    cascadetree._freesegments t' = 1073 /\
    cascadetree.bytes_len out = 73 /\
    skipn 65 out = bytes_of [0; 0; 0; 1; 0; 0; 0; 2].
Proof.
  exact (write_np_basket_size "a" (cascadetree.mkBeArray int32 [2] [1; 2])
           (example_flat_tree 3) example_writing_packs).
Defined.

Lemma write_jagged_basket_size_witness :
  exists out t',
    cascadetree.write_jagged_basket "v" example_jagged_content [0; 2; 5]
      example_jagged_tree
    = (Ok (101, 101, 1000), t') /\
    In (cascadetree.SinkWrite 1000 out) (cascadetree.sink t') /\
    cascadetree.bytes_len out = 101.
Proof.
  refine (write_jagged_basket_size "v" example_jagged_content [0; 2; 5]
            example_jagged_tree example_writing_packs _ _).
  - discriminate.
  - repeat constructor; vm_compute; discriminate || reflexivity.
Defined.

(** ** Branches and arrays *)

Section Matching.
Context {W : cascadetree.Writing}.
Import cascadetree.

Lemma dict_get_set {V} k k' (v : V) d :
  dict_get k (dict_set k' v d) = if String.eqb k k' then Some v else dict_get k d.
Proof.
  induction d as [|[k0 v0] d IH]; cbn.
  - destruct (String.eqb k k'); reflexivity.
  - destruct (String.eqb_spec k' k0) as [->|Hne]; cbn.
    + destruct (String.eqb k k0); reflexivity.
    + rewrite IH. destruct (String.eqb_spec k k0) as [->|Hne'];
        [|reflexivity].
      destruct (String.eqb_spec k0 k'); [congruence|reflexivity].
Qed.

Lemma dict_pop_get {V} k (d : list (string * V)) v d' :
  dict_pop k d = Some (v, d') -> dict_get k d = Some v.
Proof.
  revert d'. induction d as [|[k0 v0] d IH]; intros d'; cbn; [discriminate|].
  destruct (String.eqb k k0); [intros H; inversion H; reflexivity|].
  destruct (dict_pop k d) as [[v1 d1]|]; [|discriminate].
  intros H. inversion H; subst. eapply IH. reflexivity.
Qed.

Lemma dict_pop_other {V} k k' (d : list (string * V)) v d' :
  dict_pop k d = Some (v, d') -> k' <> k -> dict_get k' d' = dict_get k' d.
Proof.
  revert d'. induction d as [|[k0 v0] d IH]; intros d'; cbn; [discriminate|].
  destruct (String.eqb_spec k k0) as [->|Hne].
  - intros H Hk. inversion H; subst.
    destruct (String.eqb_spec k' k0); [congruence|reflexivity].
  - destruct (dict_pop k d) as [[v1 d1]|]; [|discriminate].
    intros H Hk. inversion H; subst. cbn.
    destruct (String.eqb k' k0); [reflexivity|]. apply IH; [reflexivity|exact Hk].
Qed.

Lemma dict_pop_none {V} k k' (d : list (string * V)) v d' :
  dict_pop k d = Some (v, d') -> dict_get k' d = None -> dict_get k' d' = None.
Proof.
  revert d'. induction d as [|[k0 v0] d IH]; intros d'; cbn; [discriminate|].
  destruct (String.eqb k k0).
  - intros H. inversion H; subst. destruct (String.eqb k' k0); [discriminate|auto].
  - destruct (dict_pop k d) as [[v1 d1]|]; [|discriminate].
    intros H. inversion H; subst. cbn.
    destruct (String.eqb k' k0); [discriminate|]. apply IH. reflexivity.
Qed.

Lemma normalize_absent cn data :
  forall provided k,
    (forall k' v, In (k', v) data ->
       k' <> k /\ forall o s c, v = Jagged o s c -> cn k' <> k) ->
    dict_get k provided = None ->
    dict_get k (normalize cn data provided) = None.
Proof.
  induction data as [|[k0 v0] data IH]; intros provided k Hks Hp; [exact Hp|].
  cbn [normalize]. apply IH.
  - intros k' v Hin. apply Hks. right. exact Hin.
  - destruct (Hks k0 v0 (or_introl eq_refl)) as [Hne Hj].
    rewrite dict_get_set. destruct (String.eqb_spec k k0); [congruence|].
    destruct v0 as [| o s c |]; try exact Hp.
    rewrite dict_get_set. destruct (String.eqb_spec k (cn k0)) as [->|_]; [|exact Hp].
    destruct (Hj o s c eq_refl eq_refl).
Qed.

Lemma normalize_present cn data :
  forall provided k,
    ((exists v, In (k, v) data) \/ dict_get k provided <> None) ->
    dict_get k (normalize cn data provided) <> None.
Proof.
  induction data as [|[k0 v0] data IH]; intros provided k Hk.
  - destruct Hk as [[v []]|Hp]. exact Hp.
  - cbn [normalize]. apply IH.
    destruct Hk as [[v [Heq|Hin]]|Hp].
    + inversion Heq; subst. right. rewrite dict_get_set, String.eqb_refl. discriminate.
    + left. eauto.
    + right. rewrite dict_get_set. destruct (String.eqb k k0); [discriminate|].
      destruct v0; try exact Hp.
      rewrite dict_get_set. destruct (String.eqb k (cn k0)); [discriminate|exact Hp].
Qed.

Lemma collect_branches_missing fn b data :
  forall provided actual,
    no_records data ->
    In (branch_datum b) data ->
    dict_get (fName b) provided = None ->
    collect_branches fn data provided actual = Raise ValueError.
Proof.
  induction data as [|d data IH]; intros provided actual Hnr Hin Hget;
    [destruct Hin|].
  inversion Hnr as [|d0 l (b0 & ->) Hrest]; subst.
  cbn [collect_branches].
  destruct (dict_pop (fName b0) provided) as [[v provided']|] eqn:Hpop;
    [|reflexivity].
  destruct Hin as [Heq|Hin].
  - inversion Heq; subst. rewrite (dict_pop_get _ _ _ _ Hpop) in Hget. discriminate.
  - apply IH; [exact Hrest|exact Hin|]. eapply dict_pop_none; eassumption.
Qed.

Lemma collect_branches_unknown fn k data :
  forall provided actual,
    no_records data ->
    (forall b, In (branch_datum b) data -> fName b <> k) ->
    dict_get k provided <> None ->
    collect_branches fn data provided actual = Raise ValueError \/
    exists provided' actual',
      collect_branches fn data provided actual = Ok (provided', actual') /\
      provided' <> [].
Proof.
  induction data as [|d data IH]; intros provided actual Hnr Hnames Hget.
  - right. exists provided, actual. split; [reflexivity|].
    intros ->. apply Hget. reflexivity.
  - inversion Hnr as [|d0 l (b0 & ->) Hrest]; subst.
    cbn [collect_branches].
    destruct (dict_pop (fName b0) provided) as [[v provided']|] eqn:Hpop;
      [|left; reflexivity].
    apply IH; [exact Hrest| |].
    + intros b Hin. apply Hnames. right. exact Hin.
    + rewrite (dict_pop_other _ k _ _ _ Hpop); [exact Hget|].
      intros Heq. apply (Hnames b0 (or_introl eq_refl)). congruence.
Qed.

(** X24.  In a tree without record branches [extend] raises [ValueError],
    after the capacity step and before anything else is changed or
    written, when a branch of the tree gets no array: its name is not a
    key of the data, and not the counter name of a jagged array of the
    data. *)
Theorem extend_missing_branch t data t1 b :
  expand_capacity t = (Ok tt, t1) ->
  no_records (_branch_data t1) ->
  In (branch_datum b) (_branch_data t1) ->
  (forall k v, In (k, v) data ->
     k <> fName b /\
     forall o s c, v = Jagged o s c -> _counter_name t1 k <> fName b) ->
  extend data t = (Raise ValueError, t1).
Proof.
  intros Hexp Hnr Hin Hkeys. unfold extend.
  rewrite (mbind_ok _ _ _ _ _ Hexp). unfold mbind' at 1. unfold get_self at 1.
  unfold mbind', lift.
  rewrite (collect_branches_missing _ b); try assumption; [reflexivity|].
  apply normalize_absent; [exact Hkeys|reflexivity].
Qed.

(** X25.  In a tree without record branches [extend] raises [ValueError],
    after the capacity step and before anything else is changed or
    written, when the data have a key that is the name of no branch of the
    tree. *)
Theorem extend_unknown_key t data t1 k v :
  expand_capacity t = (Ok tt, t1) ->
  no_records (_branch_data t1) ->
  In (k, v) data ->
  (forall b, In (branch_datum b) (_branch_data t1) -> fName b <> k) ->
  extend data t = (Raise ValueError, t1).
Proof.
  intros Hexp Hnr Hin Hnames. unfold extend.
  rewrite (mbind_ok _ _ _ _ _ Hexp). unfold mbind' at 1. unfold get_self at 1.
  unfold mbind', lift.
  destruct (collect_branches_unknown (_field_name t1) k (_branch_data t1)
              (normalize (_counter_name t1) data []) [] Hnr Hnames)
    as [Hc|(provided' & actual' & Hc & Hne)].
  - apply normalize_present. left. eauto.
  - rewrite Hc. reflexivity.
  - rewrite Hc. destruct provided'; [congruence|reflexivity].
Qed.

End Matching.

Lemma extend_missing_branch_witness :
  cascadetree.extend [("a"%string, cascadetree.Flat [] [[1]; [2]])]
    (example_flat_tree 3)
  = (Raise ValueError, example_flat_tree 3).
Proof.
  refine (extend_missing_branch (example_flat_tree 3)
            [("a"%string, cascadetree.Flat [] [[1]; [2]])]
            (example_flat_tree 3) (example_branch "b" None 3) _ _ _ _).
  - reflexivity.
  - repeat constructor; eexists; reflexivity.
  - right. left. reflexivity.
  - intros k v [Heq|[]]. inversion Heq; subst.
    split; [discriminate|]. intros o s c Hj. discriminate.
Defined.

Lemma extend_unknown_key_witness :
  cascadetree.extend
    (example_even_batch ++ [("c"%string, cascadetree.Flat [] [[5]; [6]])])
    (example_flat_tree 3)
  = (Raise ValueError, example_flat_tree 3).
Proof.
  refine (extend_unknown_key (example_flat_tree 3)
            (example_even_batch ++ [("c"%string, cascadetree.Flat [] [[5]; [6]])])
            (example_flat_tree 3) "c" (cascadetree.Flat [] [[5]; [6]]) _ _ _ _).
  - reflexivity.
  - repeat constructor; eexists; reflexivity.
  - right. right. left. reflexivity.
  - intros b [Heq|[Heq|[]]]; inversion Heq; subst; discriminate.
Defined.

(** ** Encoding the arrays *)

Section Encoding.
Context {W : cascadetree.Writing}.
Import cascadetree.

Lemma map_wrap_signed_id bits (f : Z -> Z) l :
  0 < bits ->
  Forall (fun o => - 2 ^ (bits - 1) <= f o < 2 ^ (bits - 1)) l ->
  map (wrap_signed bits) (map f l) = map f l.
Proof.
  intros Hb H. induction H as [|o l Ho _ IH]; [reflexivity|].
  cbn [map]. rewrite IH, wrap_signed_id by assumption. reflexivity.
Qed.

Lemma map_sub_0 l : map (fun o => o - 0) l = l.
Proof.
  induction l as [|o l IH]; [reflexivity|].
  cbn [map]. rewrite IH, Z.sub_0_r. reflexivity.
Qed.

(** X26.  A jagged array whose offsets start at [o0] and end within the
    content, and fit an [>i4] array once [o0] is subtracted, is encoded as
    if its offsets started at 0: the offsets handed to the basket writer
    are the given ones minus [o0], and the data are those of the content
    between the first and the last offset, flattened; the tree is not
    changed. *)
Theorem encode_jagged_slices b o0 rest content t :
  0 <= o0 ->
  o0 <= List.last (o0 :: rest) 0 <= Z.of_nat (length content) ->
  Forall (fun o => - 2 ^ 31 <= o - o0 < 2 ^ 31) (o0 :: rest) ->
  let values :=
    concat (firstn (Z.to_nat (List.last (o0 :: rest) 0 - o0))
              (skipn (Z.to_nat o0) content)) in
  encode_jagged b (Jagged (o0 :: rest) (shape b) content) t
  = (Ok (mkBeArray (dtype b) [Z.of_nat (length values)] values,
         map (fun o => o - o0) (o0 :: rest)), t).
Proof.
  intros H0 Hlast Hfit values. unfold encode_jagged.
  destruct (decide (shape b = shape b)) as [_|Hne]; [|congruence].
  assert (Hoffs : map (wrap_signed 32)
                    (if o0 =? 0 then o0 :: rest
                     else map (fun o => o - o0) (o0 :: rest))
                  = map (fun o => o - o0) (o0 :: rest)).
  { destruct (Z.eqb_spec o0 0) as [->|_].
    - rewrite <- (map_sub_0 (0 :: rest)) at 1.
      apply (map_wrap_signed_id 32); [lia|exact Hfit].
    - apply (map_wrap_signed_id 32); [lia|exact Hfit]. }
  assert (Hl : List.last (if o0 =? 0 then o0 :: rest
                          else map (fun o => o - o0) (o0 :: rest)) 0
               = List.last (o0 :: rest) 0 - o0).
  { destruct (Z.eqb_spec o0 0) as [->|_]; [lia|].
    apply (last_map_nonempty (fun o => o - o0) (o0 :: rest) 0 0). discriminate. }
  assert (Hc : (if o0 =? 0 then content else skipn (Z.to_nat o0) content)
               = skipn (Z.to_nat o0) content).
  { destruct (Z.eqb_spec o0 0) as [->|_]; reflexivity. }
  rewrite Hoffs, Hl, Hc.
  assert (Hv : (if Z.of_nat (length (skipn (Z.to_nat o0) content))
                   >? List.last (o0 :: rest) 0 - o0
                then firstn (Z.to_nat (List.last (o0 :: rest) 0 - o0))
                       (skipn (Z.to_nat o0) content)
                else skipn (Z.to_nat o0) content)
               = firstn (Z.to_nat (List.last (o0 :: rest) 0 - o0))
                   (skipn (Z.to_nat o0) content)).
  { destruct (Z.gtb_spec (Z.of_nat (length (skipn (Z.to_nat o0) content)))
                (List.last (o0 :: rest) 0 - o0)) as [_|Hle]; [reflexivity|].
    symmetry. apply firstn_all2. rewrite length_skipn in Hle |- *. lia. }
  rewrite Hv. reflexivity.
Qed.





(** X28.  A batch without values cannot be filled into a counter branch:
    the maximum of the empty array does not exist, the loop body raises
    [ValueError] and the branch keeps its running maximum. *)
Theorem counter_rejects_empty_batch i b rows t :
  kind b = kind_counter ->
  concat rows = [] ->
  encode_flat i b (Flat (shape b) rows) t = (Raise ValueError, t).
Proof.
  intros Hk Hrows. unfold encode_flat.
  destruct (decide (shape b = shape b)) as [_|Hs]; [|congruence].
  rewrite Hk. cbn [ba_values]. rewrite Hrows. reflexivity.
Qed.

End Encoding.

Lemma encode_jagged_slices_witness :
  cascadetree.encode_jagged example_jagged_branch
    (cascadetree.Jagged [1; 3; 4] [] [[10]; [20]; [30]; [40]; [50]])
    example_jagged_tree
  = (Ok (cascadetree.mkBeArray int32 [3] [20; 30; 40], [0; 2; 3]),
     example_jagged_tree).
Proof.
  refine (encode_jagged_slices example_jagged_branch 1 [3; 4]
            [[10]; [20]; [30]; [40]; [50]] example_jagged_tree _ _ _).
  - lia.
  - vm_compute. split; discriminate.
  - repeat constructor; vm_compute; discriminate || reflexivity.
Defined.


Lemma counter_rejects_empty_batch_witness :
  cascadetree.encode_flat 0 example_counter_branch (cascadetree.Flat [] [])
    example_counter_tree
  = (Raise ValueError, example_counter_tree).
Proof.
  refine (counter_rejects_empty_batch 0 example_counter_branch []
            example_counter_tree _ _); reflexivity.
Defined.

(** ** The size of the tables *)

Section FramesWithResults.
Context {W : cascadetree.Writing}.
Import cascadetree.
Context (P : Tree -> Tree -> Prop).
Context (P_trans : forall t1 t2 t3, P t1 t2 -> P t2 t3 -> P t1 t3).

Lemma preserves_bind_post {A B} (m : T A) (k : A -> T B) (Q : A -> Prop) :
  preserves P m ->
  (forall t a t', m t = (Ok a, t') -> Q a) ->
  (forall a, Q a -> preserves P (k a)) ->
  preserves P (mbind' m k).
Proof.
  intros Hm HQ Hk t r t'. unfold mbind'.
  destruct (m t) as [[a|e] t1] eqn:Hmt.
  - intros H. eapply P_trans; [eapply Hm; eassumption|].
    eapply Hk; [eapply HQ|]; eassumption.
  - intros H. inversion H; subst. eapply Hm; eassumption.
Qed.

End FramesWithResults.

Section TableSizes.
Context {W : cascadetree.Writing}.
Import cascadetree.
Context (c : Z).

Lemma sized_kept_refl t : sized_kept c t t.
Proof. intros H. exact H. Qed.

Lemma sized_kept_trans t1 t2 t3 :
  sized_kept c t1 t2 -> sized_kept c t2 t3 -> sized_kept c t1 t3.
Proof. unfold sized_kept. auto. Qed.

Ltac sized_step :=
  first
    [ apply preserves_ret; apply sized_kept_refl
    | apply preserves_raise; apply sized_kept_refl
    | apply preserves_lift; apply sized_kept_refl
    | apply preserves_get; apply sized_kept_refl
    | apply preserves_modify; intros ? ?; assumption
    | apply preserves_bind; [apply sized_kept_trans| |intros ?] ].

Ltac sized_case :=
  match goal with
  | |- preserves _ (match ?x with _ => _ end) => destruct x
  | |- preserves _ (let '(_, _) := ?x in _) => destruct x
  end.

Lemma update_branch_sized i f :
  (forall b, tables_sized c b -> tables_sized c (f b)) ->
  preserves (sized_kept c) (update_branch i f).
Proof.
  intros Hf. unfold update_branch. apply preserves_modify. intros t Hall.
  destruct (_branch_data t !! i) as [[name keys|b]|] eqn:Hb; try exact Hall.
  cbn. apply Forall_insert; [exact Hall|].
  unfold all_branches_sized in Hall.
  destruct (Forall_lookup_1 _ _ _ _ Hall Hb) as (b0 & Heq & Hs).
  inversion Heq; subst. exists (f b0). split; [reflexivity|]. apply Hf, Hs.
Qed.

Lemma find_datum_sized name : preserves (sized_kept c) (find_datum name).
Proof. unfold find_datum. repeat (sized_step || sized_case). Qed.

Lemma do_allocate_sized n : preserves (sized_kept c) (do_allocate n).
Proof. unfold do_allocate. repeat (sized_step || sized_case). Qed.

Lemma sink_write_sized location out :
  preserves (sized_kept c) (sink_write location out).
Proof. unfold sink_write. repeat sized_step. Qed.

Lemma encode_flat_sized i b arr : preserves (sized_kept c) (encode_flat i b arr).
Proof.
  unfold encode_flat.
  repeat first [ apply update_branch_sized; intros ? Hs; exact Hs
               | sized_step | sized_case].
Qed.

Lemma encode_jagged_sized b arr : preserves (sized_kept c) (encode_jagged b arr).
Proof. unfold encode_jagged. repeat (sized_step || sized_case). Qed.

Lemma fill_loop_sized items :
  forall num_entries tofill,
    preserves (sized_kept c) (fill_loop items num_entries tofill).
Proof.
  induction items as [|[name arr] rest IH]; intros num_entries tofill.
  - apply preserves_ret. apply sized_kept_refl.
  - cbn [fill_loop].
    apply preserves_bind;
      [apply sized_kept_trans|apply preserves_lift; apply sized_kept_refl|].
    intros ne. apply preserves_bind;
      [apply sized_kept_trans|apply find_datum_sized|].
    intros [i d]. destruct d as [rname keys|b]; [apply IH|].
    destruct (counter b).
    + apply preserves_bind;
        [apply sized_kept_trans|apply encode_jagged_sized|].
      intros [be offs]. apply IH.
    + apply preserves_bind;
        [apply sized_kept_trans|apply encode_flat_sized|].
      intros be. apply IH.
Qed.

Lemma write_np_basket_sized name array :
  preserves (sized_kept c) (write_np_basket name array).
Proof.
  unfold write_np_basket.
  repeat first [apply do_allocate_sized | apply sink_write_sized
               | sized_step | sized_case].
Qed.

Lemma write_jagged_basket_sized name array offsets :
  preserves (sized_kept c) (write_jagged_basket name array offsets).
Proof.
  unfold write_jagged_basket.
  repeat first [apply do_allocate_sized | apply sink_write_sized
               | sized_step | sized_case].
Qed.

Lemma np_set_length a i x a' : np_set a i x = Ok a' -> length a' = length a.
Proof.
  unfold np_set. destruct (_ && _); [|discriminate].
  intros H. inversion H. apply length_insert.
Qed.

Lemma lift_post {A} (x : result A) (t : Tree) a t' :
  lift x t = (Ok a, t') -> x = Ok a.
Proof. unfold lift. intros H. inversion H. reflexivity. Qed.

Lemma record_basket_sized i n zipbytes location :
  preserves (sized_kept c) (record_basket i n zipbytes location).
Proof.
  intros t r t' H Hall. revert H. unfold record_basket.
  unfold mbind' at 1. unfold get_self at 1.
  destruct (_branch_data t !! i) as [[name keys|b]|] eqn:Hb;
    try (intros H; inversion H; subst; exact Hall).
  destruct (Forall_lookup_1 _ _ _ _ Hall Hb) as (b0 & Heq & Hs).
  inversion Heq; subst b0. clear Heq. destruct Hs as (Hs1 & Hs2 & Hs3).
  match goal with
  | |- ?M t = _ -> _ =>
      assert (Hp : preserves (sized_kept c) M);
        [|intros H; exact (Hp t r t' H Hall)]
  end.
  apply (preserves_bind_post _ sized_kept_trans _ _
           (fun a => Z.of_nat (length a) = c)).
  { apply preserves_lift. apply sized_kept_refl. }
  { intros t0 a t1 H. apply lift_post in H. apply np_set_length in H. lia. }
  intros bytes Hbytes.
  apply preserves_bind; [apply sized_kept_trans| |intros _].
  { apply update_branch_sized. intros b0 (H1 & H2 & H3). repeat split; assumption. }
  apply (preserves_bind_post _ sized_kept_trans _ _
           (fun a => Z.of_nat (length a) = c)).
  { destruct (_num_baskets t + 1 <? _basket_capacity t); repeat sized_step. }
  { intros t0 a t1. destruct (_num_baskets t + 1 <? _basket_capacity t).
    - unfold mbind', lift. destruct (np_get _ _) as [e|e]; [|discriminate].
      intros H. inversion H as [[H1 H2]]. apply np_set_length in H1. lia.
    - intros H. inversion H; subst. exact Hs2. }
  intros entry Hentry.
  apply preserves_bind; [apply sized_kept_trans| |intros _].
  { apply update_branch_sized. intros b0 (H1 & H2 & H3). repeat split; assumption. }
  apply (preserves_bind_post _ sized_kept_trans _ _
           (fun a => Z.of_nat (length a) = c)).
  { apply preserves_lift. apply sized_kept_refl. }
  { intros t0 a t1 H. apply lift_post in H. apply np_set_length in H. lia. }
  intros seek Hseek.
  apply update_branch_sized. intros b0 (H1 & H2 & H3). repeat split; assumption.
Qed.

Lemma basket_step_sized item num_entries :
  preserves (sized_kept c) (basket_step item num_entries).
Proof.
  unfold basket_step. destruct item as [[name array] offsets].
  repeat first [ apply update_branch_sized; intros ? Hs; exact Hs
               | apply find_datum_sized
               | apply write_np_basket_sized
               | apply write_jagged_basket_sized
               | apply record_basket_sized
               | sized_step | sized_case].
Qed.

Lemma basket_loop_sized tofill :
  forall num_entries u v,
    preserves (sized_kept c) (basket_loop tofill num_entries u v).
Proof.
  induction tofill as [|item rest IH]; intros num_entries u v.
  - apply preserves_ret. apply sized_kept_refl.
  - cbn [basket_loop]. apply preserves_bind;
      [apply sized_kept_trans|apply basket_step_sized|].
    intros [totbytes zipbytes]. apply IH.
Qed.

End TableSizes.

Section TableInvariant.
Context {W : cascadetree.Writing}.
Import cascadetree.

Lemma grown_branch_sized capacity capacity' num_entries b :
  tables_sized capacity b -> capacity < capacity' ->
  tables_sized capacity' (grown_branch capacity capacity' num_entries b).
Proof.
  intros (H1 & H2 & H3) Hlt. unfold grown_branch, set_tables, tables_sized.
  cbn [fBasketBytes fBasketEntry fBasketSeek].
  rewrite !length_app. cbn [length].
  pose proof (zeros_length (capacity' - capacity)).
  pose proof (zeros_length (capacity' - capacity - 1)).
  repeat split; lia.
Qed.

Lemma expand_capacity_sized t t1 :
  all_branches_sized (_basket_capacity t) (_branch_data t) ->
  expand_capacity t = (Ok tt, t1) ->
  all_branches_sized (_basket_capacity t1) (_branch_data t1).
Proof.
  intros Hall Hexp.
  destruct (Z.geb_spec (_num_baskets t) (_basket_capacity t - 1)) as [Hfull|Hroom].
  - destruct (grown_capacity (_basket_capacity t) (_resize_factor t))
      as [capacity'|e] eqn:Hg.
    + destruct (expand_capacity_grows t capacity' Hall ltac:(lia) Hg)
        as (t' & Hexp' & Hcap & Hdata & _).
      rewrite Hexp in Hexp'. inversion Hexp'; subst t'.
      rewrite Hcap, Hdata. apply grown_capacity_gt in Hg.
      unfold all_branches_sized in *. apply Forall_map.
      eapply List.Forall_impl; [|exact Hall].
      intros d (b & -> & Hs). eexists. split; [reflexivity|].
      apply grown_branch_sized; [exact Hs|lia].
    + destruct (expand_capacity_counters _ _ _ Hexp) as [_ Hc].
      destruct (Z.geb_spec (_num_baskets t) (_basket_capacity t - 1)); [|lia].
      rewrite Hg in Hc. destruct Hc as [_ Hr]. discriminate.
  - rewrite expand_capacity_idle in Hexp by lia. inversion Hexp; subst.
    exact Hall.
Qed.

(** X29.  The invariant of the tables: when the three tables of every
    branch have the capacity of the tree as their length, they have it
    again after a call of [extend] that returns, whether the call has
    grown the capacity or not. *)
Theorem extend_keeps_tables_sized t data t' :
  all_branches_sized (_basket_capacity t) (_branch_data t) ->
  extend data t = (Ok tt, t') ->
  all_branches_sized (_basket_capacity t') (_branch_data t').
Proof.
  intros Hall. unfold extend. unfold mbind' at 1.
  destruct (expand_capacity t) as [[[]|e] t1] eqn:Hexp; [|discriminate].
  pose proof (expand_capacity_sized _ _ Hall Hexp) as Hall1.
  unfold mbind' at 1. unfold get_self at 1.
  unfold mbind' at 1. unfold lift at 1.
  destruct (collect_branches _ _ _ _) as [[provided actual]|e]; [|discriminate].
  destruct provided as [|p provided]; [|discriminate].
  unfold mbind' at 1.
  destruct (fill_loop actual None [] t1) as [[[ne tofill]|e] t2] eqn:Hfill;
    [|discriminate].
  destruct (fill_loop_counters _ _ _ _ _ _ Hfill) as [_ Hc2].
  pose proof (fill_loop_sized _ _ _ _ _ _ _ Hfill Hall1) as Hall2.
  unfold mbind' at 1.
  destruct (basket_loop tofill ne 0 0 t2) as [[[u v]|e] t3] eqn:Hloop;
    [|discriminate].
  destruct (basket_loop_counters _ _ _ _ _ _ _ Hloop) as [_ Hc3].
  pose proof (basket_loop_sized _ _ _ _ _ _ _ _ Hloop Hall2) as Hall3.
  destruct ne as [n|]; [|discriminate].
  intros H. inversion H; subst. cbn. rewrite Hc3, Hc2. exact Hall3.
Qed.

End TableInvariant.

Lemma extend_keeps_tables_sized_witness :
  all_branches_sized
    (cascadetree._basket_capacity
       (snd (cascadetree.extend example_even_batch (example_flat_tree 1))))
    (cascadetree._branch_data
       (snd (cascadetree.extend example_even_batch (example_flat_tree 1)))).
Proof.
  refine (extend_keeps_tables_sized (example_flat_tree 1) example_even_batch
            (snd (cascadetree.extend example_even_batch (example_flat_tree 1)))
            _ _).
  - repeat constructor; eexists; (split; [reflexivity|]);
      repeat split; vm_compute; reflexivity.
  - vm_compute. reflexivity.
Defined.
